(** * autoCommit-CLI: the commit plan builder and the execution engine

    A shallow embedding of [src/core/date-calculator.ts] (class
    [DateCalculator]), [src/core/commit-generator.ts] (class
    [CommitGenerator]), [src/core/git-service.ts] (the part of [GitService]
    the engine calls) and [src/utils/validator.ts] (class [Validator]).
    Further down come the configuration schema of [src/types/index.ts],
    the reports of the validator, the [rollback] command of
    [src/commands/rollback.ts] and the dry-run listing of
    [src/commands/generate.ts].

    Numbers.  JavaScript numbers that the code keeps integral (indices,
    counts, minutes, milliseconds) are [Z]; the values returned by
    [Math.random()] and [skipProbability] are rationals [Q].  In the plan
    builder a product with one of them is taken exactly before
    [Math.floor] ([Qfloor]).  [Binary64] has the rounding of JavaScript
    numbers, and [Floating.estimateCommitCount] is the estimate computed
    with it.

    Dates.  In [DateFns] and [DateCalculator] a JavaScript [Date] is a
    number of milliseconds on the local clock (proleptic Gregorian
    calendar): the program as it runs where the zone keeps one offset.
    [Zoned] has the same functions on instants, in a zone whose offset may
    change, as where clocks are turned forward and back.  Where the zone
    has no transition on the days of the plan, the plan is the same
    ([generateCommitPlan_steady]). *)

From Stdlib Require Import ZArith QArith Qround Qpower List String Ascii Bool Lia.
From Stdlib Require Import Sorted Permutation DecimalString Lqa.
Import ListNotations.

Local Open Scope string_scope.
Local Open Scope Z_scope.

(** ** Strings *)

Module Str.

(** [String(n)] for an integral number. *)
Definition of_Z (n : Z) : string := NilZero.string_of_int (Z.to_int n).

(** Zero padding to two and to four digits, as date-fns pads [MM], [dd],
    [HH], [mm], [ss] and [yyyy]. *)
Definition pad2 (n : Z) : string :=
  if n <? 10 then "0" ++ of_Z n else of_Z n.

Definition pad4 (n : Z) : string :=
  if n <? 10 then "000" ++ of_Z n
  else if n <? 100 then "00" ++ of_Z n
  else if n <? 1000 then "0" ++ of_Z n
  else of_Z n.

(** [s] between double quotes. *)
Definition quoted (s : string) : string :=
  String (ascii_of_nat 34) (s ++ String (ascii_of_nat 34) EmptyString).

Definition digit (c : ascii) : option Z :=
  let n := Z.of_nat (nat_of_ascii c) in
  if (48 <=? n) && (n <=? 57) then Some (n - 48) else None.

(** Value of a string of decimal digits; [None] when a character is not a
    digit. *)
Fixpoint digits_from (acc : Z) (s : string) : option Z :=
  match s with
  | EmptyString => Some acc
  | String c s' =>
      match digit c with
      | Some d => digits_from (acc * 10 + d) s'
      | None => None
      end
  end.

Definition digits (s : string) : option Z :=
  match s with
  | EmptyString => None
  | _ => digits_from 0 s
  end.

(** [Number(s)] on the strings the configuration schema lets through
    (decimal digits); JavaScript's NaN for other strings has no
    counterpart in [Z], and [0] stands for it. *)
Definition Number (s : string) : Z :=
  match digits s with
  | Some n => n
  | None => 0
  end.

(** [s.replace(/pat/g, rep)] for a literal pattern and a replacement
    without [$]: every occurrence is replaced, scanning left to right and
    resuming after the occurrence.  [skip] counts the characters of a
    matched occurrence still to be passed over. *)
Fixpoint replace_go (pat rep : string) (skip : nat) (s : string) : string :=
  match s with
  | EmptyString => EmptyString
  | String c s' =>
      match skip with
      | S k => replace_go pat rep k s'
      | O =>
          if prefix pat s
          then rep ++ replace_go pat rep (Nat.pred (String.length pat)) s'
          else String c (replace_go pat rep O s')
      end
  end.

Definition replace_all (pat rep s : string) : string :=
  match pat with
  | EmptyString => s
  | _ => replace_go pat rep O s
  end.

End Str.

(** ** Calendar arithmetic behind the date-fns functions *)

Module Calendar.

Definition MS_PER_SECOND : Z := 1000.
Definition MS_PER_MINUTE : Z := 60000.
Definition MS_PER_HOUR : Z := 3600000.
Definition MS_PER_DAY : Z := 86400000.

Definition is_leap (y : Z) : bool :=
  ((y mod 4 =? 0) && negb (y mod 100 =? 0)) || (y mod 400 =? 0).

Definition days_in_month (y m : Z) : Z :=
  if m =? 2 then (if is_leap y then 29 else 28)
  else if (m =? 4) || (m =? 6) || (m =? 9) || (m =? 11) then 30
  else 31.

(** Days from 1970-01-01 to the civil date [y]-[m]-[d]. *)
Definition days_from_civil (y m d : Z) : Z :=
  let y' := if m <=? 2 then y - 1 else y in
  let era := y' / 400 in
  let yoe := y' - era * 400 in
  let mp := if m <=? 2 then m + 9 else m - 3 in
  let doy := (153 * mp + 2) / 5 + d - 1 in
  let doe := yoe * 365 + yoe / 4 - yoe / 100 + doy in
  era * 146097 + doe - 719468.

(** The civil date of a day number: (year, month, day of month). *)
Definition civil_from_days (z : Z) : Z * Z * Z :=
  let z' := z + 719468 in
  let era := z' / 146097 in
  let doe := z' - era * 146097 in
  let yoe := (doe - doe / 1460 + doe / 36524 - doe / 146096) / 365 in
  let doy := doe - (365 * yoe + yoe / 4 - yoe / 100) in
  let mp := (5 * doy + 2) / 153 in
  let d := doy - (153 * mp + 2) / 5 + 1 in
  let m := if mp <? 10 then mp + 3 else mp - 9 in
  let y := yoe + era * 400 in
  ((if m <=? 2 then y + 1 else y), m, d).

End Calendar.

(** ** JavaScript [Date] and the date-fns functions the code imports *)

Definition Date := Z.

Module DateFns.
Import Calendar.

Definition dayNumber (d : Date) : Z := d / MS_PER_DAY.
Definition timeOfDay (d : Date) : Z := d mod MS_PER_DAY.

Definition getHours (d : Date) : Z := timeOfDay d / MS_PER_HOUR.
Definition getMinutes (d : Date) : Z := (timeOfDay d mod MS_PER_HOUR) / MS_PER_MINUTE.
Definition getSeconds (d : Date) : Z := (timeOfDay d mod MS_PER_MINUTE) / MS_PER_SECOND.
Definition getMilliseconds (d : Date) : Z := timeOfDay d mod MS_PER_SECOND.

(** [getTime]: the offset of the zone is constant, taken as 0. *)
Definition getTime (d : Date) : Z := d.

(** [getDay]: 0 is Sunday; 1970-01-01 was a Thursday. *)
Definition getDay (d : Date) : Z := (dayNumber d + 4) mod 7.

(** The setters replace one field and keep the others; a value outside
    the field's range carries into the next field, as in JavaScript. *)
Definition setHours (d : Date) (h : Z) : Date := d + (h - getHours d) * MS_PER_HOUR.
Definition setMinutes (d : Date) (m : Z) : Date := d + (m - getMinutes d) * MS_PER_MINUTE.
Definition setSeconds (d : Date) (s : Z) : Date := d + (s - getSeconds d) * MS_PER_SECOND.
Definition setMilliseconds (d : Date) (ms : Z) : Date := d + (ms - getMilliseconds d).

(** The three numbers of a string of the shape [dddd-dd-dd]. *)
Definition parse_ymd (s : string) : option (Z * Z * Z) :=
  match s with
  | String y1 (String y2 (String y3 (String y4 (String c1
    (String m1 (String m2 (String c2
    (String d1 (String d2 EmptyString))))))))) =>
      if Ascii.eqb c1 "-" && Ascii.eqb c2 "-" then
        match Str.digits (String y1 (String y2 (String y3 (String y4 EmptyString)))),
              Str.digits (String m1 (String m2 EmptyString)),
              Str.digits (String d1 (String d2 EmptyString)) with
        | Some y, Some m, Some d => Some (y, m, d)
        | _, _, _ => None
        end
      else None
  | _ => None
  end.

(** [parseISO] on the format the configuration schema admits,
    [YYYY-MM-DD]: local midnight of that day, or [None] for date-fns's
    Invalid Date (wrong shape, month or day out of the calendar). *)
Definition parseISO (s : string) : option Date :=
  match parse_ymd s with
  | Some (y, m, d) =>
      if (1 <=? m) && (m <=? 12) && (1 <=? d) && (d <=? days_in_month y m)
      then Some (days_from_civil y m d * MS_PER_DAY)
      else None
  | None => None
  end.

Definition isAfter (a b : Date) : bool := b <? a.

(** [eachDayOfInterval({start, end})] for [start <= end]: the midnights of
    the days from [start]'s to [end]'s, both included. *)
Definition eachDayOfInterval (start end_ : Date) : list Date :=
  map (fun i => (dayNumber start + Z.of_nat i) * MS_PER_DAY)
      (seq 0 (Z.to_nat (dayNumber end_ - dayNumber start + 1))).

(** [getFullYear]: the astronomical year, 0 for 1 BC. *)
Definition getFullYear (d : Date) : Z :=
  let '(y, _, _) := civil_from_days (dayNumber d) in y.

(** The year that the token [yyyy] prints: the year of the era, which is
    1 for the year 0 ([signedYear > 0 ? signedYear : 1 - signedYear]). *)
Definition eraYear (signedYear : Z) : Z :=
  if signedYear >? 0 then signedYear else 1 - signedYear.

Definition format_date (d : Date) : string :=
  let '(y, m, dd) := civil_from_days (dayNumber d) in
  Str.pad4 (eraYear y) ++ "-" ++ Str.pad2 m ++ "-" ++ Str.pad2 dd.

Definition format_time (d : Date) : string :=
  Str.pad2 (getHours d) ++ ":" ++ Str.pad2 (getMinutes d) ++ ":" ++ Str.pad2 (getSeconds d).

(** The format patterns the code uses. *)
Inductive Pattern :=
| P_yyyy_MM_dd | P_yyyy_MM_dd_HH_mm_ss | P_HH_mm_ss | P_yyyy | P_MM | P_dd.

Definition format (d : Date) (p : Pattern) : string :=
  let '(y, m, dd) := civil_from_days (dayNumber d) in
  match p with
  | P_yyyy_MM_dd => format_date d
  | P_yyyy_MM_dd_HH_mm_ss => format_date d ++ " " ++ format_time d
  | P_HH_mm_ss => format_time d
  | P_yyyy => Str.pad4 (eraYear y)
  | P_MM => Str.pad2 m
  | P_dd => Str.pad2 dd
  end.

End DateFns.

(** ** JavaScript numbers: rounding to binary64

    A JavaScript number is a binary64 floating-point number, and every
    arithmetic operation returns the nearest one to the exact result, the
    one with the even significand of two that are as near.  Here a finite
    number is the rational it stands for.  Numbers from [2 ^ 1024] on,
    where JavaScript has [Infinity], are left out: the estimate stays
    below the number of days times [commitsPerDay.min + commitsPerDay.max]. *)
Module Binary64.

(** [floor (log2 x)] for a positive [x]. *)
Definition exponent (x : Q) : Z :=
  let e0 := Z.log2 (Qnum x) - Z.log2 (Zpos (Qden x)) in
  if Qle_bool (2 ^ e0) x then e0 else e0 - 1.

(** The nearest integer, the even one of two that are as near. *)
Definition nearestEven (x : Q) : Z :=
  let f := Qfloor x in
  match (x - inject_Z f ?= 1 # 2)%Q with
  | Lt => f
  | Gt => f + 1
  | Eq => if Z.even f then f else f + 1
  end.

(** The nearest multiple of [2 ^ e]. *)
Definition roundAt (e : Z) (x : Q) : Q :=
  (inject_Z (nearestEven (x * 2 ^ (- e))) * 2 ^ e)%Q.

(** The least exponent of a number with a full significand. *)
Definition MIN_EXPONENT : Z := -1022.

(** A positive number keeps 53 significant bits, and below
    [2 ^ MIN_EXPONENT] the multiples of [2 ^ -1074]. *)
Definition roundPositive (x : Q) : Q :=
  roundAt (Z.max (exponent x) MIN_EXPONENT - 52) x.

Definition round (x : Q) : Q :=
  match (0 ?= x)%Q with
  | Lt => roundPositive x
  | Eq => 0%Q
  | Gt => (- roundPositive (- x))%Q
  end.

End Binary64.

(** ** The types of [src/types/index.ts] *)

Inductive ErrorCode :=
| NOT_A_GIT_REPO
| UNCOMMITTED_CHANGES
| INVALID_DATE_RANGE
| INVALID_CONFIG
| GIT_OPERATION_FAILED
| NETWORK_ERROR
| PERMISSION_DENIED
| USER_CANCELLED
| UNKNOWN.

Record AutoCommitError := mkError { message : string; code : ErrorCode }.

(** A call either returns or throws an [AutoCommitError]. *)
Inductive Result (A : Type) :=
| Ok (a : A)
| Throw (e : AutoCommitError).
Arguments Ok {A} a.
Arguments Throw {A} e.

(** [commitsPerDay: {min, max}] and [timeRange: {start, end}]: the fields
    are [cpd_min], [cpd_max], [tr_start] and [tr_end]. *)
Record CommitsPerDay := { cpd_min : Z; cpd_max : Z }.
Record TimeRange := { tr_start : string; tr_end : string }.

Record Config := {
  repoPath : string;
  startDate : string;
  endDate : string;
  commitsPerDay : CommitsPerDay;
  commitMessage : string;
  targetFile : string;
  skipDays : list Z;
  skipProbability : Q;
  timeRange : TimeRange;
  autoPush : bool;
  branch : option string
}.

(** [CommitPlan]: one planned commit; [plan_message] is its field
    [message]. *)
Record CommitPlan := {
  date : Date;
  time : string;
  plan_message : string;
  index : Z
}.

(** [GenerateResult]; [res_startDate] and [res_endDate] are its fields
    [startDate] and [endDate]. *)
Record GenerateResult := {
  success : bool;
  totalCommits : Z;
  res_startDate : string;
  res_endDate : string;
  duration : Z;
  errors : list string
}.

(** ** [Validator] *)

Module Validator.

Definition isValidDateFormat (dateStr : string) : bool :=
  match DateFns.parseISO dateStr with Some _ => true | None => false end.

(** [/^([01]\d|2[0-3]):([0-5]\d)$/] *)
Definition isValidTimeFormat (timeStr : string) : bool :=
  match timeStr with
  | String h1 (String h2 (String c (String m1 (String m2 EmptyString)))) =>
      match Str.digit h1, Str.digit h2, Str.digit m1, Str.digit m2 with
      | Some a, Some b, Some m, Some _ =>
          Ascii.eqb c ":" && ((a <=? 1) || ((a =? 2) && (b <=? 3))) && (m <=? 5)
      | _, _, _, _ => false
      end
  | _ => false
  end.

Definition isValidDateRange (startDate endDate : string) : bool :=
  if negb (isValidDateFormat startDate) || negb (isValidDateFormat endDate) then false
  else
    match DateFns.parseISO startDate, DateFns.parseISO endDate with
    | Some start, Some end_ => start <=? end_
    | _, _ => false
    end.

Definition isValidCommitsPerDay (min max : Z) : bool :=
  (min >=? 0) && (max >=? 1) && (min <=? max) && (max <=? 50).

Definition isValidProbability (prob : Q) : bool :=
  Qle_bool 0 prob && Qle_bool prob 1.

Definition isValidSkipDays (days : list Z) : bool :=
  forallb (fun day => (day >=? 0) && (day <=? 6)) days.

(** [validateConfig(config).valid] for a complete [Config]: no check
    contributes an error. *)
Definition validateConfig (config : Config) : bool :=
  isValidDateFormat (startDate config)
  && isValidDateFormat (endDate config)
  && isValidDateRange (startDate config) (endDate config)
  && isValidCommitsPerDay (cpd_min (commitsPerDay config)) (cpd_max (commitsPerDay config))
  && isValidTimeFormat (tr_start (timeRange config))
  && isValidTimeFormat (tr_end (timeRange config))
  && isValidProbability (skipProbability config)
  && isValidSkipDays (skipDays config).

End Validator.

(** ** [DateCalculator] *)

Module DateCalculator.
Import DateFns.

Record Time := { hours : Z; minutes : Z; seconds : Z }.

(** [timeStr.split(':')]: the pieces between the colons. *)
Fixpoint split_colon (cur : string) (s : string) : list string :=
  match s with
  | EmptyString => [cur]
  | String c s' =>
      if Ascii.eqb c ":" then cur :: split_colon EmptyString s'
      else split_colon (cur ++ String c EmptyString) s'
  end.

(** [const [hours, minutes] = timeStr.split(':').map(Number)]; a piece
    that is missing is [undefined] in JavaScript and 0 here, which the
    schema rules out. *)
Definition parseTime (timeStr : string) : Z * Z :=
  match map Str.Number (split_colon EmptyString timeStr) with
  | h :: m :: _ => (h, m)
  | h :: [] => (h, 0)
  | [] => (0, 0)
  end.

Definition startMinutesOf (config : Config) : Z :=
  let '(h, m) := parseTime (tr_start (timeRange config)) in h * 60 + m.

Definition endMinutesOf (config : Config) : Z :=
  let '(h, m) := parseTime (tr_end (timeRange config)) in h * 60 + m.

Definition validateDateRange (startDate endDate : string) : Result unit :=
  match parseISO startDate with
  | None => Throw (mkError ("Invalid start date: " ++ Str.quoted startDate) INVALID_DATE_RANGE)
  | Some start =>
      match parseISO endDate with
      | None => Throw (mkError ("Invalid end date: " ++ Str.quoted endDate) INVALID_DATE_RANGE)
      | Some end_ =>
          if isAfter start end_
          then Throw (mkError ("Start date (" ++ startDate
                                 ++ ") must be before or equal to end date ("
                                 ++ endDate ++ ")") INVALID_DATE_RANGE)
          else Ok tt
      end
  end.

Definition getDaysInRange (startDate endDate : string) (skipDays : list Z)
  : Result (list Date) :=
  match validateDateRange startDate endDate with
  | Throw e => Throw e
  | Ok _ =>
      match parseISO startDate, parseISO endDate with
      | Some start, Some end_ =>
          let allDays := eachDayOfInterval start end_ in
          Ok (filter (fun day => negb (existsb (Z.eqb (getDay day)) skipDays)) allDays)
      | _, _ => Ok []
      end
  end.

Definition formatCommitMessage (template : string) (date : Date) (index : Z) : string :=
  let s := Str.replace_all "{{date}}" (format date P_yyyy_MM_dd) template in
  let s := Str.replace_all "{{datetime}}" (format date P_yyyy_MM_dd_HH_mm_ss) s in
  let s := Str.replace_all "{{time}}" (format date P_HH_mm_ss) s in
  let s := Str.replace_all "{{index}}" (Str.of_Z (index + 1)) s in
  let s := Str.replace_all "{{year}}" (format date P_yyyy) s in
  let s := Str.replace_all "{{month}}" (format date P_MM) s in
  Str.replace_all "{{day}}" (format date P_dd) s.

(** *** The randomized part: a state monad over the position in the
    sequence of values [Math.random()] returns *)

Section Randomized.

(** [random n] is the value of the [n]-th call of [Math.random()]. *)
Variable random : nat -> Q.

Definition Rand (A : Type) : Type := nat -> A * nat.

Definition ret {A} (a : A) : Rand A := fun n => (a, n).

Definition bind {A B} (m : Rand A) (f : A -> Rand B) : Rand B :=
  fun n => let (a, n') := m n in f a n'.

Notation "x <- m ;; k" := (bind m (fun x => k))
  (at level 61, m at next level, right associativity).

Definition Math_random : Rand Q := fun n => (random n, S n).

Definition generateRandomTime (startTime endTime : string) : Rand Time :=
  let start := parseTime startTime in
  let end_ := parseTime endTime in
  let startMinutes := fst start * 60 + snd start in
  let endMinutes := fst end_ * 60 + snd end_ in
  r1 <- Math_random ;;
  let randomMinutes := Qfloor (r1 * inject_Z (endMinutes - startMinutes + 1)) + startMinutes in
  r2 <- Math_random ;;
  let randomSeconds := Qfloor (r2 * inject_Z 60) in
  ret {| hours := randomMinutes / 60;
         minutes := Z.rem randomMinutes 60;
         seconds := randomSeconds |}.

Definition getRandomCommitCount (min max : Z) : Rand Z :=
  r <- Math_random ;;
  ret (Qfloor (r * inject_Z (max - min + 1)) + min).

Definition shouldSkipDay (probability : Q) : Rand bool :=
  r <- Math_random ;;
  ret (negb (Qle_bool probability r)).

(** The state of the two loops of [generateCommitPlan]: [plan] and
    [commitIndex]. *)
Definition PlanState : Type := list CommitPlan * Z.

(** The body of the inner loop. *)
Definition planCommit (config : Config) (day : Date) (st : PlanState) : Rand PlanState :=
  let (plan, commitIndex) := st in
  time <- generateRandomTime (tr_start (timeRange config)) (tr_end (timeRange config)) ;;
  let commitDate := setHours day (hours time) in
  let commitDate := setMinutes commitDate (minutes time) in
  let commitDate := setSeconds commitDate (seconds time) in
  r <- Math_random ;;
  let commitDate := setMilliseconds commitDate (Qfloor (r * inject_Z 1000)) in
  let message := formatCommitMessage (commitMessage config) commitDate commitIndex in
  ret ((plan ++ [ {| date := commitDate;
                     time := format commitDate P_HH_mm_ss;
                     plan_message := message;
                     index := commitIndex |} ])%list,
       commitIndex + 1).

(** [for (let i = 0; i < commitCount; i++)]: [count] is the number of
    iterations left. *)
Fixpoint planDay (config : Config) (day : Date) (count : nat) (st : PlanState)
  : Rand PlanState :=
  match count with
  | O => ret st
  | S count' =>
      st' <- planCommit config day st ;;
      planDay config day count' st'
  end.

(** [for (const day of days)] *)
Fixpoint planDays (config : Config) (days : list Date) (st : PlanState)
  : Rand PlanState :=
  match days with
  | [] => ret st
  | day :: days' =>
      skip <- shouldSkipDay (skipProbability config) ;;
      if skip then planDays config days' st
      else
        commitCount <- getRandomCommitCount (cpd_min (commitsPerDay config))
                                            (cpd_max (commitsPerDay config)) ;;
        st' <- planDay config day (Z.to_nat commitCount) st ;;
        planDays config days' st'
  end.

(** [Array.prototype.sort(compareFn)]: the sort is stable (ECMAScript
    2019), so for a comparator that is a consistent order its result is
    the one of a stable insertion sort: an element goes before the first
    element that does not compare smaller. *)
Fixpoint sort_insert {A} (compareFn : A -> A -> Z) (x : A) (l : list A) : list A :=
  match l with
  | [] => [x]
  | y :: l' =>
      if compareFn x y <=? 0 then x :: y :: l'
      else y :: sort_insert compareFn x l'
  end.

Definition Array_sort {A} (compareFn : A -> A -> Z) (l : list A) : list A :=
  fold_right (sort_insert compareFn) [] l.

Definition generateCommitPlan (config : Config) : Rand (Result (list CommitPlan)) :=
  match getDaysInRange (startDate config) (endDate config) (skipDays config) with
  | Throw e => ret (Throw e)
  | Ok days =>
      st <- planDays config days ([], 0) ;;
      ret (Ok (Array_sort (fun a b => getTime (date a) - getTime (date b)) (fst st)))
  end.

End Randomized.

(** [estimateCommitCount]: [{min, max, expected}]. *)
Record Estimate := { est_min : Z; est_max : Z; est_expected : Z }.

(** The estimate with every product taken exactly;
    [Floating.estimateCommitCount], further down, rounds each operation
    as JavaScript does. *)
Definition estimateCommitCount (config : Config) : Result Estimate :=
  match getDaysInRange (startDate config) (endDate config) (skipDays config) with
  | Throw e => Throw e
  | Ok days =>
      let effectiveDays :=
        (inject_Z (Z.of_nat (List.length days)) * (1 - skipProbability config))%Q in
      Ok {| est_min := Qfloor (effectiveDays * inject_Z (cpd_min (commitsPerDay config)));
            est_max := Qfloor (effectiveDays * inject_Z (cpd_max (commitsPerDay config)));
            est_expected :=
              Qfloor (effectiveDays
                      * inject_Z (cpd_min (commitsPerDay config) + cpd_max (commitsPerDay config))
                      / inject_Z 2) |}
  end.

Record DateStats := { totalDays : Z; weekdays : Z; weekends : Z; activeDays : Z }.

Definition getDateStats (startDate endDate : string) (skipDays : list Z)
  : Result DateStats :=
  match getDaysInRange startDate endDate [] with
  | Throw e => Throw e
  | Ok allDays =>
      match getDaysInRange startDate endDate skipDays with
      | Throw e => Throw e
      | Ok activeDays_ =>
          let weekends_ :=
            Z.of_nat (List.length
              (filter (fun day => (getDay day =? 0) || (getDay day =? 6)) allDays)) in
          Ok {| totalDays := Z.of_nat (List.length allDays);
                weekdays := Z.of_nat (List.length allDays) - weekends_;
                weekends := weekends_;
                activeDays := Z.of_nat (List.length activeDays_) |}
      end
  end.

End DateCalculator.

(** ** The estimate with the rounding of JavaScript numbers *)

(** [estimateCommitCount] as JavaScript computes it: each operation on
    numbers returns the binary64 number nearest to its exact result.
    ([days.length], [commitsPerDay.min], [commitsPerDay.max] and their sum
    are integers far below [2 ^ 53], which are binary64 numbers.) *)
Module Floating.
Import DateCalculator Binary64.

Definition estimateCommitCount (config : Config) : Result Estimate :=
  match getDaysInRange (startDate config) (endDate config) (skipDays config) with
  | Throw e => Throw e
  | Ok days =>
      let effectiveDays :=
        round (inject_Z (Z.of_nat (List.length days))
               * round (1 - skipProbability config))%Q in
      Ok {| est_min :=
              Qfloor (round (effectiveDays * inject_Z (cpd_min (commitsPerDay config))));
            est_max :=
              Qfloor (round (effectiveDays * inject_Z (cpd_max (commitsPerDay config))));
            est_expected :=
              Qfloor (round (round (effectiveDays
                                    * inject_Z (cpd_min (commitsPerDay config)
                                                + cpd_max (commitsPerDay config)))
                             / inject_Z 2)) |}
  end.

End Floating.

(** ** Time zones

    The methods of a JavaScript [Date] work on an instant, a number of
    milliseconds since the epoch, and read and write its fields on the
    local clock of the zone.  [offsetAt zone d] is what the zone adds to
    the instant [d] to give its local time ([LocalTime(t)] of ECMAScript);
    [offsetOfLocal zone l] is the offset with which the local time [l] is
    turned into an instant ([UTC(t)]): where clocks are turned forward and
    [l] does not exist, and where they are turned back and [l] comes
    twice, it is the offset from before the transition. *)
Record Zone := {
  offsetAt : Z -> Z;
  offsetOfLocal : Z -> Z
}.

(** The date-fns functions and the plan builder on instants, in a zone.
    The functions of [DateFns] work on the local clock; here each one
    reads the local time of its argument and turns its result back into
    an instant. *)
Module Zoned.
Import Calendar DateCalculator.

Section InZone.

Variable zone : Zone.

Definition localTime (d : Date) : Z := d + offsetAt zone d.
Definition instantOf (l : Z) : Date := l - offsetOfLocal zone l.

Definition getTime (d : Date) : Z := d.

Definition getDay (d : Date) : Z := DateFns.getDay (localTime d).

Definition setHours (d : Date) (h : Z) : Date :=
  instantOf (DateFns.setHours (localTime d) h).
Definition setMinutes (d : Date) (m : Z) : Date :=
  instantOf (DateFns.setMinutes (localTime d) m).
Definition setSeconds (d : Date) (s : Z) : Date :=
  instantOf (DateFns.setSeconds (localTime d) s).
Definition setMilliseconds (d : Date) (ms : Z) : Date :=
  instantOf (DateFns.setMilliseconds (localTime d) ms).

(** [parseISO]: the instant of the local midnight of the day. *)
Definition parseISO (s : string) : option Date :=
  option_map instantOf (DateFns.parseISO s).

Definition isAfter (a b : Date) : bool := b <? a.

(** [eachDayOfInterval]: the instants of the local midnights of the days
    from [start]'s to [end]'s. *)
Definition eachDayOfInterval (start end_ : Date) : list Date :=
  map instantOf (DateFns.eachDayOfInterval (localTime start) (localTime end_)).

Definition format (d : Date) (p : DateFns.Pattern) : string :=
  DateFns.format (localTime d) p.

Definition validateDateRange (startDate endDate : string) : Result unit :=
  match parseISO startDate with
  | None => Throw (mkError ("Invalid start date: " ++ Str.quoted startDate) INVALID_DATE_RANGE)
  | Some start =>
      match parseISO endDate with
      | None => Throw (mkError ("Invalid end date: " ++ Str.quoted endDate) INVALID_DATE_RANGE)
      | Some end_ =>
          if isAfter start end_
          then Throw (mkError ("Start date (" ++ startDate
                                 ++ ") must be before or equal to end date ("
                                 ++ endDate ++ ")") INVALID_DATE_RANGE)
          else Ok tt
      end
  end.

Definition getDaysInRange (startDate endDate : string) (skipDays : list Z)
  : Result (list Date) :=
  match validateDateRange startDate endDate with
  | Throw e => Throw e
  | Ok _ =>
      match parseISO startDate, parseISO endDate with
      | Some start, Some end_ =>
          let allDays := eachDayOfInterval start end_ in
          Ok (filter (fun day => negb (existsb (Z.eqb (getDay day)) skipDays)) allDays)
      | _, _ => Ok []
      end
  end.

(** [formatCommitMessage] reads its date through [format] only. *)
Definition formatCommitMessage (template : string) (date : Date) (index : Z) : string :=
  DateCalculator.formatCommitMessage template (localTime date) index.

Variable random : nat -> Q.

Notation "x <- m ;; k" := (bind m (fun x => k))
  (at level 61, m at next level, right associativity).

(** The body of the inner loop of [generateCommitPlan]. *)
Definition planCommit (config : Config) (day : Date) (st : PlanState) : Rand PlanState :=
  let (plan, commitIndex) := st in
  time <- generateRandomTime random (tr_start (timeRange config))
                             (tr_end (timeRange config)) ;;
  let commitDate := setHours day (hours time) in
  let commitDate := setMinutes commitDate (minutes time) in
  let commitDate := setSeconds commitDate (seconds time) in
  r <- Math_random random ;;
  let commitDate := setMilliseconds commitDate (Qfloor (r * inject_Z 1000)) in
  let message := formatCommitMessage (commitMessage config) commitDate commitIndex in
  ret ((plan ++ [ {| date := commitDate;
                     time := format commitDate DateFns.P_HH_mm_ss;
                     plan_message := message;
                     index := commitIndex |} ])%list,
       commitIndex + 1).

Fixpoint planDay (config : Config) (day : Date) (count : nat) (st : PlanState)
  : Rand PlanState :=
  match count with
  | O => ret st
  | S count' =>
      st' <- planCommit config day st ;;
      planDay config day count' st'
  end.

Fixpoint planDays (config : Config) (days : list Date) (st : PlanState)
  : Rand PlanState :=
  match days with
  | [] => ret st
  | day :: days' =>
      skip <- shouldSkipDay random (skipProbability config) ;;
      if skip then planDays config days' st
      else
        commitCount <- getRandomCommitCount random (cpd_min (commitsPerDay config))
                                            (cpd_max (commitsPerDay config)) ;;
        st' <- planDay config day (Z.to_nat commitCount) st ;;
        planDays config days' st'
  end.

Definition generateCommitPlan (config : Config) : Rand (Result (list CommitPlan)) :=
  match getDaysInRange (startDate config) (endDate config) (skipDays config) with
  | Throw e => ret (Throw e)
  | Ok days =>
      st <- planDays config days ([], 0) ;;
      ret (Ok (Array_sort (fun a b => getTime (date a) - getTime (date b)) (fst st)))
  end.

End InZone.

End Zoned.

(** ** What the engine does to the outside world

    Every call the engine makes on the repository or on the progress
    callback is recorded, in order, with what the repository answered. *)

Inductive Event :=
| EvValidateRepo
| EvCreateCommit (msg : string) (d : Date) (filePath content : string) (ok : bool)
| EvReset (count : Z) (ok : bool)
| EvPush (branch : option string) (ok : bool)
| EvProgress (current total : Z) (msg : string).

Record RepoStatus := {
  isRepo : bool;
  currentBranch : option string;
  hasUncommittedChanges : bool;
  remoteUrl : option string;
  isConnected : bool
}.

(** ** [GitService]

    The git commands themselves are outside the program: each operation
    takes what git answered, [inl] the text of the failure or [inr] the
    value returned. *)

Module GitService.

Definition validateRepo (repoPath : string) (status : Result RepoStatus)
    (allowUncommittedChanges : bool) : Result unit :=
  match status with
  | Throw e => Throw e
  | Ok status =>
      if negb (isRepo status)
      then Throw (mkError (Str.quoted repoPath ++ " is not a Git repository") NOT_A_GIT_REPO)
      else if negb allowUncommittedChanges && hasUncommittedChanges status
      then Throw (mkError "Repository has uncommitted changes" UNCOMMITTED_CHANGES)
      else Ok tt
  end.

Definition createCommit (git : string + string) : Result string :=
  match git with
  | inr hash => Ok (substring 0 7 hash)
  | inl error => Throw (mkError ("Failed to create commit: " ++ error) GIT_OPERATION_FAILED)
  end.

(** [rollback(count)]: the events are the git commands issued. *)
Definition rollback (git : string + unit) (count : Z) : list Event * Result unit :=
  if count <=? 0
  then ([], Throw (mkError "Rollback count must be greater than 0" INVALID_CONFIG))
  else
    match git with
    | inr _ => ([EvReset count true], Ok tt)
    | inl error =>
        ([EvReset count false],
         Throw (mkError ("Failed to rollback " ++ Str.of_Z count ++ " commits: " ++ error)
                        GIT_OPERATION_FAILED))
    end.

Definition push (git : string + unit) : Result unit :=
  match git with
  | inr _ => Ok tt
  | inl error => Throw (mkError ("Failed to push to remote: " ++ error) NETWORK_ERROR)
  end.

End GitService.

(** ** [CommitGenerator] *)

Module CommitGenerator.
Import DateFns.

(** The two mutable fields of the class. *)
Record State := { cancelled : bool; generatedCommits : Z }.

(** [new CommitGenerator(...)] *)
Definition initial : State := {| cancelled := false; generatedCommits := 0 |}.

Definition cancel (g : State) : State :=
  {| cancelled := true; generatedCommits := generatedCommits g |}.

Definition isCancelled (g : State) : bool := cancelled g.

Definition getGeneratedCommitsCount (g : State) : Z := generatedCommits g.

(** The surroundings of one [generate] call: the values [Math.random()]
    returns, the answers of the repository, the two readings of
    [Date.now()], and the calls of [cancel()] made from outside while the
    engine awaits: [cancelDuring 0] during [validateRepo], and
    [cancelDuring (S i)] during the [createCommit] of plan position [i].
    JavaScript runs a signal handler only while the engine awaits, and
    [cancel()] is the only method taken to be called from one.  No check
    of the flag follows the await of [push], which has no entry here. *)
Record Env := {
  random : nat -> Q;
  repoStatus : Result RepoStatus;
  commitAnswer : nat -> string + string;
  pushAnswer : string + unit;
  cancelDuring : nat -> bool;
  startTime : Z;
  endTime : Z
}.

(** An await point: a pending [cancel()] runs before the engine resumes. *)
Definition await (interrupted : bool) (g : State) : State :=
  if interrupted then cancel g else g.

(** [rollback(count?)]: [count ?? this.generatedCommits]. *)
Definition rollback (git : string + unit) (count : option Z) (g : State)
  : State * list Event * Result unit :=
  let rollbackCount := match count with Some c => c | None => generatedCommits g end in
  if rollbackCount >? 0 then
    match GitService.rollback git rollbackCount with
    | (evs, Ok _) => ({| cancelled := cancelled g; generatedCommits := 0 |}, evs, Ok tt)
    | (evs, Throw e) => (g, evs, Throw e)
    end
  else (g, [], Ok tt).

Definition generatePlan (env : Env) (config : Config) : Result (list CommitPlan) :=
  fst (DateCalculator.generateCommitPlan (random env) config 0%nat).

Definition generateFileContent (commit : CommitPlan) : string :=
  "[" ++ format (date commit) P_yyyy_MM_dd_HH_mm_ss ++ "] Commit #"
      ++ Str.of_Z (index commit + 1) ++ ": " ++ plan_message commit.

(** The state of a run: the fields of the class, the local [errors], and
    the record of the calls made so far. *)
Record Run := { gen : State; errs : list string; log : list Event }.

(** [if (onProgress) onProgress(...)]: the callback is taken to return
    normally. *)
Definition emit (onProgress : bool) (ev : Event) (l : list Event) : list Event :=
  if onProgress then (l ++ [ev])%list else l.

(** One iteration of the loop past the cancellation check: the [try] and
    its [catch]. *)
Definition executeCommit (env : Env) (config : Config) (onProgress : bool)
    (total : Z) (i : nat) (commit : CommitPlan) (r : Run) : Run :=
  let content := generateFileContent commit in
  let answer := GitService.createCommit (commitAnswer env i) in
  let g := await (cancelDuring env (S i)) (gen r) in
  match answer with
  | Ok _ =>
      {| gen := {| cancelled := cancelled g; generatedCommits := generatedCommits g + 1 |};
         errs := errs r;
         log := emit onProgress
                  (EvProgress (Z.of_nat i + 1) total
                     ("Committed: " ++ plan_message commit ++ " ("
                        ++ format (date commit) P_yyyy_MM_dd_HH_mm_ss ++ ")"))
                  (log r ++ [EvCreateCommit (plan_message commit) (date commit)
                               (targetFile config) content true]) |}
  | Throw error =>
      let errorMsg := message error in
      {| gen := g;
         errs := errs r ++ ["Failed to create commit " ++ Str.of_Z (Z.of_nat i + 1)
                              ++ ": " ++ errorMsg];
         log := emit onProgress
                  (EvProgress (Z.of_nat i + 1) total ("Error: " ++ errorMsg))
                  (log r ++ [EvCreateCommit (plan_message commit) (date commit)
                               (targetFile config) content false]) |}
  end.

(** [for (let i = 0; i < plan.length; i++)], from position [i] with the
    entries [rest] still to do; [Some e] when the loop throws [e]. *)
Fixpoint executeCommits (env : Env) (config : Config) (onProgress : bool)
    (total : Z) (i : nat) (rest : list CommitPlan) (r : Run)
  : Run * option AutoCommitError :=
  match rest with
  | [] => (r, None)
  | commit :: rest' =>
      if cancelled (gen r)
      then (r, Some (mkError ("Operation cancelled after "
                                ++ Str.of_Z (generatedCommits (gen r)) ++ " commits")
                             USER_CANCELLED))
      else executeCommits env config onProgress total (S i) rest'
             (executeCommit env config onProgress total i commit r)
  end.

Definition NO_COMMITS_NOTE : string :=
  "No commits to generate based on the configuration".

(** [generate(config, onProgress?)]; [onProgress] tells whether a
    callback was passed.  It starts with the two assignments
    [this.cancelled = false] and [this.generatedCommits = 0].  The result
    is the state of the object when the call ends, the calls it made, and
    what it returned or threw. *)
Definition generate (env : Env) (config : Config) (onProgress : bool) (g : State)
  : State * list Event * Result GenerateResult :=
  let g := {| cancelled := false; generatedCommits := generatedCommits g |} in
  let g := {| cancelled := cancelled g; generatedCommits := 0 |} in
  let g := await (cancelDuring env 0) g in
  match GitService.validateRepo (repoPath config) (repoStatus env) true with
  | Throw e => (g, [EvValidateRepo], Throw e)
  | Ok _ =>
      match generatePlan env config with
      | Throw e => (g, [EvValidateRepo], Throw e)
      | Ok [] =>
          (g, [EvValidateRepo],
           Ok {| success := true;
                 totalCommits := 0;
                 res_startDate := startDate config;
                 res_endDate := endDate config;
                 duration := endTime env - startTime env;
                 errors := [NO_COMMITS_NOTE] |})
      | Ok plan =>
          match executeCommits env config onProgress (Z.of_nat (List.length plan)) 0 plan
                  {| gen := g; errs := []; log := [EvValidateRepo] |} with
          | (r, Some e) => (gen r, log r, Throw e)
          | (r, None) =>
              let r :=
                if autoPush config && (generatedCommits (gen r) >? 0) then
                  match GitService.push (pushAnswer env) with
                  | Ok _ =>
                      {| gen := gen r; errs := errs r;
                         log := log r ++ [EvPush (branch config) true] |}
                  | Throw error =>
                      {| gen := gen r;
                         errs := errs r ++ ["Failed to push: " ++ message error];
                         log := log r ++ [EvPush (branch config) false] |}
                  end
                else r in
              (gen r, log r,
               Ok {| success := (List.length (errs r) =? 0)%nat;
                     totalCommits := generatedCommits (gen r);
                     res_startDate := startDate config;
                     res_endDate := endDate config;
                     duration := endTime env - startTime env;
                     errors := errs r |})
          end
      end
  end.

End CommitGenerator.

(** * More of the program *)

(** Whether git carried the command out. *)
Definition succeeded {A B : Type} (answer : A + B) : bool :=
  match answer with inr _ => true | inl _ => false end.

(** ** [ConfigSchema]: what the schema of [src/types/index.ts] lets
    through, for a configuration whose fields have the types of [Config]
    (integral [commitsPerDay] and [skipDays]) *)

Module ConfigSchema.

Definition isDigit (c : ascii) : bool :=
  match Str.digit c with Some _ => true | None => false end.

(** [/^\d{4}-\d{2}-\d{2}$/] *)
Definition dateShape (s : string) : bool :=
  match s with
  | String y1 (String y2 (String y3 (String y4 (String c1
    (String m1 (String m2 (String c2
    (String d1 (String d2 EmptyString))))))))) =>
      isDigit y1 && isDigit y2 && isDigit y3 && isDigit y4 && Ascii.eqb c1 "-"
      && isDigit m1 && isDigit m2 && Ascii.eqb c2 "-" && isDigit d1 && isDigit d2
  | _ => false
  end.

(** [/^\d{2}:\d{2}$/] *)
Definition timeShape (s : string) : bool :=
  match s with
  | String h1 (String h2 (String c (String m1 (String m2 EmptyString)))) =>
      isDigit h1 && isDigit h2 && Ascii.eqb c ":" && isDigit m1 && isDigit m2
  | _ => false
  end.

(** [ConfigSchema.parse(config)] succeeds. *)
Definition accepts (config : Config) : bool :=
  dateShape (startDate config)
  && dateShape (endDate config)
  && (0 <=? cpd_min (commitsPerDay config)) && (cpd_min (commitsPerDay config) <=? 50)
  && (1 <=? cpd_max (commitsPerDay config)) && (cpd_max (commitsPerDay config) <=? 50)
  && forallb (fun day => (0 <=? day) && (day <=? 6)) (skipDays config)
  && Qle_bool 0 (skipProbability config) && Qle_bool (skipProbability config) 1
  && timeShape (tr_start (timeRange config))
  && timeShape (tr_end (timeRange config)).

End ConfigSchema.

(** ** [Validator.validateConfig] with its messages, and
    [Validator.preflightChecks] *)

Module ValidatorReport.

Record Validation := { valid : bool; v_errors : list string }.

(** [errors.push(message)] *)
Definition push (errors : list string) (message : string) : list string :=
  (errors ++ [message])%list.

(** [validateConfig(config)] for a configuration that has every field;
    an empty date string is a missing one ([!config.startDate]). *)
Definition validateConfig (config : Config) : Validation :=
  let errors : list string := [] in
  let errors :=
    if (startDate config =? EmptyString)%string
    then push errors "Start date is required"
    else if negb (Validator.isValidDateFormat (startDate config))
    then push errors ("Invalid start date format: " ++ Str.quoted (startDate config)
                      ++ ". Use YYYY-MM-DD format.")
    else errors in
  let errors :=
    if (endDate config =? EmptyString)%string
    then push errors "End date is required"
    else if negb (Validator.isValidDateFormat (endDate config))
    then push errors ("Invalid end date format: " ++ Str.quoted (endDate config)
                      ++ ". Use YYYY-MM-DD format.")
    else errors in
  let errors :=
    if negb (startDate config =? EmptyString)%string && negb (endDate config =? EmptyString)%string
       && negb (Validator.isValidDateRange (startDate config) (endDate config))
    then push errors "Start date must be before or equal to end date"
    else errors in
  let errors :=
    if negb (Validator.isValidCommitsPerDay (cpd_min (commitsPerDay config))
                                            (cpd_max (commitsPerDay config)))
    then push errors
           "Commits per day must be integers between 0-50, and min must be <= max"
    else errors in
  let errors :=
    if negb (Validator.isValidTimeFormat (tr_start (timeRange config)))
    then push errors ("Invalid start time format: " ++ Str.quoted (tr_start (timeRange config))
                      ++ ". Use HH:MM format.")
    else errors in
  let errors :=
    if negb (Validator.isValidTimeFormat (tr_end (timeRange config)))
    then push errors ("Invalid end time format: " ++ Str.quoted (tr_end (timeRange config))
                      ++ ". Use HH:MM format.")
    else errors in
  let errors :=
    if negb (Validator.isValidProbability (skipProbability config))
    then push errors "Skip probability must be a number between 0 and 1"
    else errors in
  let errors :=
    if negb (Validator.isValidSkipDays (skipDays config))
    then push errors "Skip days must be integers between 0 (Sunday) and 6 (Saturday)"
    else errors in
  {| valid := (List.length errors =? 0)%nat; v_errors := errors |}.

(** [isDateInFuture(dateStr)]; [now] is the reading of the clock. *)
Definition isDateInFuture (now : Date) (dateStr : string) : bool :=
  match DateFns.parseISO dateStr with
  | Some d => now <? d
  | None => false
  end.

Record Preflight := { passed : bool; warnings : list string; p_errors : list string }.

(** [preflightChecks(repoPath, config)]: [isGitRepo] and [status] are
    what [isGitRepo()] and [getRepoStatus()] answer. *)
Definition preflightChecks (isGitRepo : bool) (status : Result RepoStatus) (now : Date)
    (repoPath : string) (config : Config) : Result Preflight :=
  if negb isGitRepo then
    Ok {| passed := false; warnings := [];
          p_errors := [Str.quoted repoPath ++ " is not a Git repository"] |}
  else
    match status with
    | Throw e => Throw e
    | Ok status =>
        let warnings : list string := [] in
        let warnings :=
          if hasUncommittedChanges status
          then push warnings "Repository has uncommitted changes. They will be preserved."
          else warnings in
        let warnings :=
          match remoteUrl status with
          | None => push warnings "No remote configured. Commits will only be local."
          | Some _ =>
              if negb (isConnected status)
              then push warnings "Cannot connect to remote. Push may fail."
              else warnings
          end in
        let warnings :=
          if isDateInFuture now (endDate config)
          then push warnings
                 "End date is in the future. Future-dated commits may look suspicious."
          else warnings in
        let errors := v_errors (validateConfig config) in
        Ok {| passed := (List.length errors =? 0)%nat;
              warnings := warnings;
              p_errors := errors |}
    end.

End ValidatorReport.

(** ** The [rollback] command of [src/commands/rollback.ts] *)

Module RollbackCommand.





(** What the command finds and is told: the repository's answers, the
    number typed at the prompt when no count is given (an answer that is
    not a number is not represented), and the answer to the
    confirmation. *)
Record Env := {
  repoStatus : Result RepoStatus;
  recentCommits : list (string * string * string);
  commitCount : Z;
  promptedCount : Z;
  confirmed : bool;
  resetAnswer : string + unit
}.


End RollbackCommand.

(** ** The dry run of the [generate] command, [src/commands/generate.ts] *)

Module GenerateCommand.
Import DateFns.

(** A line of the listing: a commit with its position counted from 1, or
    the number of commits left out. *)
Inductive Line :=
| Entry (position : Z) (stamp message : string)
| More (count : Z).

(** [for (let i = from; i < to; i++)] printing [plan[i]]; [None] when
    [plan[i]] is undefined, where reading [commit.date] throws. *)
Fixpoint showRange (plan : list CommitPlan) (from count : nat) : option (list Line) :=
  match count with
  | O => Some []
  | S count' =>
      match nth_error plan from with
      | Some commit =>
          option_map
            (cons (Entry (Z.of_nat from + 1)
                         (format (date commit) P_yyyy_MM_dd_HH_mm_ss)
                         (plan_message commit)))
            (showRange plan (S from) count')
      | None => None
      end
  end.

(** The listing of [--dry-run]: the first ten commits and, of a plan of
    more than fifteen, the last five. *)
Definition dryRun (plan : list CommitPlan) : option (list Line) :=
  let len := List.length plan in
  let showCount := Nat.min 10 len in
  match showRange plan 0 showCount with
  | None => None
  | Some first =>
      if (15 <? len)%nat then
        match showRange plan (len - 5) (len - (len - 5)) with
        | Some last => Some (first ++ More (Z.of_nat len - 15) :: last)%list
        | None => None
        end
      else if (showCount <? len)%nat then
        match showRange plan showCount (len - showCount) with
        | Some rest => Some (first ++ rest)%list
        | None => None
        end
      else Some first
  end.

End GenerateCommand.

(** * The vocabulary of the statements *)

(** ** Plans *)

Import DateFns Calendar DateCalculator.

(** A value of [Math.random()]: in [0, 1). *)
Definition unit_interval (r : Q) : Prop := (0 <= r)%Q /\ (r < 1)%Q.

Definition unit_source (random : nat -> Q) : Prop := forall n, unit_interval (random n).

(** A configuration that passes [Validator.validateConfig], as the
    command requires before it plans, and whose [timeRange] has its
    start no later than its end (the data model asks for it; the
    validator does not check it). *)
Definition valid_config (config : Config) : Prop :=
  Validator.validateConfig config = true
  /\ startMinutesOf config <= endMinutesOf config.

(** The order the plan is to be in: by timestamp, and by [index] among
    equal timestamps. *)
Definition plan_before (a b : CommitPlan) : Prop :=
  getTime (date a) < getTime (date b)
  \/ (getTime (date a) = getTime (date b) /\ index a < index b).

Definition index_lt (a b : CommitPlan) : Prop := index a < index b.

(** The comparator [generateCommitPlan] passes to [sort]. *)
Definition by_date (a b : CommitPlan) : Z := getTime (date a) - getTime (date b).

(** The entries are generated in the order of their [index], all below
    the running [commitIndex]. *)
Definition numbered (st : PlanState) : Prop :=
  StronglySorted index_lt (fst st) /\ Forall (fun e => index e < snd st) (fst st).

(** The calendar day of the entry is one of the days from [startDate] to
    [endDate]. *)
Definition day_in_range (config : Config) (e : CommitPlan) : Prop :=
  exists s t, parseISO (startDate config) = Some s
              /\ parseISO (endDate config) = Some t
              /\ dayNumber s <= dayNumber (date e) <= dayNumber t.

Definition weekday_allowed (config : Config) (e : CommitPlan) : Prop :=
  ~ In (getDay (date e)) (skipDays config).

(** The time of day, to the millisecond, between the two ends of
    [timeRange] taken as [HH:MM:00.000]. *)
Definition time_in_window (config : Config) (e : CommitPlan) : Prop :=
  startMinutesOf config * MS_PER_MINUTE <= timeOfDay (date e)
  <= endMinutesOf config * MS_PER_MINUTE.

(** The hour and minute between the two ends of [timeRange]: the time of
    day may pass [timeRange.end] by the drawn seconds and milliseconds,
    and stays within the minute of [timeRange.end]. *)
Definition minute_in_window (config : Config) (e : CommitPlan) : Prop :=
  startMinutesOf config * MS_PER_MINUTE <= timeOfDay (date e)
  < (endMinutesOf config + 1) * MS_PER_MINUTE.

(** The number of calendar days from the day of [s] to the day of [t],
    both included. *)
Definition calendarDays (s t : Date) : Z := dayNumber t - dayNumber s + 1.

(** The zone keeps one offset, [off], for the local times from [a] up to
    [b], and for the instants of these local times. *)
Definition steady (zone : Zone) (off a b : Z) : Prop :=
  (forall l, a <= l < b -> offsetOfLocal zone l = off)
  /\ (forall d, a <= d + off < b -> offsetAt zone d = off).

(** No transition of the zone falls on the days from [startDate] to
    [endDate]: the offset is the same from the midnight that begins the
    first day to the midnight that ends the last. *)
Definition steadyOver (zone : Zone) (config : Config) : Prop :=
  exists off s t, parseISO (startDate config) = Some s
                  /\ parseISO (endDate config) = Some t
                  /\ steady zone off s (t + MS_PER_DAY).

(** The entry with its instant read on the local clock of the zone. *)
Definition onLocalClock (zone : Zone) (e : CommitPlan) : CommitPlan :=
  {| date := Zoned.localTime zone (date e);
     time := time e;
     plan_message := plan_message e;
     index := index e |}.

(** The entry planned on the local clock, as the instant it is with the
    offset [off]. *)
Definition atOffset (off : Z) (e : CommitPlan) : CommitPlan :=
  {| date := date e - off;
     time := time e;
     plan_message := plan_message e;
     index := index e |}.

(** The state of the loops in the zone against the one on the local
    clock: the same entries, each at its instant, the same index and the
    same position in the values of [Math.random()]. *)
Definition statesAgree (off : Z) (zoned civil : PlanState * nat) : Prop :=
  zoned = ((map (atOffset off) (fst (fst civil)), snd (fst civil)), snd civil).

(** ** Runs of the engine *)

Import CommitGenerator.

Definition isCommitCall (ev : Event) : bool :=
  match ev with EvCreateCommit _ _ _ _ _ => true | _ => false end.

Definition isCommitted (ev : Event) : bool :=
  match ev with EvCreateCommit _ _ _ _ ok => ok | _ => false end.

Definition isReset (ev : Event) : bool :=
  match ev with EvReset _ _ => true | _ => false end.

Definition isPush (ev : Event) : bool :=
  match ev with EvPush _ _ => true | _ => false end.

(** The number of [createCommit] calls made, and of those that
    succeeded. *)
Definition attempted (l : list Event) : nat := List.length (filter isCommitCall l).
Definition applied (l : list Event) : Z := Z.of_nat (List.length (filter isCommitted l)).

(** The first two arguments of the calls of the progress callback. *)
Definition progressCalls (l : list Event) : list (Z * Z) :=
  flat_map (fun ev => match ev with
                      | EvProgress current total _ => [(current, total)]
                      | _ => []
                      end) l.

(** Every call of the progress callback that follows a successful
    [createCommit] has, as its first argument, the number of commits that
    have succeeded so far ([count]). *)
Fixpoint reportsApplied (count : Z) (afterSuccess : bool) (l : list Event) : bool :=
  match l with
  | [] => true
  | EvCreateCommit _ _ _ _ ok :: l' =>
      reportsApplied (if ok then count + 1 else count) ok l'
  | EvProgress current _ _ :: l' =>
      (if afterSuccess then current =? count else true) && reportsApplied count false l'
  | _ :: l' => reportsApplied count false l'
  end.

(** What the repository answers at plan position [i]. *)
Definition succeeds (env : Env) (i : nat) : bool :=
  match commitAnswer env i with inr _ => true | inl _ => false end.

(** The number of positions among [i .. i+len-1] whose commit succeeds. *)
Definition successes (env : Env) (i len : nat) : Z :=
  Z.of_nat (List.length (filter (succeeds env) (seq i len))).

(** The failure descriptions of the positions [i .. i+len-1], in order. *)
Definition failures (env : Env) (i len : nat) : list string :=
  flat_map (fun j => match GitService.createCommit (commitAnswer env j) with
                     | Throw error =>
                         ["Failed to create commit " ++ Str.of_Z (Z.of_nat j + 1)
                            ++ ": " ++ message error]
                     | Ok _ => []
                     end) (seq i len).

(** The iterations of the loop one after the other, without the
    cancellation check. *)
Fixpoint iterate (env : Env) (config : Config) (onProgress : bool) (total : Z)
    (i : nat) (entries : list CommitPlan) (r : Run) : Run :=
  match entries with
  | [] => r
  | commit :: entries' =>
      iterate env config onProgress total (S i) entries'
        (executeCommit env config onProgress total i commit r)
  end.

(** The calls one iteration makes, and those of consecutive iterations. *)
Definition stepEvents (env : Env) (config : Config) (onProgress : bool) (total : Z)
    (i : nat) (commit : CommitPlan) : list Event :=
  log (executeCommit env config onProgress total i commit
         {| gen := initial; errs := []; log := [] |}).

Fixpoint traceOf (env : Env) (config : Config) (onProgress : bool) (total : Z)
    (i : nat) (entries : list CommitPlan) : list Event :=
  match entries with
  | [] => []
  | commit :: entries' =>
      (stepEvents env config onProgress total i commit
         ++ traceOf env config onProgress total (S i) entries')%list
  end.

(** [validateRepo(true)] passes. *)
Definition repoUsable (env : Env) (config : Config) : Prop :=
  GitService.validateRepo (repoPath config) (repoStatus env) true = Ok tt.

(** No [cancel()] arrives during the run. *)
Definition quiet (env : Env) : Prop := forall j, cancelDuring env j = false.

(** The state of the run when the loop starts. *)
Definition loopStart (env : Env) : Run :=
  {| gen := await (cancelDuring env 0) initial; errs := []; log := [EvValidateRepo] |}.

(** A [createCommit] call that failed. *)
Definition isFailedCommit (ev : Event) : bool :=
  match ev with EvCreateCommit _ _ _ _ ok => negb ok | _ => false end.

(** A call the loop makes: [createCommit] or the progress callback. *)
Definition isLoopCall (ev : Event) : bool :=
  match ev with
  | EvCreateCommit _ _ _ _ _ | EvProgress _ _ _ => true
  | _ => false
  end.

(** ** Concrete configurations and surroundings *)

Module Demo.

(** Monday 2024-01-01 to Sunday 2024-01-07 without the weekend, one
    commit a day between 09:00 and 18:00. *)
Definition weekConfig : Config :=
  {| repoPath := ".";
     startDate := "2024-01-01";
     endDate := "2024-01-07";
     commitsPerDay := {| cpd_min := 1; cpd_max := 1 |};
     commitMessage := "commit #{{index}}";
     targetFile := ".auto-commit-log";
     skipDays := [0; 6];
     skipProbability := 0%Q;
     timeRange := {| tr_start := "09:00"; tr_end := "18:00" |};
     autoPush := false;
     branch := None |}.

(** Ten days, every day, two commits a day. *)
Definition tenDaysConfig : Config :=
  {| repoPath := ".";
     startDate := "2024-01-01";
     endDate := "2024-01-10";
     commitsPerDay := {| cpd_min := 2; cpd_max := 2 |};
     commitMessage := "auto commit: {{date}}";
     targetFile := ".auto-commit-log";
     skipDays := [];
     skipProbability := 0%Q;
     timeRange := {| tr_start := "09:00"; tr_end := "18:00" |};
     autoPush := false;
     branch := None |}.

(** One day, three commits. *)
Definition oneDayConfig : Config :=
  {| repoPath := ".";
     startDate := "2024-06-15";
     endDate := "2024-06-15";
     commitsPerDay := {| cpd_min := 3; cpd_max := 3 |};
     commitMessage := "{{time}} #{{index}}";
     targetFile := ".auto-commit-log";
     skipDays := [];
     skipProbability := 0%Q;
     timeRange := {| tr_start := "09:00"; tr_end := "18:00" |};
     autoPush := false;
     branch := None |}.

(** Every day is skipped: [Math.random() < 1] always holds. *)
Definition skipAllConfig : Config :=
  {| repoPath := ".";
     startDate := "2024-01-01";
     endDate := "2024-01-07";
     commitsPerDay := {| cpd_min := 1; cpd_max := 5 |};
     commitMessage := "auto commit: {{date}}";
     targetFile := ".auto-commit-log";
     skipDays := [];
     skipProbability := 1%Q;
     timeRange := {| tr_start := "09:00"; tr_end := "18:00" |};
     autoPush := false;
     branch := None |}.

(** [Math.random()] always returns 0.5. *)
Definition halfRandom : nat -> Q := fun _ => (1 # 2)%Q.

(** The three draws of the first commit are 1023/1024, which gives the
    last minute of the window, second 59 and millisecond 999; every other
    draw is 0.5. *)
Definition lateRandom : nat -> Q :=
  fun n =>
    match n with
    | 2%nat | 3%nat | 4%nat => (1023 # 1024)%Q
    | _ => (1 # 2)%Q
    end.

Definition usableRepo : Result RepoStatus :=
  Ok {| isRepo := true;
        currentBranch := Some "main";
        hasUncommittedChanges := false;
        remoteUrl := None;
        isConnected := false |}.

(** A repository on which every command succeeds, and no [cancel()]. *)
Definition calmEnv : Env :=
  {| random := halfRandom;
     repoStatus := usableRepo;
     commitAnswer := fun _ => inr "0123456789abcdef";
     pushAnswer := inr tt;
     cancelDuring := fun _ => false;
     startTime := 1000;
     endTime := 3500 |}.

(** The first [createCommit] fails, the others succeed. *)
Definition flakyEnv : Env :=
  {| random := halfRandom;
     repoStatus := usableRepo;
     commitAnswer := fun i => match i with
                              | O => inl "Error: index.lock exists"
                              | _ => inr "0123456789abcdef"
                              end;
     pushAnswer := inr tt;
     cancelDuring := fun _ => false;
     startTime := 1000;
     endTime := 3500 |}.

(** [cancel()] arrives while the commit of the third entry is under way;
    the second commit has failed. *)
Definition interruptedEnv : Env :=
  {| random := halfRandom;
     repoStatus := usableRepo;
     commitAnswer := fun i => match i with
                              | 1%nat => inl "Error: index.lock exists"
                              | _ => inr "0123456789abcdef"
                              end;
     pushAnswer := inr tt;
     cancelDuring := fun j => match j with 3%nat => true | _ => false end;
     startTime := 1000;
     endTime := 3500 |}.

(** [cancel()] arrives while the commit of the fifth and last entry of
    the week is under way. *)
Definition lateCancelEnv : Env :=
  {| random := halfRandom;
     repoStatus := usableRepo;
     commitAnswer := fun _ => inr "0123456789abcdef";
     pushAnswer := inr tt;
     cancelDuring := fun j => match j with 5%nat => true | _ => false end;
     startTime := 1000;
     endTime := 3500 |}.

(** The plan of [weekConfig] when every draw is 0.5. *)
Definition weekPlan : list CommitPlan :=
  Eval vm_compute in
    match fst (generateCommitPlan halfRandom weekConfig 0%nat) with
    | Ok plan => plan
    | Throw _ => []
    end.

(** The plan of [weekConfig] when the first commit draws late. *)
Definition latePlan : list CommitPlan :=
  Eval vm_compute in
    match fst (generateCommitPlan lateRandom weekConfig 0%nat) with
    | Ok plan => plan
    | Throw _ => []
    end.

(** The run of [weekConfig] on [flakyEnv], and the result it returns. *)
Definition flakyRun : State * list Event * Result GenerateResult :=
  Eval vm_compute in generate flakyEnv weekConfig true initial.

Definition flakyResult : GenerateResult :=
  {| success := false;
     totalCommits := 4;
     res_startDate := "2024-01-01";
     res_endDate := "2024-01-07";
     duration := 2500;
     errors := ["Failed to create commit 1: Failed to create commit: Error: index.lock exists"] |}.

(** The result [generate] returns for [skipAllConfig]. *)
Definition emptyResult : GenerateResult :=
  {| success := true;
     totalCommits := 0;
     res_startDate := "2024-01-01";
     res_endDate := "2024-01-07";
     duration := 2500;
     errors := [NO_COMMITS_NOTE] |}.

(** An object that has been used and cancelled. *)
Definition usedState : State := {| cancelled := true; generatedCommits := 7 |}.

(** The number [0.1] of JavaScript: the binary64 number nearest to 1/10. *)
Definition tenth : Q := 3602879701896397 # 36028797018963968.

(** Ten days, every day, one to three commits a day, one day in ten
    skipped. *)
Definition sparseConfig : Config :=
  {| repoPath := ".";
     startDate := "2024-01-01";
     endDate := "2024-01-10";
     commitsPerDay := {| cpd_min := 1; cpd_max := 3 |};
     commitMessage := "auto commit: {{date}}";
     targetFile := ".auto-commit-log";
     skipDays := [];
     skipProbability := tenth;
     timeRange := {| tr_start := "09:00"; tr_end := "18:00" |};
     autoPush := false;
     branch := None |}.

End Demo.

(** ** More vocabulary: plans, messages, reports and traces *)

(** The entry carries the template rendered with its own timestamp and
    index, and its own time of day. *)
Definition rendered (config : Config) (e : CommitPlan) : Prop :=
  plan_message e = formatCommitMessage (commitMessage config) (date e) (index e)
  /\ time e = format (date e) P_HH_mm_ss.

(** The entries generated so far are numbered 0, 1, 2, ... in order, and
    [commitIndex] is their number. *)
Definition counted (st : PlanState) : Prop :=
  map index (fst st) = map Z.of_nat (seq 0 (List.length (fst st)))
  /\ snd st = Z.of_nat (List.length (fst st)).

(** A day of the range that [getDaysInRange] keeps: the midnight of a
    calendar day from [s]'s to [t]'s whose weekday is not skipped. *)
Definition activeDay (s t : Date) (skip : list Z) (day : Date) : Prop :=
  exists dn, day = dn * MS_PER_DAY
             /\ dayNumber s <= dn <= dayNumber t
             /\ ~ In (getDay day) skip.


(** The string has no opening brace. *)
Fixpoint noBrace (s : string) : bool :=
  match s with
  | EmptyString => true
  | String c s' => negb (Ascii.eqb c "{") && noBrace s'
  end.

(** The placeholders of a commit message and what stands for each, for
    the timestamp [d] and the index [i]. *)
Definition placeholders (d : Date) (i : Z) : list (string * string) :=
  [ ("{{date}}", format d P_yyyy_MM_dd);
    ("{{datetime}}", format d P_yyyy_MM_dd_HH_mm_ss);
    ("{{time}}", format d P_HH_mm_ss);
    ("{{index}}", Str.of_Z (i + 1));
    ("{{year}}", format d P_yyyy);
    ("{{month}}", format d P_MM);
    ("{{day}}", format d P_dd) ].

(** The message a check contributes to a report: [m] when the check
    fails. *)
Definition when (b : bool) (m : string) : list string := if b then [m] else [].

(** The timestamps of the [createCommit] calls, in the order of the
    calls. *)
Definition commitDates (l : list Event) : list Date :=
  flat_map (fun ev => match ev with
                      | EvCreateCommit _ d _ _ _ => [d]
                      | _ => []
                      end) l.

(** The lines of the entries [l], the first at position [from + 1]. *)
Fixpoint numbered_lines (from : nat) (l : list CommitPlan) : list GenerateCommand.Line :=
  match l with
  | [] => []
  | commit :: l' =>
      GenerateCommand.Entry (Z.of_nat from + 1)
        (format (date commit) P_yyyy_MM_dd_HH_mm_ss) (plan_message commit)
      :: numbered_lines (S from) l'
  end.

(** What a [createCommit] call is given for an entry of the plan. *)
Definition payload (config : Config) (e : CommitPlan) : string * Date * string * string :=
  (plan_message e, date e, targetFile config, generateFileContent e).

(** The arguments of the [createCommit] calls, in the order of the
    calls. *)
Definition commitCalls (l : list Event) : list (string * Date * string * string) :=
  flat_map (fun ev => match ev with
                      | EvCreateCommit m d f c _ => [(m, d, f, c)]
                      | _ => []
                      end) l.

(** ** The 400-year cycle of the calendar *)

(** The integers from 0 to [n - 1]. *)
Fixpoint upto (count : nat) (from : Z) : list Z :=
  match count with
  | O => []
  | S count' => from :: upto count' (from + 1)
  end.

Definition range (n : Z) : list Z := upto (Z.to_nat n) 0.

(** The first day of year [yoe] of the cycle (years start in March). *)
Definition yearStart (yoe : Z) : Z := yoe * 365 + yoe / 4 - yoe / 100.

(** The last day of the year of the cycle, counted from its first day:
    its February is the one of the civil year that follows. *)
Definition yearLast (yoe : Z) : Z := if is_leap (yoe + 1) then 365 else 364.

(** The day of the year of the cycle of the month [m] and day [d]. *)
Definition dayOfYear (m d : Z) : Z :=
  (153 * (if m <=? 2 then m + 9 else m - 3) + 2) / 5 + d - 1.

Definition cycleScaled (doe : Z) : Z := doe - doe / 1460 + doe / 36524 - doe / 146096.

(** The year of the cycle of the day [doe] of the cycle. *)
Definition yearOfCycle (doe : Z) : Z := cycleScaled doe / 365.

(** The month and the day of the day [doy] of a year of the cycle. *)
Definition monthDay (doy : Z) : Z * Z :=
  let mp := (5 * doy + 2) / 153 in
  (if mp <? 10 then mp + 3 else mp - 9, doy - (153 * mp + 2) / 5 + 1).

(** ** Digits and padded numbers *)

(** The character of a decimal digit. *)
Definition digitChar (v : Z) : ascii := ascii_of_nat (Z.to_nat (48 + v)).

Definition twoDigits (n : Z) : string :=
  String (digitChar (n / 10)) (String (digitChar (n mod 10)) EmptyString).

Definition fourDigits (n : Z) : string :=
  String (digitChar (n / 1000)) (String (digitChar (n / 100 mod 10)) (twoDigits (n mod 100))).

(** ** More concrete cases *)

Module Cases.

(** [Demo.weekConfig] with a push to [main] at the end. *)
Definition pushConfig : Config :=
  {| repoPath := ".";
     startDate := "2024-01-01";
     endDate := "2024-01-07";
     commitsPerDay := {| cpd_min := 1; cpd_max := 1 |};
     commitMessage := "commit #{{index}}";
     targetFile := ".auto-commit-log";
     skipDays := [0; 6];
     skipProbability := 0%Q;
     timeRange := {| tr_start := "09:00"; tr_end := "18:00" |};
     autoPush := true;
     branch := Some "main" |}.

(** Monday to Sunday without the weekend, one to five commits a day. *)
Definition variedConfig : Config :=
  {| repoPath := ".";
     startDate := "2024-01-01";
     endDate := "2024-01-07";
     commitsPerDay := {| cpd_min := 1; cpd_max := 5 |};
     commitMessage := "auto commit: {{date}}";
     targetFile := ".auto-commit-log";
     skipDays := [0; 6];
     skipProbability := 0%Q;
     timeRange := {| tr_start := "09:00"; tr_end := "18:00" |};
     autoPush := false;
     branch := None |}.

(** Every commit succeeds and the push fails. *)
Definition offlineEnv : Env :=
  {| random := Demo.halfRandom;
     repoStatus := Demo.usableRepo;
     commitAnswer := fun _ => inr "0123456789abcdef";
     pushAnswer := inl "Error: could not read from remote repository";
     cancelDuring := fun _ => false;
     startTime := 1000;
     endTime := 3500 |}.

(** The run of [pushConfig] on [offlineEnv]. *)
Definition offlineRun : State * list Event * Result GenerateResult :=
  Eval vm_compute in generate offlineEnv pushConfig true initial.

Definition offlineResult : GenerateResult :=
  {| success := false;
     totalCommits := 5;
     res_startDate := "2024-01-01";
     res_endDate := "2024-01-07";
     duration := 2500;
     errors := ["Failed to push: Failed to push to remote: Error: could not read from remote repository"] |}.

(** The run of [Demo.weekConfig] on [Demo.interruptedEnv], and the error
    it throws. *)
Definition interruptedRun : State * list Event * Result GenerateResult :=
  Eval vm_compute in generate Demo.interruptedEnv Demo.weekConfig true initial.

Definition interruptedError : AutoCommitError :=
  mkError "Operation cancelled after 2 commits" USER_CANCELLED.

(** Noon of 2024-02-01, after the end of every range above. *)
Definition now : Date := 19754 * MS_PER_DAY + 12 * MS_PER_HOUR.

(** What the pre-flight checks report for [Demo.weekConfig] on
    [Demo.usableRepo]. *)
Definition weekPreflight : ValidatorReport.Preflight :=
  {| ValidatorReport.passed := true;
     ValidatorReport.warnings := ["No remote configured. Commits will only be local."];
     ValidatorReport.p_errors := [] |}.


End Cases.

(** A zone with the rules of New York in 2024: five hours behind UTC,
    four from 2024-03-10 02:00 local time (07:00 UTC) to 2024-11-03 02:00
    local time (06:00 UTC). *)
Module NewYork.

Definition standard : Z := -5 * MS_PER_HOUR.
Definition daylight : Z := -4 * MS_PER_HOUR.

(** 2024-03-10 and 2024-11-03 as day numbers. *)
Definition springDay : Z := days_from_civil 2024 3 10.
Definition autumnDay : Z := days_from_civil 2024 11 3.

Definition zone : Zone :=
  {| offsetAt := fun d =>
       if d <? springDay * MS_PER_DAY + 7 * MS_PER_HOUR then standard
       else if d <? autumnDay * MS_PER_DAY + 6 * MS_PER_HOUR then daylight
       else standard;
     offsetOfLocal := fun l =>
       if l <? springDay * MS_PER_DAY + 3 * MS_PER_HOUR then standard
       else if l <? autumnDay * MS_PER_DAY + 2 * MS_PER_HOUR then daylight
       else standard |}.

(** One commit on 2024-03-10, wanted between 02:00 and 02:59. *)
Definition springConfig : Config :=
  {| repoPath := ".";
     startDate := "2024-03-10";
     endDate := "2024-03-10";
     commitsPerDay := {| cpd_min := 1; cpd_max := 1 |};
     commitMessage := "at {{time}}";
     targetFile := "log.txt";
     skipDays := [];
     skipProbability := 0;
     timeRange := {| tr_start := "02:00"; tr_end := "02:59" |};
     autoPush := false;
     branch := None |}.

Definition springPlan : list CommitPlan :=
  Eval vm_compute in
    match fst (Zoned.generateCommitPlan zone Demo.halfRandom springConfig 0%nat) with
    | Ok plan => plan
    | Throw _ => []
    end.

End NewYork.

(** * Lemmas and theorems *)

(** ** Arithmetic of the random draws *)

Lemma floor_scaled_bounds (r : Q) (n : Z) :
  unit_interval r -> 0 < n -> 0 <= Qfloor (r * inject_Z n) < n.
Proof.
  intros [Hr0 Hr1] Hn.
  assert (Hn' : (0 < inject_Z n)%Q) by (change 0%Q with (inject_Z 0); rewrite <- Zlt_Qlt; exact Hn).
  split.
  - change 0 with (Qfloor 0). apply Qfloor_resp_le.
    apply Qmult_le_0_compat; [exact Hr0 | apply Qlt_le_weak; exact Hn'].
  - rewrite Zlt_Qlt.
    apply Qle_lt_trans with (r * inject_Z n)%Q; [apply Qfloor_le|].
    setoid_replace (inject_Z n) with (1 * inject_Z n)%Q at 2 by ring.
    apply Qmult_lt_compat_r; assumption.
Qed.

Lemma floor_scaled_one (r : Q) :
  unit_interval r -> Qfloor (r * inject_Z 1) = 0.
Proof.
  intros Hr. pose proof (floor_scaled_bounds r 1 Hr ltac:(lia)). lia.
Qed.

(** ** Arithmetic of the date setters *)

Lemma timeOfDay_offset (dn x : Z) :
  0 <= x < MS_PER_DAY -> timeOfDay (dn * MS_PER_DAY + x) = x.
Proof.
  intros Hx. unfold timeOfDay.
  rewrite Z.add_comm, Z.mod_add by (unfold MS_PER_DAY; lia).
  apply Z.mod_small; exact Hx.
Qed.

Lemma dayNumber_offset (dn x : Z) :
  0 <= x < MS_PER_DAY -> dayNumber (dn * MS_PER_DAY + x) = dn.
Proof.
  intros Hx. unfold dayNumber.
  rewrite Z.add_comm, Z.div_add by (unfold MS_PER_DAY; lia).
  rewrite Z.div_small by exact Hx. lia.
Qed.

Lemma set_fields_of_midnight (dn h m s ms : Z) :
  0 <= h < 24 -> 0 <= m < 60 -> 0 <= s < 60 -> 0 <= ms < 1000 ->
  setMilliseconds (setSeconds (setMinutes (setHours (dn * MS_PER_DAY) h) m) s) ms
  = dn * MS_PER_DAY + (h * MS_PER_HOUR + m * MS_PER_MINUTE + s * MS_PER_SECOND + ms).
Proof.
  intros Hh Hm Hs Hms.
  assert (E1 : setHours (dn * MS_PER_DAY) h = dn * MS_PER_DAY + h * MS_PER_HOUR).
  { unfold setHours, getHours.
    replace (dn * MS_PER_DAY) with (dn * MS_PER_DAY + 0) at 2 by lia.
    rewrite timeOfDay_offset by (unfold MS_PER_DAY; lia).
    unfold MS_PER_HOUR. rewrite Z.div_0_l by lia. lia. }
  rewrite E1.
  assert (E2 : setMinutes (dn * MS_PER_DAY + h * MS_PER_HOUR) m
               = dn * MS_PER_DAY + (h * MS_PER_HOUR + m * MS_PER_MINUTE)).
  { unfold setMinutes, getMinutes.
    rewrite timeOfDay_offset by (unfold MS_PER_DAY, MS_PER_HOUR; lia).
    rewrite Z.mod_mul by (unfold MS_PER_HOUR; lia).
    unfold MS_PER_MINUTE. rewrite Z.div_0_l by lia. lia. }
  rewrite E2.
  assert (E3 : setSeconds (dn * MS_PER_DAY + (h * MS_PER_HOUR + m * MS_PER_MINUTE)) s
               = dn * MS_PER_DAY + (h * MS_PER_HOUR + m * MS_PER_MINUTE + s * MS_PER_SECOND)).
  { unfold setSeconds, getSeconds.
    rewrite timeOfDay_offset by (unfold MS_PER_DAY, MS_PER_HOUR, MS_PER_MINUTE; lia).
    replace (h * MS_PER_HOUR + m * MS_PER_MINUTE) with ((h * 60 + m) * MS_PER_MINUTE)
      by (unfold MS_PER_HOUR, MS_PER_MINUTE; lia).
    rewrite Z.mod_mul by (unfold MS_PER_MINUTE; lia).
    unfold MS_PER_SECOND. rewrite Z.div_0_l by lia.
    unfold MS_PER_MINUTE. lia. }
  rewrite E3.
  unfold setMilliseconds, getMilliseconds.
  rewrite timeOfDay_offset
    by (unfold MS_PER_DAY, MS_PER_HOUR, MS_PER_MINUTE, MS_PER_SECOND; lia).
  replace (h * MS_PER_HOUR + m * MS_PER_MINUTE + s * MS_PER_SECOND)
    with ((h * 3600 + m * 60 + s) * MS_PER_SECOND)
    by (unfold MS_PER_HOUR, MS_PER_MINUTE, MS_PER_SECOND; lia).
  rewrite Z.mod_mul by (unfold MS_PER_SECOND; lia). lia.
Qed.

(** ** Validated time strings *)

Lemma digit_range (c : ascii) (d : Z) : Str.digit c = Some d -> 0 <= d <= 9.
Proof.
  unfold Str.digit. destruct (_ && _) eqn:E; [|discriminate].
  intros [= <-]. apply andb_true_iff in E. lia.
Qed.

Lemma digit_not_colon (c : ascii) (d : Z) :
  Str.digit c = Some d -> Ascii.eqb c ":" = false.
Proof.
  intros H. destruct (Ascii.eqb_spec c ":") as [->|]; [|reflexivity].
  vm_compute in H. discriminate.
Qed.

Lemma parseTime_valid (s : string) :
  Validator.isValidTimeFormat s = true ->
  exists h m, DateCalculator.parseTime s = (h, m) /\ 0 <= h <= 23 /\ 0 <= m <= 59.
Proof.
  unfold Validator.isValidTimeFormat.
  destruct s as [|h1 [|h2 [|c [|m1 [|m2 [|]]]]]]; try discriminate.
  destruct (Str.digit h1) as [a|] eqn:Ea; [|discriminate].
  destruct (Str.digit h2) as [b|] eqn:Eb; [|discriminate].
  destruct (Str.digit m1) as [m|] eqn:Em; [|discriminate].
  destruct (Str.digit m2) as [n|] eqn:En; [|discriminate].
  intros H. apply andb_true_iff in H. destruct H as [H Hm].
  apply andb_true_iff in H. destruct H as [Hc Hh].
  apply Ascii.eqb_eq in Hc. subst c.
  exists (a * 10 + b), (m * 10 + n).
  pose proof (digit_range _ _ Ea). pose proof (digit_range _ _ Eb).
  pose proof (digit_range _ _ Em). pose proof (digit_range _ _ En).
  split.
  - unfold DateCalculator.parseTime. cbn [DateCalculator.split_colon].
    rewrite (digit_not_colon _ _ Ea), (digit_not_colon _ _ Eb),
      (digit_not_colon _ _ Em), (digit_not_colon _ _ En).
    replace (Ascii.eqb ":" ":") with true by reflexivity.
    cbn [map String.append]. unfold Str.Number, Str.digits. cbn [Str.digits_from].
    rewrite Ea, Eb, Em, En. reflexivity.
  - apply orb_true_iff in Hh. rewrite andb_true_iff in Hh. lia.
Qed.

(** ** The loops of [generateCommitPlan] *)

Lemma bind_eq {A B} (m : Rand A) (f : A -> Rand B) (n : nat) :
  bind m f n = f (fst (m n)) (snd (m n)).
Proof. unfold bind. destruct (m n). reflexivity. Qed.

Section PlanLoops.

Variable random : nat -> Q.
Variable config : Config.

(** The inner loop body appends one entry, numbered with the running
    index, and advances the index by one. *)
Lemma planCommit_shape (day : Date) (plan : list CommitPlan) (ci : Z) (n : nat) :
  exists e, fst (planCommit random config day (plan, ci) n) = (plan ++ [e], ci + 1)%list
            /\ index e = ci.
Proof.
  unfold planCommit, generateRandomTime, Math_random, bind, ret. cbn.
  eexists. split; reflexivity.
Qed.

Lemma planDay_inv (I : PlanState -> Prop) (day : Date) :
  (forall st n, I st -> I (fst (planCommit random config day st n))) ->
  forall count st n, I st -> I (fst (planDay random config day count st n)).
Proof.
  intros Hstep. induction count as [|count IH]; intros st n Hst; cbn [planDay].
  - exact Hst.
  - rewrite bind_eq. apply IH. apply Hstep. exact Hst.
Qed.

Lemma planDays_inv (I : PlanState -> Prop) (days : list Date) :
  (forall day st n, In day days -> I st -> I (fst (planCommit random config day st n))) ->
  forall st n, I st -> I (fst (planDays random config days st n)).
Proof.
  induction days as [|day days IH]; intros Hstep st n Hst; cbn [planDays].
  - exact Hst.
  - rewrite bind_eq.
    assert (Hrest : forall st' n', I st' -> I (fst (planDays random config days st' n'))).
    { intros st' n' Hst'. apply IH; [|exact Hst'].
      intros d s k Hd. apply Hstep. right. exact Hd. }
    destruct (fst (shouldSkipDay random (skipProbability config) n)).
    + apply Hrest. exact Hst.
    + rewrite bind_eq, bind_eq. apply Hrest.
      apply planDay_inv; [|exact Hst].
      intros s k. apply Hstep. left. reflexivity.
Qed.

End PlanLoops.

(** ** The stable sort *)

Lemma sort_insert_Forall {A} (cmp : A -> A -> Z) (P : A -> Prop) (x : A) (l : list A) :
  P x -> Forall P l -> Forall P (sort_insert cmp x l).
Proof.
  intros Hx Hl. induction Hl as [|y l Hy Hl IH]; cbn.
  - constructor; [exact Hx | constructor].
  - destruct (cmp x y <=? 0); repeat constructor; assumption.
Qed.

Lemma Array_sort_cons {A} (cmp : A -> A -> Z) (x : A) (l : list A) :
  Array_sort cmp (x :: l) = sort_insert cmp x (Array_sort cmp l).
Proof. reflexivity. Qed.

Lemma Array_sort_Forall {A} (cmp : A -> A -> Z) (P : A -> Prop) (l : list A) :
  Forall P l -> Forall P (Array_sort cmp l).
Proof.
  induction 1 as [|x l Hx Hl IH].
  - constructor.
  - rewrite Array_sort_cons. apply sort_insert_Forall; assumption.
Qed.

Lemma sort_insert_length {A} (cmp : A -> A -> Z) (x : A) (l : list A) :
  List.length (sort_insert cmp x l) = S (List.length l).
Proof.
  induction l as [|y l IH]; cbn; [reflexivity|].
  destruct (cmp x y <=? 0); cbn; [reflexivity | rewrite IH; reflexivity].
Qed.

Lemma Array_sort_length {A} (cmp : A -> A -> Z) (l : list A) :
  List.length (Array_sort cmp l) = List.length l.
Proof.
  induction l as [|x l IH]; [reflexivity|].
  rewrite Array_sort_cons, sort_insert_length, IH. reflexivity.
Qed.

Lemma sort_insert_sorted (x : CommitPlan) (l : list CommitPlan) :
  StronglySorted plan_before l ->
  Forall (index_lt x) l ->
  StronglySorted plan_before (sort_insert by_date x l).
Proof.
  induction 1 as [|y l Hsorted IH Hy]; intros Hx; cbn.
  - repeat constructor.
  - inversion Hx as [|? ? Hxy Hxl]; subst.
    destruct (Z.leb_spec (by_date x y) 0) as [Hle|Hgt]; unfold by_date in *.
    + constructor; [constructor; assumption|].
      constructor.
      * unfold plan_before, index_lt in *. lia.
      * rewrite Forall_forall in *. intros z Hz.
        specialize (Hy z Hz). specialize (Hxl z Hz).
        unfold plan_before, index_lt in *. lia.
    + constructor; [apply IH; exact Hxl|].
      apply sort_insert_Forall; [|exact Hy].
      left. lia.
Qed.

Lemma Array_sort_sorted (l : list CommitPlan) :
  StronglySorted index_lt l ->
  StronglySorted plan_before (Array_sort by_date l).
Proof.
  induction 1 as [|x l Hsorted IH Hx].
  - constructor.
  - rewrite Array_sort_cons. apply sort_insert_sorted; [exact IH|].
    apply Array_sort_Forall. exact Hx.
Qed.

Lemma StronglySorted_snoc {A} (R : A -> A -> Prop) (l : list A) (e : A) :
  StronglySorted R l -> Forall (fun x => R x e) l -> StronglySorted R (l ++ [e]).
Proof.
  induction 1 as [|x l Hs IH Hx]; intros He; cbn.
  - repeat constructor.
  - inversion He as [|? ? Hxe Hle]; subst.
    constructor; [apply IH; exact Hle|].
    apply Forall_app. split; [exact Hx | repeat constructor; exact Hxe].
Qed.

Lemma planCommit_numbered random config day st n :
  numbered st -> numbered (fst (planCommit random config day st n)).
Proof.
  destruct st as [plan ci]. intros [Hs Hb].
  destruct (planCommit_shape random config day plan ci n) as (e & -> & He).
  unfold numbered; cbn [fst snd] in *. split.
  - apply StronglySorted_snoc; [exact Hs|].
    eapply Forall_impl; [|exact Hb]. unfold index_lt. intros; lia.
  - apply Forall_app. split.
    + eapply Forall_impl; [|exact Hb]. cbn. intros; lia.
    + repeat constructor. lia.
Qed.

Lemma planDays_numbered random config days n :
  numbered (fst (planDays random config days ([], 0) n)).
Proof.
  apply planDays_inv.
  - intros day st k _. apply planCommit_numbered.
  - split; constructor.
Qed.

(** ** Valid configurations reach the loops *)

Lemma valid_dates (config : Config) :
  Validator.validateConfig config = true ->
  exists s t, parseISO (startDate config) = Some s
              /\ parseISO (endDate config) = Some t /\ s <= t.
Proof.
  unfold Validator.validateConfig. rewrite !andb_true_iff.
  intros [[[[[[[_ _] Hr] _] _] _] _] _].
  unfold Validator.isValidDateRange, Validator.isValidDateFormat in Hr.
  destruct (parseISO (startDate config)) as [s|]; [|discriminate].
  destruct (parseISO (endDate config)) as [t|]; [|discriminate].
  cbn in Hr. exists s, t. repeat split; try reflexivity. lia.
Qed.

Lemma getDaysInRange_ok (sd ed : string) (skip : list Z) (s t : Date) :
  parseISO sd = Some s -> parseISO ed = Some t -> s <= t ->
  getDaysInRange sd ed skip
  = Ok (filter (fun day => negb (existsb (Z.eqb (getDay day)) skip))
               (eachDayOfInterval s t)).
Proof.
  intros Hs Ht Hle. unfold getDaysInRange, validateDateRange, isAfter.
  rewrite Hs, Ht. destruct (Z.ltb_spec t s); [lia | reflexivity].
Qed.

(** C1.  For every valid configuration, whatever [Math.random()] returns,
    [generateCommitPlan] returns a plan that is sorted by timestamp, and
    in which, of two entries with the same timestamp, the one with the
    smaller [index] comes first. *)
Theorem generateCommitPlan_sorted (random : nat -> Q) (config : Config) (n : nat) :
  Validator.validateConfig config = true ->
  exists plan, fst (generateCommitPlan random config n) = Ok plan
               /\ StronglySorted plan_before plan.
Proof.
  intros Hvalid. destruct (valid_dates config Hvalid) as (s & t & Hs & Ht & Hle).
  unfold generateCommitPlan.
  rewrite (getDaysInRange_ok _ _ _ s t Hs Ht Hle).
  rewrite bind_eq. cbn [ret fst].
  eexists. split; [reflexivity|].
  apply Array_sort_sorted. apply planDays_numbered.
Qed.

(** ** The days of the range *)

Lemma eachDayOfInterval_In (s t day : Date) :
  In day (eachDayOfInterval s t) ->
  exists dn, day = dn * MS_PER_DAY /\ dayNumber s <= dn <= dayNumber t.
Proof.
  unfold eachDayOfInterval. rewrite in_map_iff.
  intros (i & <- & Hi). apply in_seq in Hi.
  exists (dayNumber s + Z.of_nat i). split; [reflexivity | lia].
Qed.

Lemma eachDayOfInterval_length (s t : Date) :
  List.length (eachDayOfInterval s t) = Z.to_nat (dayNumber t - dayNumber s + 1).
Proof. unfold eachDayOfInterval. rewrite length_map, length_seq. reflexivity. Qed.

Lemma dayNumber_midnight (dn : Z) : dayNumber (dn * MS_PER_DAY) = dn.
Proof. unfold dayNumber. apply Z.div_mul. unfold MS_PER_DAY. lia. Qed.

(** ** What one planned entry looks like *)

Section PlanEntries.

Variable random : nat -> Q.
Variable config : Config.
Hypothesis random_unit : unit_source random.
Hypothesis start_valid : Validator.isValidTimeFormat (tr_start (timeRange config)) = true.
Hypothesis end_valid : Validator.isValidTimeFormat (tr_end (timeRange config)) = true.
Hypothesis window_ordered : startMinutesOf config <= endMinutesOf config.

Lemma planCommit_entry (dn : Z) (plan : list CommitPlan) (ci : Z) (n : nat) :
  exists e, fst (planCommit random config (dn * MS_PER_DAY) (plan, ci) n)
            = (plan ++ [e], ci + 1)%list
            /\ dayNumber (date e) = dn
            /\ minute_in_window config e.
Proof.
  unfold planCommit, generateRandomTime, Math_random, bind, ret.
  cbn [fst snd hours minutes seconds].
  eexists. split; [reflexivity|].
  unfold minute_in_window. cbn [date].
  destruct (parseTime_valid _ start_valid) as (h1 & m1 & E1 & Hh1 & Hm1).
  destruct (parseTime_valid _ end_valid) as (h2 & m2 & E2 & Hh2 & Hm2).
  unfold startMinutesOf, endMinutesOf in *. rewrite E1, E2 in *. cbn [fst snd].
  set (sm := h1 * 60 + m1) in *. set (em := h2 * 60 + m2) in *.
  pose proof (floor_scaled_bounds (random n) (em - sm + 1) (random_unit n) ltac:(lia)) as Hrm.
  pose proof (floor_scaled_bounds (random (S n)) 60 (random_unit _) ltac:(lia)) as Hs.
  pose proof (floor_scaled_bounds (random (S (S n))) 1000 (random_unit _) ltac:(lia)) as Hms.
  set (rm := Qfloor (random n * inject_Z (em - sm + 1)) + sm) in *.
  set (sec := Qfloor (random (S n) * inject_Z 60)) in *.
  set (ms := Qfloor (random (S (S n)) * inject_Z 1000)) in *.
  assert (Hrm' : sm <= rm <= em) by (unfold rm; lia).
  assert (Hrem : Z.rem rm 60 = rm mod 60) by (apply Z.rem_mod_nonneg; lia).
  rewrite Hrem.
  pose proof (Z.div_mod rm 60 ltac:(lia)) as Hdm.
  pose proof (Z.mod_pos_bound rm 60 ltac:(lia)) as Hmod.
  assert (Hdiv : 0 <= rm / 60 < 24).
  { split; [apply Z.div_pos; lia | apply Z.div_lt_upper_bound; lia]. }
  rewrite set_fields_of_midnight by lia.
  assert (Hx : rm / 60 * MS_PER_HOUR + rm mod 60 * MS_PER_MINUTE + sec * MS_PER_SECOND + ms
               = rm * MS_PER_MINUTE + sec * MS_PER_SECOND + ms).
  { unfold MS_PER_HOUR, MS_PER_MINUTE. lia. }
  rewrite Hx.
  assert (Hb : 0 <= rm * MS_PER_MINUTE + sec * MS_PER_SECOND + ms < MS_PER_DAY).
  { unfold MS_PER_MINUTE, MS_PER_SECOND, MS_PER_DAY. lia. }
  rewrite dayNumber_offset, timeOfDay_offset by exact Hb.
  split; [reflexivity|].
  unfold MS_PER_MINUTE, MS_PER_SECOND. lia.
Qed.

End PlanEntries.

Lemma valid_times (config : Config) :
  Validator.validateConfig config = true ->
  Validator.isValidTimeFormat (tr_start (timeRange config)) = true
  /\ Validator.isValidTimeFormat (tr_end (timeRange config)) = true.
Proof.
  unfold Validator.validateConfig. rewrite !andb_true_iff. tauto.
Qed.

Lemma getDay_same_day (a b : Date) : dayNumber a = dayNumber b -> getDay a = getDay b.
Proof. unfold getDay. intros ->. reflexivity. Qed.

(** On the local clock, every entry of the plan has its calendar day
    within [startDate, endDate], a weekday that is not in [skipDays], and
    a time of day from [timeRange.start] up to less than one minute past
    [timeRange.end]. *)
Lemma plan_entries_on_local_clock (random : nat -> Q) (config : Config) (n : nat) :
  unit_source random ->
  valid_config config ->
  exists plan, fst (generateCommitPlan random config n) = Ok plan
    /\ Forall (fun e => day_in_range config e
                        /\ weekday_allowed config e
                        /\ minute_in_window config e) plan.
Proof.
  intros Hrandom [Hvalid Hwindow].
  destruct (valid_dates config Hvalid) as (s & t & Hs & Ht & Hle).
  destruct (valid_times config Hvalid) as [Hstart Hend].
  unfold generateCommitPlan.
  rewrite (getDaysInRange_ok _ _ _ s t Hs Ht Hle).
  rewrite bind_eq. cbn [ret fst].
  eexists. split; [reflexivity|].
  apply Array_sort_Forall.
  apply (planDays_inv random config
           (fun st => Forall (fun e => day_in_range config e
                                       /\ weekday_allowed config e
                                       /\ minute_in_window config e) (fst st)));
    [|constructor].
  intros day [plan ci] k Hday Hplan.
  apply filter_In in Hday. destruct Hday as [Hday Hkeep].
  destruct (eachDayOfInterval_In _ _ _ Hday) as (dn & -> & Hdn).
  destruct (planCommit_entry random config Hrandom Hstart Hend Hwindow dn plan ci k)
    as (e & -> & Hd & Hm).
  cbn [fst] in *. apply Forall_app. split; [exact Hplan|].
  constructor; [|constructor]. repeat split.
  - exists s, t. rewrite Hd. auto.
  - unfold weekday_allowed.
    rewrite (getDay_same_day (date e) (dn * MS_PER_DAY))
      by (rewrite dayNumber_midnight; exact Hd).
    intros Hin. apply negb_true_iff in Hkeep.
    assert (existsb (Z.eqb (getDay (dn * MS_PER_DAY))) (skipDays config) = true)
      by (apply existsb_exists; eexists; split; [exact Hin | apply Z.eqb_refl]).
    congruence.
  - apply Hm.
  - apply Hm.
Qed.

(** ** Zones without a transition over the range *)

Lemma set_hours_of_midnight (dn h : Z) :
  setHours (dn * MS_PER_DAY) h = dn * MS_PER_DAY + h * MS_PER_HOUR.
Proof.
  unfold setHours, getHours.
  replace (dn * MS_PER_DAY) with (dn * MS_PER_DAY + 0) at 2 by lia.
  rewrite timeOfDay_offset by (unfold MS_PER_DAY; lia).
  unfold MS_PER_HOUR. rewrite Z.div_0_l by lia. lia.
Qed.

Lemma set_minutes_of_hour (dn h m : Z) :
  0 <= h < 24 ->
  setMinutes (dn * MS_PER_DAY + h * MS_PER_HOUR) m
  = dn * MS_PER_DAY + (h * MS_PER_HOUR + m * MS_PER_MINUTE).
Proof.
  intros Hh. unfold setMinutes, getMinutes.
  rewrite timeOfDay_offset by (unfold MS_PER_DAY, MS_PER_HOUR; lia).
  rewrite Z.mod_mul by (unfold MS_PER_HOUR; lia).
  unfold MS_PER_MINUTE. rewrite Z.div_0_l by lia. lia.
Qed.

Lemma set_seconds_of_minute (dn h m s : Z) :
  0 <= h < 24 -> 0 <= m < 60 ->
  setSeconds (dn * MS_PER_DAY + (h * MS_PER_HOUR + m * MS_PER_MINUTE)) s
  = dn * MS_PER_DAY + (h * MS_PER_HOUR + m * MS_PER_MINUTE + s * MS_PER_SECOND).
Proof.
  intros Hh Hm. unfold setSeconds, getSeconds.
  rewrite timeOfDay_offset by (unfold MS_PER_DAY, MS_PER_HOUR, MS_PER_MINUTE; lia).
  replace (h * MS_PER_HOUR + m * MS_PER_MINUTE) with ((h * 60 + m) * MS_PER_MINUTE)
    by (unfold MS_PER_HOUR, MS_PER_MINUTE; lia).
  rewrite Z.mod_mul by (unfold MS_PER_MINUTE; lia).
  unfold MS_PER_SECOND. rewrite Z.div_0_l by lia.
  unfold MS_PER_MINUTE. lia.
Qed.

Lemma set_milliseconds_of_second (dn h m s ms : Z) :
  0 <= h < 24 -> 0 <= m < 60 -> 0 <= s < 60 ->
  setMilliseconds
    (dn * MS_PER_DAY + (h * MS_PER_HOUR + m * MS_PER_MINUTE + s * MS_PER_SECOND)) ms
  = dn * MS_PER_DAY + (h * MS_PER_HOUR + m * MS_PER_MINUTE + s * MS_PER_SECOND + ms).
Proof.
  intros Hh Hm Hs. unfold setMilliseconds, getMilliseconds.
  rewrite timeOfDay_offset
    by (unfold MS_PER_DAY, MS_PER_HOUR, MS_PER_MINUTE, MS_PER_SECOND; lia).
  replace (h * MS_PER_HOUR + m * MS_PER_MINUTE + s * MS_PER_SECOND)
    with ((h * 3600 + m * 60 + s) * MS_PER_SECOND)
    by (unfold MS_PER_HOUR, MS_PER_MINUTE, MS_PER_SECOND; lia).
  rewrite Z.mod_mul by (unfold MS_PER_SECOND; lia). lia.
Qed.

(** The hour, minute and second that [generateRandomTime] draws for a
    validated time range are fields of a clock. *)
Lemma generateRandomTime_fields (random : nat -> Q) (startTime endTime : string) (n : nat) :
  unit_source random ->
  Validator.isValidTimeFormat startTime = true ->
  Validator.isValidTimeFormat endTime = true ->
  fst (parseTime startTime) * 60 + snd (parseTime startTime)
  <= fst (parseTime endTime) * 60 + snd (parseTime endTime) ->
  let tm := fst (generateRandomTime random startTime endTime n) in
  0 <= hours tm < 24 /\ 0 <= minutes tm < 60 /\ 0 <= seconds tm < 60.
Proof.
  intros Hrandom Hstart Hend Hle.
  unfold generateRandomTime, Math_random, bind, ret.
  cbn [fst snd hours minutes seconds].
  destruct (parseTime_valid _ Hstart) as (h1 & m1 & E1 & Hh1 & Hm1).
  destruct (parseTime_valid _ Hend) as (h2 & m2 & E2 & Hh2 & Hm2).
  rewrite E1, E2 in *. cbn [fst snd] in *.
  set (sm := h1 * 60 + m1) in *. set (em := h2 * 60 + m2) in *.
  pose proof (floor_scaled_bounds (random n) (em - sm + 1) (Hrandom n) ltac:(lia)) as Hrm.
  pose proof (floor_scaled_bounds (random (S n)) 60 (Hrandom _) ltac:(lia)) as Hs.
  set (rm := Qfloor (random n * inject_Z (em - sm + 1)) + sm) in *.
  assert (Hrm' : sm <= rm <= em) by (unfold rm; lia).
  assert (Hrem : Z.rem rm 60 = rm mod 60) by (apply Z.rem_mod_nonneg; lia).
  rewrite Hrem.
  pose proof (Z.mod_pos_bound rm 60 ltac:(lia)) as Hmod.
  assert (Hdiv : 0 <= rm / 60 < 24).
  { split; [apply Z.div_pos; lia | apply Z.div_lt_upper_bound; lia]. }
  lia.
Qed.

Lemma filter_map_commute {A B} (f : A -> B) (p : B -> bool) (q : A -> bool) (l : list A) :
  (forall x, In x l -> p (f x) = q x) ->
  filter p (map f l) = map f (filter q l).
Proof.
  induction l as [|x l IH]; intros H; cbn [map filter]; [reflexivity|].
  rewrite (H x (or_introl eq_refl)).
  rewrite IH by (intros y Hy; apply H; right; exact Hy).
  destruct (q x); reflexivity.
Qed.

Lemma sort_insert_map {A B} (f : A -> B) (cmpA : A -> A -> Z) (cmpB : B -> B -> Z)
      (x : A) (l : list A) :
  (forall a b, cmpB (f a) (f b) = cmpA a b) ->
  sort_insert cmpB (f x) (map f l) = map f (sort_insert cmpA x l).
Proof.
  intros H. induction l as [|y l IH]; cbn [map sort_insert]; [reflexivity|].
  rewrite H. destruct (cmpA x y <=? 0); cbn [map]; [reflexivity|].
  rewrite IH. reflexivity.
Qed.

Lemma Array_sort_map {A B} (f : A -> B) (cmpA : A -> A -> Z) (cmpB : B -> B -> Z)
      (l : list A) :
  (forall a b, cmpB (f a) (f b) = cmpA a b) ->
  Array_sort cmpB (map f l) = map f (Array_sort cmpA l).
Proof.
  intros H. unfold Array_sort.
  induction l as [|x l IH]; cbn [map fold_right]; [reflexivity|].
  rewrite IH. apply sort_insert_map. exact H.
Qed.

Section Steady.

Variable zone : Zone.
Variables off a b : Z.
Hypothesis zone_steady : steady zone off a b.

Lemma localTime_steady (l : Z) :
  a <= l < b -> Zoned.localTime zone (l - off) = l.
Proof.
  intros Hl. unfold Zoned.localTime.
  rewrite (proj2 zone_steady) by lia. lia.
Qed.

Lemma instantOf_steady (l : Z) :
  a <= l < b -> Zoned.instantOf zone l = l - off.
Proof.
  intros Hl. unfold Zoned.instantOf.
  rewrite (proj1 zone_steady) by lia. reflexivity.
Qed.

Lemma setHours_steady (l h : Z) :
  a <= l < b -> a <= setHours l h < b ->
  Zoned.setHours zone (l - off) h = setHours l h - off.
Proof.
  intros Hl Hs. unfold Zoned.setHours.
  rewrite localTime_steady by exact Hl. apply instantOf_steady. exact Hs.
Qed.

Lemma setMinutes_steady (l m : Z) :
  a <= l < b -> a <= setMinutes l m < b ->
  Zoned.setMinutes zone (l - off) m = setMinutes l m - off.
Proof.
  intros Hl Hs. unfold Zoned.setMinutes.
  rewrite localTime_steady by exact Hl. apply instantOf_steady. exact Hs.
Qed.

Lemma setSeconds_steady (l s : Z) :
  a <= l < b -> a <= setSeconds l s < b ->
  Zoned.setSeconds zone (l - off) s = setSeconds l s - off.
Proof.
  intros Hl Hs. unfold Zoned.setSeconds.
  rewrite localTime_steady by exact Hl. apply instantOf_steady. exact Hs.
Qed.

Lemma setMilliseconds_steady (l ms : Z) :
  a <= l < b -> a <= setMilliseconds l ms < b ->
  Zoned.setMilliseconds zone (l - off) ms = setMilliseconds l ms - off.
Proof.
  intros Hl Hs. unfold Zoned.setMilliseconds.
  rewrite localTime_steady by exact Hl. apply instantOf_steady. exact Hs.
Qed.

Variable random : nat -> Q.
Variable config : Config.
Hypothesis random_unit : unit_source random.
Hypothesis start_valid : Validator.isValidTimeFormat (tr_start (timeRange config)) = true.
Hypothesis end_valid : Validator.isValidTimeFormat (tr_end (timeRange config)) = true.
Hypothesis window_ordered : startMinutesOf config <= endMinutesOf config.

Lemma planCommit_steady (dn : Z) (plan : list CommitPlan) (ci : Z) (n : nat) :
  a <= dn * MS_PER_DAY -> dn * MS_PER_DAY + MS_PER_DAY <= b ->
  statesAgree off
    (Zoned.planCommit zone random config (dn * MS_PER_DAY - off)
                      (map (atOffset off) plan, ci) n)
    (planCommit random config (dn * MS_PER_DAY) (plan, ci) n).
Proof.
  intros Ha Hb.
  assert (Hle : fst (parseTime (tr_start (timeRange config))) * 60
                + snd (parseTime (tr_start (timeRange config)))
                <= fst (parseTime (tr_end (timeRange config))) * 60
                   + snd (parseTime (tr_end (timeRange config)))).
  { generalize window_ordered. unfold startMinutesOf, endMinutesOf.
    destruct (parseTime (tr_start _)), (parseTime (tr_end _)). cbn [fst snd]. auto. }
  pose proof (generateRandomTime_fields random _ _ n random_unit start_valid end_valid Hle)
    as Hfields.
  unfold statesAgree, Zoned.planCommit, planCommit.
  rewrite !(bind_eq (generateRandomTime random _ _)).
  cbv zeta in Hfields.
  assert (Hnext : snd (generateRandomTime random (tr_start (timeRange config))
                                          (tr_end (timeRange config)) n) = S (S n)).
  { unfold generateRandomTime, Math_random, bind, ret. reflexivity. }
  rewrite Hnext.
  set (tm := fst (generateRandomTime random (tr_start (timeRange config))
                                     (tr_end (timeRange config)) n)) in *.
  destruct Hfields as (Hh & Hm & Hs).
  unfold Math_random, bind, ret. cbn [fst snd].
  pose proof (floor_scaled_bounds (random (S (S n))) 1000 (random_unit _) ltac:(lia)) as Hms.
  set (ms := Qfloor (random (S (S n)) * inject_Z 1000)) in *.
  assert (Hday : 0 < MS_PER_DAY) by (unfold MS_PER_DAY; lia).
  assert (E1 := set_hours_of_midnight dn (hours tm)).
  assert (E2 := set_minutes_of_hour dn (hours tm) (minutes tm) Hh).
  assert (E3 := set_seconds_of_minute dn (hours tm) (minutes tm) (seconds tm) Hh Hm).
  assert (E4 := set_milliseconds_of_second dn (hours tm) (minutes tm) (seconds tm) ms Hh Hm Hs).
  assert (Z1 : Zoned.setHours zone (dn * MS_PER_DAY - off) (hours tm)
               = setHours (dn * MS_PER_DAY) (hours tm) - off).
  { apply setHours_steady; [lia|]. rewrite E1.
    unfold MS_PER_DAY, MS_PER_HOUR in *. lia. }
  rewrite Z1.
  assert (Z2 : Zoned.setMinutes zone (setHours (dn * MS_PER_DAY) (hours tm) - off) (minutes tm)
               = setMinutes (setHours (dn * MS_PER_DAY) (hours tm)) (minutes tm) - off).
  { apply setMinutes_steady; rewrite E1; [|rewrite E2];
      unfold MS_PER_DAY, MS_PER_HOUR, MS_PER_MINUTE in *; lia. }
  rewrite Z2.
  assert (Z3 : Zoned.setSeconds zone
                 (setMinutes (setHours (dn * MS_PER_DAY) (hours tm)) (minutes tm) - off)
                 (seconds tm)
               = setSeconds (setMinutes (setHours (dn * MS_PER_DAY) (hours tm)) (minutes tm))
                            (seconds tm) - off).
  { apply setSeconds_steady; rewrite E1, E2; [|rewrite E3];
      unfold MS_PER_DAY, MS_PER_HOUR, MS_PER_MINUTE, MS_PER_SECOND in *; lia. }
  rewrite Z3.
  assert (Z4 : Zoned.setMilliseconds zone
                 (setSeconds (setMinutes (setHours (dn * MS_PER_DAY) (hours tm)) (minutes tm))
                             (seconds tm) - off) ms
               = setMilliseconds
                   (setSeconds (setMinutes (setHours (dn * MS_PER_DAY) (hours tm)) (minutes tm))
                               (seconds tm)) ms - off).
  { apply setMilliseconds_steady; rewrite E1, E2, E3; [|rewrite E4];
      unfold MS_PER_DAY, MS_PER_HOUR, MS_PER_MINUTE, MS_PER_SECOND in *; lia. }
  rewrite Z4.
  assert (Hin : a <= setMilliseconds
                       (setSeconds (setMinutes (setHours (dn * MS_PER_DAY) (hours tm))
                                               (minutes tm)) (seconds tm)) ms < b).
  { rewrite E1, E2, E3, E4.
    unfold MS_PER_DAY, MS_PER_HOUR, MS_PER_MINUTE, MS_PER_SECOND in *. lia. }
  unfold Zoned.format, Zoned.formatCommitMessage.
  rewrite (localTime_steady _ Hin).
  rewrite map_app. reflexivity.
Qed.

Lemma planDay_steady (dn : Z) (count : nat) :
  a <= dn * MS_PER_DAY -> dn * MS_PER_DAY + MS_PER_DAY <= b ->
  forall (plan : list CommitPlan) (ci : Z) (n : nat),
  statesAgree off
    (Zoned.planDay zone random config (dn * MS_PER_DAY - off) count
                   (map (atOffset off) plan, ci) n)
    (planDay random config (dn * MS_PER_DAY) count (plan, ci) n).
Proof.
  intros Ha Hb. induction count as [|count IH]; intros plan ci n.
  - reflexivity.
  - cbn [Zoned.planDay planDay]. rewrite !bind_eq.
    rewrite (planCommit_steady dn plan ci n Ha Hb). cbn [fst snd].
    destruct (planCommit random config (dn * MS_PER_DAY) (plan, ci) n) as [[plan' ci'] n'].
    cbn [fst snd]. apply IH.
Qed.

Lemma planDays_steady (days : list Date) :
  Forall (fun day => exists dn, day = dn * MS_PER_DAY
                                /\ a <= dn * MS_PER_DAY
                                /\ dn * MS_PER_DAY + MS_PER_DAY <= b) days ->
  forall (plan : list CommitPlan) (ci : Z) (n : nat),
  statesAgree off
    (Zoned.planDays zone random config (map (fun day => day - off) days)
                    (map (atOffset off) plan, ci) n)
    (planDays random config days (plan, ci) n).
Proof.
  induction 1 as [|day days (dn & -> & Ha & Hb) _ IH]; intros plan ci n.
  - reflexivity.
  - cbn [map Zoned.planDays planDays]. rewrite !bind_eq.
    destruct (fst (shouldSkipDay random (skipProbability config) n)).
    + apply IH.
    + rewrite !(bind_eq (getRandomCommitCount random _ _)).
      rewrite !bind_eq.
      rewrite (planDay_steady dn _ Ha Hb). cbn [fst snd].
      destruct (planDay random config (dn * MS_PER_DAY) _ (plan, ci) _) as [[plan' ci'] n'].
      cbn [fst snd]. apply IH.
Qed.

End Steady.

Lemma parseISO_midnight (s : string) (d : Date) :
  parseISO s = Some d -> exists dn, d = dn * MS_PER_DAY.
Proof.
  unfold parseISO. destruct (parse_ymd s) as [[[y m] dd]|]; [|discriminate].
  destruct (_ && _); [|discriminate]. intros [= <-]. eexists. reflexivity.
Qed.

Lemma getDaysInRange_steady (zone : Zone) (off : Z) (sd ed : string) (skip : list Z)
      (s t : Date) :
  parseISO sd = Some s -> parseISO ed = Some t -> s <= t ->
  steady zone off s (t + MS_PER_DAY) ->
  Zoned.getDaysInRange zone sd ed skip
  = Ok (map (fun day => day - off)
            (filter (fun day => negb (existsb (Z.eqb (getDay day)) skip))
                    (eachDayOfInterval s t))).
Proof.
  intros Hs Ht Hle Hsteady.
  assert (Hday : 0 < MS_PER_DAY) by (unfold MS_PER_DAY; lia).
  assert (Hs' : s <= s < t + MS_PER_DAY) by lia.
  assert (Ht' : s <= t < t + MS_PER_DAY) by lia.
  unfold Zoned.getDaysInRange, Zoned.validateDateRange, Zoned.parseISO, Zoned.isAfter.
  rewrite Hs, Ht. cbn [option_map].
  rewrite (instantOf_steady zone off _ _ Hsteady s Hs').
  rewrite (instantOf_steady zone off _ _ Hsteady t Ht').
  destruct (Z.ltb_spec (t - off) (s - off)); [lia|].
  unfold Zoned.eachDayOfInterval.
  rewrite (localTime_steady zone off _ _ Hsteady s Hs').
  rewrite (localTime_steady zone off _ _ Hsteady t Ht').
  destruct (parseISO_midnight _ _ Hs) as [ds ->].
  destruct (parseISO_midnight _ _ Ht) as [dt ->].
  assert (Hdays : forall day, In day (eachDayOfInterval (ds * MS_PER_DAY) (dt * MS_PER_DAY)) ->
                              ds * MS_PER_DAY <= day < dt * MS_PER_DAY + MS_PER_DAY).
  { intros day Hin. destruct (eachDayOfInterval_In _ _ _ Hin) as (dn & -> & Hdn).
    rewrite !dayNumber_midnight in Hdn. unfold MS_PER_DAY in *. lia. }
  rewrite (map_ext_in _ (fun day => day - off)).
  2:{ intros day Hin. apply (instantOf_steady zone off _ _ Hsteady). apply Hdays. exact Hin. }
  f_equal. apply filter_map_commute.
  intros day Hin. unfold Zoned.getDay.
  rewrite (localTime_steady zone off _ _ Hsteady) by (apply Hdays; exact Hin).
  reflexivity.
Qed.

(** In a zone without a transition over the range, the plan is the one
    made on the local clock, each entry at its instant. *)
Lemma generateCommitPlan_steady (zone : Zone) (off : Z) (random : nat -> Q)
      (config : Config) (n : nat) (s t : Date) :
  parseISO (startDate config) = Some s ->
  parseISO (endDate config) = Some t ->
  steady zone off s (t + MS_PER_DAY) ->
  unit_source random ->
  valid_config config ->
  exists plan, fst (generateCommitPlan random config n) = Ok plan
    /\ fst (Zoned.generateCommitPlan zone random config n) = Ok (map (atOffset off) plan).
Proof.
  intros Hs Ht Hsteady Hrandom [Hvalid Hwindow].
  destruct (valid_dates config Hvalid) as (s' & t' & Hs' & Ht' & Hle).
  rewrite Hs in Hs'. rewrite Ht in Ht'. injection Hs' as <-. injection Ht' as <-.
  destruct (valid_times config Hvalid) as [Hstart Hend].
  unfold generateCommitPlan, Zoned.generateCommitPlan.
  rewrite (getDaysInRange_ok _ _ _ s t Hs Ht Hle).
  rewrite (getDaysInRange_steady zone off _ _ _ s t Hs Ht Hle Hsteady).
  rewrite !bind_eq. cbn [ret fst].
  eexists. split; [reflexivity|].
  assert (Hdays : Forall (fun day => exists dn, day = dn * MS_PER_DAY
                                        /\ s <= dn * MS_PER_DAY
                                        /\ dn * MS_PER_DAY + MS_PER_DAY <= t + MS_PER_DAY)
                    (filter (fun day => negb (existsb (Z.eqb (getDay day)) (skipDays config)))
                            (eachDayOfInterval s t))).
  { apply Forall_forall. intros day Hin. apply filter_In in Hin. destruct Hin as [Hin _].
    destruct (eachDayOfInterval_In _ _ _ Hin) as (dn & -> & Hdn).
    exists dn. split; [reflexivity|].
    destruct (parseISO_midnight _ _ Hs) as [ds ->].
    destruct (parseISO_midnight _ _ Ht) as [dt ->].
    rewrite !dayNumber_midnight in Hdn. unfold MS_PER_DAY. lia. }
  pose proof (planDays_steady zone off s (t + MS_PER_DAY) Hsteady random config
                Hrandom Hstart Hend Hwindow _ Hdays [] 0 n) as Hsim.
  unfold statesAgree in Hsim. cbn [map] in Hsim. rewrite Hsim. cbn [fst snd].
  f_equal. apply Array_sort_map.
  intros x y. unfold Zoned.getTime, getTime, atOffset. cbn [date]. lia.
Qed.

Lemma onLocalClock_atOffset (zone : Zone) (off a b : Z) (e : CommitPlan) :
  steady zone off a b -> a <= date e < b ->
  onLocalClock zone (atOffset off e) = e.
Proof.
  intros Hsteady He. unfold onLocalClock, atOffset. cbn [date time plan_message index].
  rewrite (localTime_steady zone off a b Hsteady _ He). destruct e. reflexivity.
Qed.

(** C4, amended.  For every valid configuration, in a time zone that has
    no transition on the days from [startDate] to [endDate], every entry
    of the plan has, on the local clock, its calendar day within
    [startDate, endDate], a weekday that is not in [skipDays], and a time
    of day from [timeRange.start] up to less than one minute past
    [timeRange.end]: the hour and minute lie within the range, and the
    drawn seconds and milliseconds come on top. *)
Theorem plan_entries_within (zone : Zone) (random : nat -> Q) (config : Config) (n : nat) :
  steadyOver zone config ->
  unit_source random ->
  valid_config config ->
  exists plan, fst (Zoned.generateCommitPlan zone random config n) = Ok plan
    /\ Forall (fun e => day_in_range config (onLocalClock zone e)
                        /\ weekday_allowed config (onLocalClock zone e)
                        /\ minute_in_window config (onLocalClock zone e)) plan.
Proof.
  intros (off & s & t & Hs & Ht & Hsteady) Hrandom Hvalid.
  destruct (generateCommitPlan_steady zone off random config n s t Hs Ht Hsteady
              Hrandom Hvalid) as (plan & Hcivil & Hzoned).
  destruct (plan_entries_on_local_clock random config n Hrandom Hvalid)
    as (plan' & Hcivil' & Hall).
  rewrite Hcivil in Hcivil'. injection Hcivil' as <-.
  exists (map (atOffset off) plan). split; [exact Hzoned|].
  apply Forall_map. revert Hall. apply Forall_impl.
  intros e (Hday & Hweek & Hminute).
  assert (He : s <= date e < t + MS_PER_DAY).
  { destruct Hday as (s' & t' & Hs' & Ht' & Hd).
    rewrite Hs in Hs'. rewrite Ht in Ht'. injection Hs' as <-. injection Ht' as <-.
    destruct (parseISO_midnight _ _ Hs) as [ds ->].
    destruct (parseISO_midnight _ _ Ht) as [dt ->].
    rewrite !dayNumber_midnight in Hd. unfold dayNumber in Hd.
    assert (Hpos : 0 < MS_PER_DAY) by (unfold MS_PER_DAY; lia).
    pose proof (Z.mul_div_le (date e) MS_PER_DAY Hpos).
    pose proof (Z.mod_pos_bound (date e) MS_PER_DAY Hpos).
    pose proof (Z.div_mod (date e) MS_PER_DAY ltac:(lia)).
    nia. }
  rewrite (onLocalClock_atOffset zone off _ _ e Hsteady He). auto.
Qed.

(** ** Counting the entries *)

Section PlanCount.

Variable random : nat -> Q.
Variable config : Config.

Lemma planCommit_length (day : Date) (st : PlanState) (n : nat) :
  List.length (fst (fst (planCommit random config day st n))) = S (List.length (fst st)).
Proof.
  destruct st as [plan ci].
  destruct (planCommit_shape random config day plan ci n) as (e & -> & _).
  cbn [fst]. rewrite length_app. cbn. lia.
Qed.

Lemma planDay_length (day : Date) (count : nat) (st : PlanState) (n : nat) :
  List.length (fst (fst (planDay random config day count st n)))
  = (List.length (fst st) + count)%nat.
Proof.
  revert st n. induction count as [|count IH]; intros st n; cbn [planDay].
  - cbn. lia.
  - rewrite bind_eq, IH, planCommit_length. lia.
Qed.

Variable k : Z.
Hypothesis random_unit : unit_source random.
Hypothesis never_skip : (skipProbability config == 0)%Q.
Hypothesis min_k : cpd_min (commitsPerDay config) = k.
Hypothesis max_k : cpd_max (commitsPerDay config) = k.

Lemma shouldSkipDay_never (n : nat) :
  fst (shouldSkipDay random (skipProbability config) n) = false.
Proof.
  unfold shouldSkipDay, Math_random, bind, ret. cbn [fst].
  apply negb_false_iff. apply Qle_bool_iff.
  rewrite never_skip. apply (random_unit n).
Qed.

Lemma getRandomCommitCount_fixed (n : nat) :
  fst (getRandomCommitCount random (cpd_min (commitsPerDay config))
         (cpd_max (commitsPerDay config)) n) = k.
Proof.
  unfold getRandomCommitCount, Math_random, bind, ret. cbn [fst].
  rewrite min_k, max_k. replace (k - k + 1) with 1 by lia.
  rewrite floor_scaled_one by apply random_unit. lia.
Qed.

Lemma planDays_length (days : list Date) (st : PlanState) (n : nat) :
  List.length (fst (fst (planDays random config days st n)))
  = (List.length (fst st) + List.length days * Z.to_nat k)%nat.
Proof.
  revert st n. induction days as [|day days IH]; intros st n; cbn [planDays].
  - cbn. lia.
  - rewrite bind_eq, shouldSkipDay_never.
    rewrite bind_eq, getRandomCommitCount_fixed, bind_eq.
    rewrite IH, planDay_length. cbn [List.length]. lia.
Qed.

End PlanCount.

(** C8.  With [skipProbability = 0], no [skipDays] and
    [commitsPerDay.min = commitsPerDay.max = k], the plan has exactly
    [D * k] entries, [D] being the number of calendar days from
    [startDate] to [endDate], both included. *)
Theorem plan_length_fixed_count (random : nat -> Q) (config : Config) (n : nat) (k : Z)
    (s t : Date) :
  unit_source random ->
  (skipProbability config == 0)%Q ->
  skipDays config = [] ->
  cpd_min (commitsPerDay config) = k ->
  cpd_max (commitsPerDay config) = k ->
  0 <= k ->
  parseISO (startDate config) = Some s ->
  parseISO (endDate config) = Some t ->
  s <= t ->
  exists plan, fst (generateCommitPlan random config n) = Ok plan
               /\ Z.of_nat (List.length plan) = calendarDays s t * k.
Proof.
  intros Hrandom Hp Hskip Hmin Hmax Hk Hs Ht Hle.
  unfold generateCommitPlan.
  rewrite (getDaysInRange_ok _ _ _ s t Hs Ht Hle), Hskip.
  rewrite bind_eq. cbn [ret fst].
  eexists. split; [reflexivity|].
  rewrite Array_sort_length.
  rewrite (planDays_length random config k Hrandom Hp Hmin Hmax).
  cbn [fst List.length existsb negb].
  rewrite forallb_filter_id by (apply forallb_forall; reflexivity).
  rewrite eachDayOfInterval_length. unfold calendarDays.
  assert (dayNumber s <= dayNumber t).
  { unfold dayNumber. apply Z.div_le_mono; [unfold MS_PER_DAY|]; lia. }
  rewrite Nat.add_0_l, Nat2Z.inj_mul, !Z2Nat.id by lia. reflexivity.
Qed.

(** ** Rounding to binary64 *)

Section Rounding.

Import Binary64.

Lemma two_neq_0 : ~ (2 == 0)%Q.
Proof. discriminate. Qed.

Lemma pow2_pos (e : Z) : (0 < 2 ^ e)%Q.
Proof. apply Qpower_0_lt. reflexivity. Qed.

Lemma pow2_plus (a b : Z) : (2 ^ (a + b) == 2 ^ a * 2 ^ b)%Q.
Proof. apply Qpower_plus, two_neq_0. Qed.

Lemma pow2_le (a b : Z) : a <= b -> (2 ^ a <= 2 ^ b)%Q.
Proof. intros H. apply Qpower_le_compat_l; [exact H | discriminate]. Qed.

Lemma pow2_lt_inv (a b : Z) : (2 ^ a < 2 ^ b)%Q -> a < b.
Proof. intros H. apply (Qpower_lt_compat_l_inv 2); [exact H | reflexivity]. Qed.

Lemma pow2_cancel (e : Z) : (2 ^ (- e) * 2 ^ e == 1)%Q.
Proof. rewrite <- pow2_plus. replace (- e + e) with 0 by lia. reflexivity. Qed.

Lemma pow2_Z (n : Z) : 0 <= n -> (inject_Z (2 ^ n) == 2 ^ n)%Q.
Proof. intros H. apply (Zpower_Qpower 2 n H). Qed.

(** [exponent x] is the binade of [x]. *)
Lemma exponent_spec (x : Q) :
  (0 < x)%Q -> (2 ^ exponent x <= x)%Q /\ (x < 2 ^ (exponent x + 1))%Q.
Proof.
  intros Hx. destruct x as [n d].
  assert (Hn : 0 < n) by (unfold Qlt in Hx; cbn in Hx; lia).
  unfold exponent. cbn [Qnum Qden].
  pose proof (Z.log2_spec n Hn) as [Hn1 Hn2].
  pose proof (Z.log2_spec (Zpos d) ltac:(lia)) as [Hd1 Hd2].
  pose proof (Z.log2_nonneg n) as Hln. pose proof (Z.log2_nonneg (Zpos d)) as Hld.
  set (ln := Z.log2 n) in *. set (ld := Z.log2 (Zpos d)) in *.
  assert (Hxd : ((n # d) * inject_Z (Zpos d) == inject_Z n)%Q).
  { rewrite (Qmake_Qdiv n d). field. discriminate. }
  assert (Hdpos : (0 < inject_Z (Zpos d))%Q) by reflexivity.
  (* lower bound 2^(ln - ld - 1), upper bound 2^(ln - ld + 1) *)
  assert (Hlow : (2 ^ (ln - ld - 1) <= n # d)%Q).
  { apply (Qmult_le_r _ _ (2 ^ (ld + 1))); [apply pow2_pos|].
    rewrite <- pow2_plus. replace (ln - ld - 1 + (ld + 1)) with ln by lia.
    apply Qle_trans with (inject_Z n).
    - rewrite <- pow2_Z by lia. rewrite <- Zle_Qle. exact Hn1.
    - rewrite <- Hxd. apply Qmult_le_l; [exact Hx|].
      rewrite <- pow2_Z by lia. rewrite <- Zle_Qle. change (Z.succ ld) with (ld + 1) in Hd2.
      lia. }
  assert (Hhigh : (n # d < 2 ^ (ln - ld + 1))%Q).
  { apply (Qmult_lt_r _ _ (2 ^ ld)); [apply pow2_pos|].
    rewrite <- pow2_plus. replace (ln - ld + 1 + ld) with (ln + 1) by lia.
    apply Qle_lt_trans with (inject_Z n).
    - rewrite <- Hxd. apply Qmult_le_l; [exact Hx|].
      rewrite <- pow2_Z by lia. rewrite <- Zle_Qle. exact Hd1.
    - rewrite <- pow2_Z by lia. rewrite <- Zlt_Qlt. exact Hn2. }
  destruct (Qle_bool (2 ^ (ln - ld)) (n # d)) eqn:E.
  - apply Qle_bool_iff in E. split; assumption.
  - split; [exact Hlow|].
    replace (ln - ld - 1 + 1) with (ln - ld) by lia.
    apply Qnot_le_lt. intros H. apply Qle_bool_iff in H. congruence.
Qed.

Lemma exponent_unique (x : Q) (e : Z) :
  (2 ^ e <= x)%Q -> (x < 2 ^ (e + 1))%Q -> exponent x = e.
Proof.
  intros Hlo Hhi.
  assert (Hx : (0 < x)%Q) by (eapply Qlt_le_trans; [apply pow2_pos | exact Hlo]).
  destruct (exponent_spec x Hx) as [Hlo' Hhi'].
  assert (e < exponent x + 1)
    by (apply pow2_lt_inv; eapply Qle_lt_trans; eassumption).
  assert (exponent x < e + 1)
    by (apply pow2_lt_inv; eapply Qle_lt_trans; eassumption).
  lia.
Qed.

Lemma compare_Lt (x y : Q) : (x ?= y)%Q = Lt <-> (x < y)%Q.
Proof. symmetry. apply Qlt_alt. Qed.

Lemma compare_Eq (x y : Q) : (x ?= y)%Q = Eq <-> (x == y)%Q.
Proof. symmetry. apply Qeq_alt. Qed.

Lemma compare_Gt (x y : Q) : (x ?= y)%Q = Gt <-> (y < x)%Q.
Proof. symmetry. apply Qgt_alt. Qed.

Lemma nearestEven_comp (x y : Q) : (x == y)%Q -> nearestEven x = nearestEven y.
Proof.
  intros H. unfold nearestEven. rewrite (Qfloor_comp x y H).
  assert (Hc : (x - inject_Z (Qfloor y) ?= 1 # 2)%Q = (y - inject_Z (Qfloor y) ?= 1 # 2)%Q)
    by (rewrite H; reflexivity).
  rewrite Hc. reflexivity.
Qed.

Lemma nearestEven_between (x : Q) : Qfloor x <= nearestEven x <= Qfloor x + 1.
Proof.
  unfold nearestEven. destruct (_ ?= _)%Q; [destruct (Z.even _)| |]; lia.
Qed.

Lemma nearestEven_Z (k : Z) : nearestEven (inject_Z k) = k.
Proof.
  unfold nearestEven. rewrite Qfloor_Z.
  assert (H : (inject_Z k - inject_Z k ?= 1 # 2)%Q = Lt).
  { apply (proj2 (compare_Lt _ _)). lra. }
  rewrite H. reflexivity.
Qed.

Lemma nearestEven_le (x y : Q) : (x <= y)%Q -> nearestEven x <= nearestEven y.
Proof.
  intros Hxy. pose proof (Qfloor_resp_le x y Hxy) as Hf.
  pose proof (nearestEven_between x). pose proof (nearestEven_between y).
  destruct (Z.eq_dec (Qfloor x) (Qfloor y)) as [E|]; [|lia].
  unfold nearestEven. rewrite E.
  destruct (x - inject_Z (Qfloor y) ?= 1 # 2)%Q eqn:Cx;
    destruct (y - inject_Z (Qfloor y) ?= 1 # 2)%Q eqn:Cy;
    try (destruct (Z.even (Qfloor y))); try lia; exfalso;
    generalize dependent (inject_Z (Qfloor y)); intros fy Cx Cy;
    repeat match goal with
           | H : Qcompare _ _ = Lt |- _ => apply (proj1 (compare_Lt _ _)) in H
           | H : Qcompare _ _ = Eq |- _ => apply (proj1 (compare_Eq _ _)) in H
           | H : Qcompare _ _ = Gt |- _ => apply (proj1 (compare_Gt _ _)) in H
           end; lra.
Qed.

(** *** Rounding to the multiples of a power of two *)

Lemma roundAt_le (e : Z) (x y : Q) : (x <= y)%Q -> (roundAt e x <= roundAt e y)%Q.
Proof.
  intros Hxy. unfold roundAt.
  apply Qmult_le_compat_r; [|apply Qlt_le_weak, pow2_pos].
  rewrite <- Zle_Qle. apply nearestEven_le.
  apply Qmult_le_compat_r; [exact Hxy | apply Qlt_le_weak, pow2_pos].
Qed.

Lemma roundAt_fixed (e k : Z) : (roundAt e (inject_Z k * 2 ^ e) == inject_Z k * 2 ^ e)%Q.
Proof.
  unfold roundAt.
  assert (Hs : (inject_Z k * 2 ^ e * 2 ^ (- e) == inject_Z k)%Q).
  { rewrite <- Qmult_assoc, (Qmult_comm (2 ^ e)), pow2_cancel. ring. }
  rewrite (nearestEven_comp _ _ Hs), nearestEven_Z. reflexivity.
Qed.

Lemma roundAt_power (e k : Z) : 0 <= k -> (roundAt e (2 ^ (k + e)) == 2 ^ (k + e))%Q.
Proof.
  intros Hk.
  assert (H : (2 ^ (k + e) == inject_Z (2 ^ k) * 2 ^ e)%Q)
    by (rewrite pow2_Z, <- pow2_plus by lia; reflexivity).
  unfold roundAt at 1. rewrite (nearestEven_comp _ (inject_Z (2 ^ k) * 2 ^ e * 2 ^ (- e))).
  - fold (roundAt e (inject_Z (2 ^ k) * 2 ^ e)). rewrite roundAt_fixed. symmetry. exact H.
  - rewrite H. reflexivity.
Qed.

Lemma roundAt_nonneg (e : Z) (x : Q) : (0 <= x)%Q -> (0 <= roundAt e x)%Q.
Proof.
  intros Hx.
  assert (H0 : (roundAt e 0 == 0)%Q).
  { unfold roundAt. rewrite (nearestEven_comp _ (inject_Z 0)) by ring.
    rewrite nearestEven_Z. ring. }
  rewrite <- H0. apply roundAt_le. exact Hx.
Qed.

Lemma roundAt_double (e : Z) (x : Q) : (roundAt (1 + e) (2 * x) == 2 * roundAt e x)%Q.
Proof.
  unfold roundAt.
  assert (Hs : (2 * x * 2 ^ (- (1 + e)) == x * 2 ^ (- e))%Q).
  { replace (- (1 + e)) with (- e + -1) by lia. rewrite pow2_plus.
    change (2 ^ (-1))%Q with (1 # 2)%Q. ring. }
  rewrite (nearestEven_comp _ _ Hs), pow2_plus. change (2 ^ 1)%Q with 2%Q. ring.
Qed.

(** *** Numbers with a full significand *)

Lemma exponent_normal (x : Q) :
  (2 ^ MIN_EXPONENT <= x)%Q -> MIN_EXPONENT <= exponent x.
Proof.
  intros Hx.
  assert (Hpos : (0 < x)%Q) by (eapply Qlt_le_trans; [apply pow2_pos | exact Hx]).
  destruct (exponent_spec x Hpos) as [_ Hhi].
  assert (MIN_EXPONENT < exponent x + 1)
    by (apply pow2_lt_inv; eapply Qle_lt_trans; eassumption).
  lia.
Qed.

Lemma roundPositive_normal (x : Q) :
  (2 ^ MIN_EXPONENT <= x)%Q -> roundPositive x = roundAt (exponent x - 52) x.
Proof.
  intros Hx. unfold roundPositive.
  rewrite Z.max_l by (apply exponent_normal; exact Hx). reflexivity.
Qed.

Lemma exponent_le (x y : Q) : (0 < x)%Q -> (x <= y)%Q -> exponent x <= exponent y.
Proof.
  intros Hx Hxy.
  destruct (exponent_spec x Hx) as [Hlo _].
  destruct (exponent_spec y (Qlt_le_trans _ _ _ Hx Hxy)) as [_ Hhi].
  assert (exponent x < exponent y + 1)
    by (apply pow2_lt_inv; eapply Qle_lt_trans; [|exact Hhi];
        eapply Qle_trans; eassumption).
  lia.
Qed.

(** A positive number rounds to a number of its binade, or to the power
    of two that ends it. *)
Lemma roundPositive_bounds (x : Q) (e : Z) :
  (0 < x)%Q -> e = Z.max (exponent x) MIN_EXPONENT ->
  (roundPositive x <= 2 ^ (e + 1))%Q
  /\ (MIN_EXPONENT <= exponent x -> (2 ^ e <= roundPositive x)%Q).
Proof.
  intros Hx He. destruct (exponent_spec x Hx) as [Hlo Hhi].
  unfold roundPositive. rewrite <- He. split.
  - replace (e + 1) with (53 + (e - 52)) by lia.
    rewrite <- (roundAt_power (e - 52) 53) by lia.
    apply roundAt_le. apply Qlt_le_weak. eapply Qlt_le_trans; [exact Hhi|].
    apply pow2_le. lia.
  - intros Hnormal. replace e with (52 + (e - 52)) at 1 by lia.
    rewrite <- (roundAt_power (e - 52) 52) by lia.
    apply roundAt_le. replace (52 + (e - 52)) with (exponent x) by lia. exact Hlo.
Qed.

Lemma roundPositive_le (x y : Q) :
  (0 < x)%Q -> (x <= y)%Q -> (roundPositive x <= roundPositive y)%Q.
Proof.
  intros Hx Hxy.
  assert (Hy : (0 < y)%Q) by (eapply Qlt_le_trans; eassumption).
  pose proof (exponent_le x y Hx Hxy) as He.
  destruct (Z.eq_dec (Z.max (exponent x) MIN_EXPONENT) (Z.max (exponent y) MIN_EXPONENT))
    as [E|Hne].
  - unfold roundPositive. rewrite E. apply roundAt_le. exact Hxy.
  - destruct (roundPositive_bounds x _ Hx eq_refl) as [Hhi _].
    destruct (roundPositive_bounds y _ Hy eq_refl) as [_ Hlo].
    eapply Qle_trans; [exact Hhi|]. eapply Qle_trans; [|apply Hlo; lia].
    apply pow2_le. lia.
Qed.

Lemma roundPositive_nonneg (x : Q) : (0 < x)%Q -> (0 <= roundPositive x)%Q.
Proof. intros Hx. apply roundAt_nonneg, Qlt_le_weak, Hx. Qed.

Lemma roundPositive_double (x : Q) :
  (2 ^ MIN_EXPONENT <= x)%Q -> (roundPositive (2 * x) == 2 * roundPositive x)%Q.
Proof.
  intros Hn.
  assert (Hx : (0 < x)%Q) by (eapply Qlt_le_trans; [apply pow2_pos | exact Hn]).
  destruct (exponent_spec x Hx) as [Hlo Hhi].
  assert (He : exponent (2 * x) = exponent x + 1).
  { apply exponent_unique.
    - rewrite pow2_plus. rewrite (Qmult_comm (2 ^ exponent x)).
      change (2 ^ 1)%Q with 2%Q. apply Qmult_le_l; [reflexivity | exact Hlo].
    - rewrite (pow2_plus (exponent x + 1) 1). rewrite (Qmult_comm (2 ^ (exponent x + 1))).
      change (2 ^ 1)%Q with 2%Q. apply Qmult_lt_l; [reflexivity | exact Hhi]. }
  pose proof (exponent_normal x Hn) as Hmin.
  unfold roundPositive. rewrite He, !Z.max_l by lia.
  replace (exponent x + 1 - 52) with (1 + (exponent x - 52)) by lia.
  apply roundAt_double.
Qed.

Lemma roundPositive_idempotent (x : Q) :
  (2 ^ MIN_EXPONENT <= x)%Q -> (roundPositive (roundPositive x) == roundPositive x)%Q.
Proof.
  intros Hn.
  assert (Hx : (0 < x)%Q) by (eapply Qlt_le_trans; [apply pow2_pos | exact Hn]).
  pose proof (exponent_normal x Hn) as Hmin.
  destruct (roundPositive_bounds x _ Hx eq_refl) as [Hhi Hlo].
  specialize (Hlo Hmin). rewrite Z.max_l in Hhi, Hlo by exact Hmin.
  rewrite (roundPositive_normal x Hn) in *.
  set (e := exponent x - 52) in *.
  unfold roundAt in Hhi, Hlo |- *. set (m := nearestEven _) in *.
  assert (Hm : 2 ^ 52 <= m <= 2 ^ 53).
  { split.
    - rewrite Zle_Qle. apply (Qmult_le_r _ _ (2 ^ e)); [apply pow2_pos|].
      rewrite pow2_Z, <- pow2_plus by lia.
      replace (52 + e) with (exponent x) by (unfold e; lia). exact Hlo.
    - rewrite Zle_Qle. apply (Qmult_le_r _ _ (2 ^ e)); [apply pow2_pos|].
      rewrite (pow2_Z 53), <- pow2_plus by lia.
      replace (53 + e) with (exponent x + 1) by (unfold e; lia). exact Hhi. }
  destruct (Z.eq_dec m (2 ^ 53)) as [Htop|Hne].
  - (* the significand has rounded up to the next power of two *)
    assert (Hy : (inject_Z m * 2 ^ e == 2 ^ (53 + e))%Q)
      by (rewrite Htop, pow2_Z, <- pow2_plus by lia; reflexivity).
    assert (He : exponent (inject_Z m * 2 ^ e) = 53 + e).
    { apply exponent_unique; rewrite Hy; [apply Qle_refl|].
      apply Qpower_lt_compat_l; [lia | reflexivity]. }
    unfold roundPositive. rewrite He, Z.max_l by (unfold e; lia).
    replace (53 + e - 52) with (1 + e) by lia.
    assert (Hs : (inject_Z m * 2 ^ e == inject_Z (2 ^ 52) * 2 ^ (1 + e))%Q).
    { rewrite Hy, pow2_Z, <- pow2_plus by lia. replace (52 + (1 + e)) with (53 + e) by lia.
      reflexivity. }
    unfold roundAt at 1.
    rewrite (nearestEven_comp _ (inject_Z (2 ^ 52) * 2 ^ (1 + e) * 2 ^ (- (1 + e)))).
    + fold (roundAt (1 + e) (inject_Z (2 ^ 52) * 2 ^ (1 + e))).
      rewrite roundAt_fixed. symmetry. exact Hs.
    + rewrite Hs. reflexivity.
  - assert (He : exponent (inject_Z m * 2 ^ e) = 52 + e).
    { apply exponent_unique.
      - rewrite pow2_plus. apply Qmult_le_compat_r; [|apply Qlt_le_weak, pow2_pos].
        rewrite <- pow2_Z by lia. rewrite <- Zle_Qle. lia.
      - replace (52 + e + 1) with (53 + e) by lia. rewrite pow2_plus.
        apply Qmult_lt_compat_r; [apply pow2_pos|].
        rewrite <- pow2_Z by lia. rewrite <- Zlt_Qlt. lia. }
    unfold roundPositive. rewrite He, Z.max_l by (unfold e; lia).
    replace (52 + e - 52) with e by lia.
    apply roundAt_fixed.
Qed.

(** *** The facts of rounding that the estimate needs *)

Lemma round_positive (x : Q) : (0 < x)%Q -> round x = roundPositive x.
Proof.
  intros Hx. unfold round.
  rewrite (proj2 (compare_Lt 0 x) Hx). reflexivity.
Qed.

Lemma round_nonneg (x : Q) : (0 <= x)%Q -> (0 <= round x)%Q.
Proof.
  intros Hx. unfold round. destruct (0 ?= x)%Q eqn:C.
  - apply Qle_refl.
  - apply roundPositive_nonneg. apply (proj1 (compare_Lt _ _)). exact C.
  - apply (proj1 (compare_Gt _ _)) in C. exfalso. apply (Qlt_not_le _ _ C Hx).
Qed.

Lemma round_le (x y : Q) : (0 <= x)%Q -> (x <= y)%Q -> (round x <= round y)%Q.
Proof.
  intros Hx Hxy. unfold round at 1. destruct (0 ?= x)%Q eqn:C.
  - apply round_nonneg. eapply Qle_trans; eassumption.
  - apply (proj1 (compare_Lt _ _)) in C.
    rewrite round_positive by (eapply Qlt_le_trans; eassumption).
    apply roundPositive_le; assumption.
  - apply (proj1 (compare_Gt _ _)) in C. exfalso. apply (Qlt_not_le _ _ C Hx).
Qed.

Lemma round_comp (x y : Q) : (0 <= x)%Q -> (x == y)%Q -> (round x == round y)%Q.
Proof.
  intros Hx Hxy.
  assert (Hy : (0 <= y)%Q) by (rewrite <- Hxy; exact Hx).
  apply Qle_antisym; apply round_le; try assumption; rewrite Hxy; apply Qle_refl.
Qed.

Lemma round_double (x : Q) :
  (2 ^ MIN_EXPONENT <= x)%Q -> (round (2 * x) == 2 * round x)%Q.
Proof.
  intros Hn.
  assert (Hx : (0 < x)%Q) by (eapply Qlt_le_trans; [apply pow2_pos | exact Hn]).
  rewrite !round_positive by lra. apply roundPositive_double. exact Hn.
Qed.

Lemma round_idempotent (x : Q) :
  (2 ^ MIN_EXPONENT <= x)%Q -> (round (round x) == round x)%Q.
Proof.
  intros Hn.
  assert (Hx : (0 < x)%Q) by (eapply Qlt_le_trans; [apply pow2_pos | exact Hn]).
  pose proof (exponent_normal x Hn) as Hmin.
  destruct (roundPositive_bounds x _ Hx eq_refl) as [_ Hlo]. specialize (Hlo Hmin).
  assert (Hr : (0 < roundPositive x)%Q) by (eapply Qlt_le_trans; [apply pow2_pos | exact Hlo]).
  rewrite (round_positive x Hx), (round_positive _ Hr).
  apply roundPositive_idempotent. exact Hn.
Qed.

Lemma Qfloor_zero (x : Q) : (0 <= x)%Q -> (x < 1)%Q -> Qfloor x = 0.
Proof.
  intros H0 H1.
  assert (0 <= Qfloor x) by (change 0 with (Qfloor 0); apply Qfloor_resp_le; exact H0).
  assert (Qfloor x < 1).
  { rewrite Zlt_Qlt. eapply Qle_lt_trans; [apply Qfloor_le | exact H1]. }
  lia.
Qed.

Lemma round_half : (round (1 # 2) == 1 # 2)%Q.
Proof. vm_compute. reflexivity. Qed.

Lemma round_quarter : (round (1 # 4) == 1 # 4)%Q.
Proof. vm_compute. reflexivity. Qed.

Lemma round_one : (round 1 == 1)%Q.
Proof. vm_compute. reflexivity. Qed.

Lemma quarter_normal : (2 ^ MIN_EXPONENT <= 1 # 4)%Q.
Proof. change (1 # 4)%Q with (2 ^ (-2))%Q. apply pow2_le. unfold MIN_EXPONENT. lia. Qed.

(** Halving a rounded number with a full significand is exact. *)
Lemma round_half_of_rounded (x : Q) :
  (1 # 2 <= x)%Q -> (round (round x / inject_Z 2) == round x / inject_Z 2)%Q.
Proof.
  intros Hx. pose proof quarter_normal as Hq.
  assert (Hr : (1 # 2 <= round x)%Q)
    by (rewrite <- round_half; apply round_le; [lra | exact Hx]).
  assert (Hd : (round (2 * (round x / inject_Z 2)) == 2 * round (round x / inject_Z 2))%Q).
  { apply round_double. change (inject_Z 2) with 2%Q.
    eapply Qle_trans; [exact Hq|].
    apply Qle_shift_div_l; [reflexivity | lra]. }
  assert (Hi : (round (round x) == round x)%Q) by (apply round_idempotent; lra).
  assert (Hc : (round (2 * (round x / inject_Z 2)) == round (round x))%Q).
  { apply round_comp.
    - change (inject_Z 2) with 2%Q.
      apply Qmult_le_0_compat; [lra|]. apply Qle_shift_div_l; [reflexivity | lra].
    - change (inject_Z 2) with 2%Q. field. }
  rewrite Hc, Hi in Hd. change (inject_Z 2) with 2%Q in *.
  set (m := round (round x / 2)) in *. set (r := round x) in *.
  apply Qle_antisym.
  - apply Qle_shift_div_l; [reflexivity | lra].
  - apply Qle_shift_div_r; [reflexivity | lra].
Qed.

Lemma rounded_estimate_order (e : Q) (a b : Z) :
  (0 <= e)%Q -> 0 <= a -> a <= b ->
  Qfloor (round (e * inject_Z a))
  <= Qfloor (round (round (e * inject_Z (a + b)) / inject_Z 2))
  /\ Qfloor (round (round (e * inject_Z (a + b)) / inject_Z 2))
     <= Qfloor (round (e * inject_Z b)).
Proof.
  intros He Ha Hab.
  assert (Ha' : (0 <= inject_Z a)%Q) by (change 0%Q with (inject_Z 0); rewrite <- Zle_Qle; lia).
  assert (Hab' : (inject_Z a <= inject_Z b)%Q) by (rewrite <- Zle_Qle; exact Hab).
  assert (Hea : (0 <= e * inject_Z a)%Q) by (apply Qmult_le_0_compat; assumption).
  assert (Hprod : (e * inject_Z a <= e * inject_Z b)%Q).
  { rewrite (Qmult_comm e (inject_Z a)), (Qmult_comm e (inject_Z b)).
    apply Qmult_le_compat_r; assumption. }
  assert (Hsum : (e * inject_Z (a + b) == e * inject_Z a + e * inject_Z b)%Q)
    by (rewrite inject_Z_plus; ring).
  set (x := (e * inject_Z (a + b))%Q) in *.
  set (ea := (e * inject_Z a)%Q) in *. set (eb := (e * inject_Z b)%Q) in *.
  assert (Hx0 : (0 <= x)%Q) by lra.
  pose proof quarter_normal as Hq.
  destruct (Qlt_le_dec eb (1 # 2)) as [Hsmall|Hbig].
  - (* every number is below 1 *)
    assert (Hfa : (round ea <= 1 # 2)%Q)
      by (rewrite <- round_half; apply round_le; lra).
    assert (Hp : (round x <= 1)%Q)
      by (rewrite <- round_one; apply round_le; lra).
    assert (Hp0 : (0 <= round x)%Q) by (apply round_nonneg; exact Hx0).
    assert (Hh0 : (0 <= round x / inject_Z 2)%Q).
    { change (inject_Z 2) with 2%Q. apply Qle_shift_div_l; [reflexivity | lra]. }
    assert (Hh1 : (round x / inject_Z 2 <= 1 # 2)%Q).
    { change (inject_Z 2) with 2%Q. apply Qle_shift_div_r; [reflexivity | lra]. }
    assert (Hm : (round (round x / inject_Z 2) <= 1 # 2)%Q)
      by (rewrite <- round_half; apply round_le; assumption).
    rewrite (Qfloor_zero (round ea)) by (try apply round_nonneg; lra).
    rewrite (Qfloor_zero (round (round x / inject_Z 2))) by (try apply round_nonneg; lra).
    split; [lia|]. change 0 with (Qfloor 0). apply Qfloor_resp_le, round_nonneg. lra.
  - assert (Hx : (1 # 2 <= x)%Q) by lra.
    assert (Hr : (1 # 2 <= round x)%Q)
      by (rewrite <- round_half; apply round_le; [lra | exact Hx]).
    pose proof (round_half_of_rounded x Hx) as Hhalf.
    rewrite (Qfloor_comp _ _ Hhalf).
    change (inject_Z 2) with 2%Q.
    split; apply Qfloor_resp_le.
    + destruct (Qlt_le_dec ea (1 # 4)) as [Hlow|Hnormal].
      * apply Qle_trans with (1 # 4)%Q.
        -- rewrite <- round_quarter. apply round_le; lra.
        -- apply Qle_shift_div_l; [reflexivity | lra].
      * apply Qle_shift_div_l; [reflexivity|].
        assert (Hd : (round (2 * ea) == 2 * round ea)%Q) by (apply round_double; lra).
        rewrite Qmult_comm, <- Hd. apply round_le; lra.
    + apply Qle_shift_div_r; [reflexivity|].
      assert (Hd : (round (2 * eb) == 2 * round eb)%Q) by (apply round_double; lra).
      rewrite Qmult_comm, <- Hd. apply round_le; lra.
Qed.

(** An integer below [2 ^ 53] is a binary64 number. *)
Lemma round_integer (k : Z) : 0 <= k < 2 ^ 53 -> (round (inject_Z k) == inject_Z k)%Q.
Proof.
  intros Hk. destruct (Z.eq_dec k 0) as [->|Hne]; [reflexivity|].
  assert (Hpos : 0 < k) by lia.
  destruct (Z.log2_spec k Hpos) as [Hlo Hhi].
  pose proof (Z.log2_nonneg k) as He0.
  assert (He : Z.log2 k < 53).
  { apply Z.log2_lt_pow2; lia. }
  set (e := Z.log2 k) in *.
  assert (Hq : (0 < inject_Z k)%Q) by (change 0%Q with (inject_Z 0); rewrite <- Zlt_Qlt; lia).
  assert (Hexp : exponent (inject_Z k) = e).
  { apply exponent_unique.
    - rewrite <- pow2_Z by lia. rewrite <- Zle_Qle. exact Hlo.
    - rewrite <- pow2_Z by lia. rewrite <- Zlt_Qlt. change (Z.succ e) with (e + 1) in Hhi.
      exact Hhi. }
  rewrite (round_positive _ Hq). unfold roundPositive.
  rewrite Hexp, Z.max_l by (unfold MIN_EXPONENT; lia).
  assert (Hk' : (inject_Z k == inject_Z (k * 2 ^ (52 - e)) * 2 ^ (e - 52))%Q).
  { rewrite inject_Z_mult, pow2_Z by lia. rewrite <- Qmult_assoc, <- pow2_plus.
    replace (52 - e + (e - 52)) with 0 by lia. change (2 ^ 0)%Q with 1%Q. ring. }
  unfold roundAt at 1.
  rewrite (nearestEven_comp _ (inject_Z (k * 2 ^ (52 - e)) * 2 ^ (e - 52) * 2 ^ (- (e - 52)))).
  - fold (roundAt (e - 52) (inject_Z (k * 2 ^ (52 - e)) * 2 ^ (e - 52))).
    rewrite roundAt_fixed. symmetry. exact Hk'.
  - rewrite <- Hk'. reflexivity.
Qed.

End Rounding.

(** ** The estimate *)

Lemma midpoint_between (x y : Q) :
  (x <= y)%Q -> (x <= (x + y) / 2)%Q /\ ((x + y) / 2 <= y)%Q.
Proof.
  intros H. change ((x + y) / 2)%Q with ((x + y) * (1 # 2))%Q. split; lra.
Qed.

Lemma estimate_order (e : Q) (a b : Z) :
  (0 <= e)%Q -> a <= b ->
  Qfloor (e * inject_Z a) <= Qfloor (e * inject_Z (a + b) / inject_Z 2)
  /\ Qfloor (e * inject_Z (a + b) / inject_Z 2) <= Qfloor (e * inject_Z b).
Proof.
  intros He Hab.
  assert (Hab' : (inject_Z a <= inject_Z b)%Q) by (rewrite <- Zle_Qle; exact Hab).
  assert (Hmid : (e * inject_Z (a + b) / inject_Z 2
                  == (e * inject_Z a + e * inject_Z b) / 2)%Q).
  { rewrite inject_Z_plus. change (inject_Z 2) with 2%Q. field. }
  assert (Hprod : (e * inject_Z a <= e * inject_Z b)%Q).
  { rewrite (Qmult_comm e (inject_Z a)), (Qmult_comm e (inject_Z b)).
    apply Qmult_le_compat_r; assumption. }
  destruct (midpoint_between _ _ Hprod) as [Hlo Hhi].
  split; apply Qfloor_resp_le; rewrite Hmid; assumption.
Qed.

(** The estimate with exact products is ordered. *)
Lemma exact_estimate_ordered (config : Config) :
  Validator.validateConfig config = true ->
  exists est, estimateCommitCount config = Ok est
              /\ est_min est <= est_expected est <= est_max est.
Proof.
  intros Hvalid.
  destruct (valid_dates config Hvalid) as (s & t & Hs & Ht & Hle).
  unfold estimateCommitCount.
  rewrite (getDaysInRange_ok _ _ _ s t Hs Ht Hle).
  eexists. split; [reflexivity|]. cbn [est_min est_max est_expected].
  unfold Validator.validateConfig in Hvalid. rewrite !andb_true_iff in Hvalid.
  destruct Hvalid as [[[[[[[_ _] _] Hcpd] _] _] Hp] _].
  unfold Validator.isValidCommitsPerDay in Hcpd. rewrite !andb_true_iff in Hcpd.
  unfold Validator.isValidProbability in Hp. rewrite andb_true_iff in Hp.
  destruct Hp as [Hp0 Hp1]. apply Qle_bool_iff in Hp0, Hp1.
  apply estimate_order; [|lia].
  apply Qmult_le_0_compat.
  - change 0%Q with (inject_Z 0). rewrite <- Zle_Qle. lia.
  - lra.
Qed.

(** C9.  For every valid configuration the estimate, computed with the
    rounding of JavaScript numbers, satisfies [min <= expected <= max]. *)
Theorem estimate_ordered (config : Config) :
  Validator.validateConfig config = true ->
  exists est, Floating.estimateCommitCount config = Ok est
              /\ est_min est <= est_expected est <= est_max est.
Proof.
  intros Hvalid.
  destruct (valid_dates config Hvalid) as (s & t & Hs & Ht & Hle).
  unfold Floating.estimateCommitCount.
  rewrite (getDaysInRange_ok _ _ _ s t Hs Ht Hle).
  eexists. split; [reflexivity|]. cbn [est_min est_max est_expected].
  unfold Validator.validateConfig in Hvalid. rewrite !andb_true_iff in Hvalid.
  destruct Hvalid as [[[[[[[_ _] _] Hcpd] _] _] Hp] _].
  unfold Validator.isValidCommitsPerDay in Hcpd. rewrite !andb_true_iff in Hcpd.
  unfold Validator.isValidProbability in Hp. rewrite andb_true_iff in Hp.
  destruct Hp as [Hp0 Hp1]. apply Qle_bool_iff in Hp0, Hp1.
  apply rounded_estimate_order; [|lia|lia].
  apply round_nonneg. apply Qmult_le_0_compat.
  - change 0%Q with (inject_Z 0). rewrite <- Zle_Qle. lia.
  - apply round_nonneg. lra.
Qed.

(** Where no day is skipped at random, the products of the estimate are
    integers and no operation rounds: the estimate is the one with exact
    products. *)
Lemma estimate_exact_without_skipping (config : Config) (days : list Date) :
  getDaysInRange (startDate config) (endDate config) (skipDays config) = Ok days ->
  (skipProbability config == 0)%Q ->
  0 <= cpd_min (commitsPerDay config) <= cpd_max (commitsPerDay config) ->
  1 <= cpd_max (commitsPerDay config) ->
  Z.of_nat (List.length days)
  * (cpd_min (commitsPerDay config) + cpd_max (commitsPerDay config)) < 2 ^ 53 ->
  Floating.estimateCommitCount config = estimateCommitCount config.
Proof.
  intros Hdays Hp Hcpd Hmax Hbound.
  unfold Floating.estimateCommitCount, estimateCommitCount. rewrite Hdays.
  set (len := Z.of_nat (List.length days)) in *.
  set (a := cpd_min (commitsPerDay config)) in *.
  set (b := cpd_max (commitsPerDay config)) in *.
  assert (Hlen : 0 <= len) by (unfold len; lia).
  assert (Hone : (Binary64.round (1 - skipProbability config) == 1)%Q).
  { rewrite (round_comp _ 1); [apply round_one | rewrite Hp; lra | rewrite Hp; ring]. }
  assert (Hexact : (inject_Z len * (1 - skipProbability config) == inject_Z len)%Q)
    by (rewrite Hp; ring).
  assert (Hprod : forall k, 0 <= k -> len * k < 2 ^ 53 -> 0 <= len * k < 2 ^ 53)
    by (intros k Hk Hlk; split; [apply Z.mul_nonneg_nonneg; lia | exact Hlk]).
  assert (Heff : (Binary64.round (inject_Z len * Binary64.round (1 - skipProbability config))
                  == inject_Z len)%Q).
  { rewrite (round_comp _ (inject_Z len)).
    - apply round_integer. split; [exact Hlen|].
      apply Z.le_lt_trans with (len * (a + b)); [|exact Hbound].
      rewrite <- (Z.mul_1_r len) at 1. apply Z.mul_le_mono_nonneg_l; lia.
    - rewrite Hone. change 0%Q with (inject_Z 0). rewrite Qmult_1_r, <- Zle_Qle. exact Hlen.
    - rewrite Hone. ring. }
  assert (Hround : forall k, 0 <= k -> len * k < 2 ^ 53 ->
            (Binary64.round
               (Binary64.round (inject_Z len * Binary64.round (1 - skipProbability config))
                * inject_Z k)
             == inject_Z len * (1 - skipProbability config) * inject_Z k)%Q).
  { intros k Hk Hlk.
    assert (Hnn : (0 <= inject_Z (len * k))%Q)
      by (change 0%Q with (inject_Z 0); rewrite <- Zle_Qle; nia).
    rewrite (round_comp _ (inject_Z (len * k))).
    - rewrite round_integer by (apply Hprod; assumption).
      rewrite Hexact, inject_Z_mult. reflexivity.
    - rewrite Heff, <- inject_Z_mult. exact Hnn.
    - rewrite Heff, inject_Z_mult. reflexivity. }
  f_equal. f_equal.
  - apply Qfloor_comp, Hround; nia.
  - apply Qfloor_comp, Hround; nia.
  - apply Qfloor_comp.
    pose proof (Hround (a + b) ltac:(lia) Hbound) as Hsum.
    set (x := (Binary64.round (inject_Z len * Binary64.round (1 - skipProbability config))
               * inject_Z (a + b))%Q) in *.
    destruct (Z.eq_dec (len * (a + b)) 0) as [Hzero|Hnz].
    + assert (Hx : (Binary64.round x == 0)%Q).
      { rewrite Hsum, Hexact, <- inject_Z_mult, Hzero. reflexivity. }
      assert (Hdiv : (Binary64.round x / inject_Z 2 == 0)%Q) by (rewrite Hx; reflexivity).
      rewrite (round_comp _ 0); [| rewrite Hdiv; apply Qle_refl | exact Hdiv].
      rewrite Hexact, <- inject_Z_mult, Hzero. reflexivity.
    + assert (Hx : (1 # 2 <= x)%Q).
      { unfold x. rewrite Heff, <- inject_Z_mult.
        apply Qle_trans with (inject_Z 1); [discriminate|].
        rewrite <- Zle_Qle. nia. }
      rewrite (round_half_of_rounded x Hx), Hsum. reflexivity.
Qed.

(** ** The loop of [generate] *)

Section Loop.

Variable env : Env.
Variable config : Config.
Variable onProgress : bool.
Variable total : Z.

Lemma executeCommit_gen (i : nat) (c : CommitPlan) (r : Run) :
  generatedCommits (gen (executeCommit env config onProgress total i c r))
  = generatedCommits (gen r) + (if succeeds env i then 1 else 0)
  /\ cancelled (gen (executeCommit env config onProgress total i c r))
     = cancelled (gen r) || cancelDuring env (S i).
Proof.
  unfold executeCommit, succeeds, GitService.createCommit, await, cancel.
  destruct (commitAnswer env i), (cancelDuring env (S i)), r as [[c0 n0] e0 l0];
    cbn; split; try lia; try reflexivity; destruct c0; reflexivity.
Qed.

Lemma executeCommit_errs (i : nat) (c : CommitPlan) (r : Run) :
  errs (executeCommit env config onProgress total i c r)
  = (errs r ++ failures env i 1)%list.
Proof.
  unfold executeCommit, failures. cbn [seq flat_map].
  destruct (GitService.createCommit (commitAnswer env i)); cbn [errs].
  - rewrite !app_nil_r. reflexivity.
  - rewrite app_nil_r. reflexivity.
Qed.

Lemma executeCommit_log (i : nat) (c : CommitPlan) (r : Run) :
  log (executeCommit env config onProgress total i c r)
  = (log r ++ stepEvents env config onProgress total i c)%list.
Proof.
  unfold stepEvents, executeCommit, emit.
  destruct (GitService.createCommit (commitAnswer env i)), onProgress; cbn [log];
    rewrite <- ?app_assoc; reflexivity.
Qed.

Lemma iterate_log (entries : list CommitPlan) : forall i r,
  log (iterate env config onProgress total i entries r)
  = (log r ++ traceOf env config onProgress total i entries)%list.
Proof.
  induction entries as [|c entries IH]; intros i r; cbn [iterate traceOf].
  - rewrite app_nil_r. reflexivity.
  - rewrite IH, executeCommit_log, app_assoc. reflexivity.
Qed.

Lemma iterate_gen (entries : list CommitPlan) : forall i r,
  generatedCommits (gen (iterate env config onProgress total i entries r))
  = generatedCommits (gen r) + successes env i (List.length entries).
Proof.
  induction entries as [|c entries IH]; intros i r; cbn [iterate].
  - unfold successes. cbn. lia.
  - rewrite IH. destruct (executeCommit_gen i c r) as [-> _].
    unfold successes. cbn [List.length seq filter].
    destruct (succeeds env i); cbn [List.length]; lia.
Qed.

Lemma iterate_cancelled (entries : list CommitPlan) : forall i r,
  cancelled (gen (iterate env config onProgress total i entries r))
  = cancelled (gen r)
    || existsb (fun j => cancelDuring env (S j)) (seq i (List.length entries)).
Proof.
  induction entries as [|c entries IH]; intros i r; cbn [iterate].
  - cbn. rewrite orb_false_r. reflexivity.
  - rewrite IH. destruct (executeCommit_gen i c r) as [_ ->].
    cbn [List.length seq existsb]. rewrite orb_assoc. reflexivity.
Qed.

Lemma failures_app (i a b : nat) :
  failures env i (a + b) = (failures env i a ++ failures env (i + a) b)%list.
Proof. unfold failures. rewrite seq_app, flat_map_app. reflexivity. Qed.

Lemma iterate_errs (entries : list CommitPlan) : forall i r,
  errs (iterate env config onProgress total i entries r)
  = (errs r ++ failures env i (List.length entries))%list.
Proof.
  induction entries as [|c entries IH]; intros i r; cbn [iterate].
  - unfold failures. cbn. rewrite app_nil_r. reflexivity.
  - rewrite IH, executeCommit_errs, <- app_assoc.
    change (List.length (c :: entries)) with (1 + List.length entries)%nat.
    rewrite failures_app. replace (i + 1)%nat with (S i) by lia. reflexivity.
Qed.

(** As long as no [cancel()] arrives, the loop is the plain iteration:
    the entries [pre] are all attempted when the flag is clear at the
    start and no cancellation arrives before the last of them is under
    way. *)
Lemma executeCommits_prefix (pre post : list CommitPlan) : forall i r,
  (pre <> [] -> cancelled (gen r) = false) ->
  (forall j, (i <= j)%nat -> (S j < i + List.length pre)%nat ->
             cancelDuring env (S j) = false) ->
  executeCommits env config onProgress total i (pre ++ post) r
  = executeCommits env config onProgress total (i + List.length pre) post
      (iterate env config onProgress total i pre r).
Proof.
  induction pre as [|c pre IH]; intros i r Hclear Hquiet.
  - cbn. rewrite Nat.add_0_r. reflexivity.
  - cbn [app executeCommits iterate List.length].
    rewrite Hclear by discriminate.
    rewrite IH.
    + f_equal. lia.
    + intros Hne. destruct (executeCommit_gen i c r) as [_ ->].
      rewrite Hclear by discriminate. cbn [orb].
      apply Hquiet; [lia|]. destruct pre; [contradiction|cbn; lia].
    + intros j Hj1 Hj2. apply Hquiet; cbn [List.length]; lia.
Qed.

End Loop.

(** ** The calls of a run *)

Section Trace.

Variable env : Env.
Variable config : Config.
Variable onProgress : bool.
Variable total : Z.

Lemma stepEvents_shape (i : nat) (c : CommitPlan) :
  exists msg,
    stepEvents env config onProgress total i c
    = EvCreateCommit (plan_message c) (date c) (targetFile config)
        (generateFileContent c) (succeeds env i)
      :: (if onProgress then [EvProgress (Z.of_nat i + 1) total msg] else []).
Proof.
  unfold stepEvents, executeCommit, succeeds, GitService.createCommit, emit.
  destruct (commitAnswer env i), onProgress; cbn [log app];
    first [exists EmptyString; reflexivity | eexists; reflexivity].
Qed.

Lemma traceOf_attempted (entries : list CommitPlan) : forall i,
  attempted (traceOf env config onProgress total i entries) = List.length entries.
Proof.
  unfold attempted.
  induction entries as [|c entries IH]; intros i; cbn [traceOf]; [reflexivity|].
  destruct (stepEvents_shape i c) as (msg & ->).
  rewrite filter_app, length_app, IH.
  destruct onProgress; reflexivity.
Qed.

Lemma traceOf_applied (entries : list CommitPlan) : forall i,
  applied (traceOf env config onProgress total i entries)
  = successes env i (List.length entries).
Proof.
  unfold applied, successes.
  induction entries as [|c entries IH]; intros i; cbn [traceOf]; [reflexivity|].
  destruct (stepEvents_shape i c) as (msg & ->).
  rewrite filter_app, length_app, Nat2Z.inj_add, IH.
  cbn [List.length seq filter isCommitted].
  destruct (succeeds env i), onProgress; cbn [filter isCommitted List.length]; lia.
Qed.

Lemma traceOf_progress (entries : list CommitPlan) : forall i,
  progressCalls (traceOf env config onProgress total i entries)
  = if onProgress
    then map (fun j => (Z.of_nat j + 1, total)) (seq i (List.length entries))
    else [].
Proof.
  unfold progressCalls.
  induction entries as [|c entries IH]; intros i; cbn [traceOf].
  - destruct onProgress; reflexivity.
  - destruct (stepEvents_shape i c) as (msg & ->).
    rewrite flat_map_app, IH.
    destruct onProgress; reflexivity.
Qed.

Lemma traceOf_no_reset_no_push (entries : list CommitPlan) : forall i,
  filter isReset (traceOf env config onProgress total i entries) = []
  /\ filter isPush (traceOf env config onProgress total i entries) = [].
Proof.
  induction entries as [|c entries IH]; intros i; cbn [traceOf]; [split; reflexivity|].
  destruct (stepEvents_shape i c) as (msg & ->).
  rewrite !filter_app. destruct (IH (S i)) as [-> ->].
  destruct onProgress; split; reflexivity.
Qed.

End Trace.

(** ** Runs of [generate] *)

Lemma generate_loop env config onProgress g plan :
  repoUsable env config ->
  generatePlan env config = Ok plan ->
  plan <> [] ->
  generate env config onProgress g
  = match executeCommits env config onProgress (Z.of_nat (List.length plan)) 0 plan
            (loopStart env) with
    | (r, Some e) => (gen r, log r, Throw e)
    | (r, None) =>
        let r :=
          if autoPush config && (generatedCommits (gen r) >? 0) then
            match GitService.push (pushAnswer env) with
            | Ok _ =>
                {| gen := gen r; errs := errs r;
                   log := log r ++ [EvPush (branch config) true] |}
            | Throw error =>
                {| gen := gen r;
                   errs := errs r ++ ["Failed to push: " ++ message error];
                   log := log r ++ [EvPush (branch config) false] |}
            end
          else r in
        (gen r, log r,
         Ok {| success := (List.length (errs r) =? 0)%nat;
               totalCommits := generatedCommits (gen r);
               res_startDate := startDate config;
               res_endDate := endDate config;
               duration := endTime env - startTime env;
               errors := errs r |})
    end.
Proof.
  intros Hrepo Hplan Hne. unfold generate, repoUsable in *.
  rewrite Hrepo, Hplan. destruct plan as [|c plan]; [contradiction|]. reflexivity.
Qed.

(** C2.  When [cancel()] first arrives during the await numbered [a]
    ([validateRepo] for 0, the [createCommit] of entry [a-1] otherwise)
    and the plan has an entry at position [a], [generate] throws
    [USER_CANCELLED] at the top of iteration [a]: the calls made are those
    of the first [a] entries and no other, [getGeneratedCommitsCount] is
    the number of commits that succeeded among them, and no reset has been
    issued. *)
Theorem generate_cancelled env config onProgress g plan (a : nat) :
  repoUsable env config ->
  generatePlan env config = Ok plan ->
  (a < List.length plan)%nat ->
  (forall b, (b < a)%nat -> cancelDuring env b = false) ->
  cancelDuring env a = true ->
  let calls :=
    traceOf env config onProgress (Z.of_nat (List.length plan)) 0 (firstn a plan) in
  exists g' e,
    generate env config onProgress g = (g', EvValidateRepo :: calls, Throw e)
    /\ code e = USER_CANCELLED
    /\ getGeneratedCommitsCount g' = successes env 0 a
    /\ applied calls = successes env 0 a
    /\ attempted calls = a
    /\ filter isReset calls = []
    /\ filter isPush calls = [].
Proof.
  intros Hrepo Hplan Ha Hbefore Hat calls. unfold calls. clear calls.
  assert (Hne : plan <> []) by (destruct plan; [cbn in Ha; lia | discriminate]).
  rewrite (generate_loop _ _ _ _ _ Hrepo Hplan Hne).
  set (total := Z.of_nat (List.length plan)).
  assert (Hlen : List.length (firstn a plan) = a) by (rewrite length_firstn; lia).
  replace (executeCommits env config onProgress total 0 plan (loopStart env))
    with (executeCommits env config onProgress total 0 (firstn a plan ++ skipn a plan)
            (loopStart env))
    by (rewrite firstn_skipn; reflexivity).
  rewrite executeCommits_prefix; rewrite ?Hlen.
  - set (r1 := iterate env config onProgress total 0 (firstn a plan) (loopStart env)).
    assert (Hc : cancelled (gen r1) = true).
    { unfold r1. rewrite iterate_cancelled, Hlen.
      destruct a as [|j].
      - cbn. rewrite Hat. reflexivity.
      - apply orb_true_iff. right. apply existsb_exists.
        exists j. split; [apply in_seq; lia | exact Hat]. }
    destruct (skipn a plan) as [|c post] eqn:Hpost.
    { apply (f_equal (@List.length _)) in Hpost.
      rewrite length_skipn in Hpost. cbn in Hpost. lia. }
    cbn [executeCommits Nat.add]. rewrite Hc.
    do 2 eexists. split; [unfold r1; rewrite iterate_log; reflexivity|].
    split; [reflexivity|]. split; [|split; [|split]].
    + unfold getGeneratedCommitsCount, r1. rewrite iterate_gen, Hlen.
      unfold loopStart, await, cancel. destruct (cancelDuring env 0); cbn; lia.
    + rewrite traceOf_applied, Hlen. reflexivity.
    + rewrite traceOf_attempted. exact Hlen.
    + apply traceOf_no_reset_no_push.
  - intros Hpre. unfold loopStart. cbn [gen].
    destruct a as [|j]; [cbn in Hpre; contradiction|].
    rewrite (Hbefore 0%nat) by lia. reflexivity.
  - intros j _ Hj. apply Hbefore. lia.
Qed.

Lemma attempted_app (l1 l2 : list Event) :
  attempted (l1 ++ l2) = (attempted l1 + attempted l2)%nat.
Proof. unfold attempted. rewrite filter_app, length_app. reflexivity. Qed.

Lemma progressCalls_app (l1 l2 : list Event) :
  progressCalls (l1 ++ l2) = (progressCalls l1 ++ progressCalls l2)%list.
Proof. unfold progressCalls. apply flat_map_app. Qed.

Lemma length_zero_iff {A} (l : list A) : (List.length l =? 0)%nat = true <-> l = [].
Proof. destruct l; cbn; split; congruence. Qed.

(** C6.  In a run that is not cancelled, on a non-empty plan, [generate]
    returns a result: [createCommit] has been called for every entry of
    the plan, the count of generated commits is the number of entries
    whose commit succeeded, and the errors are the descriptions of the
    entries whose commit failed, in order (followed by that of a failed
    push, if any). *)
Theorem generate_continues_after_failure env config onProgress g plan :
  repoUsable env config ->
  generatePlan env config = Ok plan ->
  plan <> [] ->
  quiet env ->
  exists g' log' res pushErrors,
    generate env config onProgress g = (g', log', Ok res)
    /\ attempted log' = List.length plan
    /\ getGeneratedCommitsCount g' = successes env 0 (List.length plan)
    /\ totalCommits res = successes env 0 (List.length plan)
    /\ errors res = (failures env 0 (List.length plan) ++ pushErrors)%list
    /\ (autoPush config = false -> pushErrors = []).
Proof.
  intros Hrepo Hplan Hne Hquiet.
  rewrite (generate_loop _ _ _ _ _ Hrepo Hplan Hne).
  set (total := Z.of_nat (List.length plan)).
  replace (executeCommits env config onProgress total 0 plan (loopStart env))
    with (executeCommits env config onProgress total 0 (plan ++ []) (loopStart env))
    by (rewrite app_nil_r; reflexivity).
  rewrite executeCommits_prefix.
  - cbn [executeCommits].
    set (r1 := iterate env config onProgress total 0 plan (loopStart env)).
    assert (Hgen : generatedCommits (gen r1) = successes env 0 (List.length plan)).
    { unfold r1. rewrite iterate_gen. unfold loopStart. rewrite Hquiet. cbn. lia. }
    assert (Herrs : errs r1 = failures env 0 (List.length plan)).
    { unfold r1. rewrite iterate_errs. reflexivity. }
    assert (Hlog : attempted (log r1) = List.length plan).
    { unfold r1. rewrite iterate_log, attempted_app, traceOf_attempted. reflexivity. }
    destruct (autoPush config && (generatedCommits (gen r1) >? 0)) eqn:Hpush;
      [destruct (GitService.push (pushAnswer env))|]; cbn zeta.
    + exists (gen r1), (log r1 ++ [EvPush (branch config) true])%list.
      eexists. exists [].
      split; [reflexivity|]. cbn [gen errs log totalCommits errors].
      rewrite attempted_app, Hlog, Herrs, app_nil_r.
      split; [cbn; lia|]. split; [exact Hgen|]. split; [exact Hgen|].
      split; [reflexivity|]. intros _. reflexivity.
    + exists (gen r1), (log r1 ++ [EvPush (branch config) false])%list.
      eexists. eexists.
      split; [reflexivity|]. cbn [gen errs log totalCommits errors].
      rewrite attempted_app, Hlog, Herrs.
      split; [cbn; lia|]. split; [exact Hgen|]. split; [exact Hgen|].
      split; [reflexivity|].
      intros Hoff. rewrite Hoff in Hpush. discriminate Hpush.
    + exists (gen r1), (log r1). eexists. exists [].
      split; [reflexivity|]. cbn [totalCommits errors].
      rewrite Herrs, app_nil_r.
      split; [exact Hlog|]. split; [exact Hgen|]. split; [exact Hgen|].
      split; [reflexivity|]. intros _. reflexivity.
  - intros _. unfold loopStart. rewrite Hquiet. reflexivity.
  - intros j _ _. apply Hquiet.
Qed.

(** Whatever arrives, the loop ends in the state that the iterations of
    some first entries of the plan lead to. *)
Lemma executeCommits_iterate env config onProgress total (rest : list CommitPlan) :
  forall i r, exists a,
    fst (executeCommits env config onProgress total i rest r)
    = iterate env config onProgress total i (firstn a rest) r.
Proof.
  induction rest as [|c rest IH]; intros i r.
  - exists 0%nat. reflexivity.
  - cbn [executeCommits]. destruct (cancelled (gen r)).
    + exists 0%nat. reflexivity.
    + destruct (IH (S i) (executeCommit env config onProgress total i c r)) as [a Ha].
      exists (S a). exact Ha.
Qed.

Lemma executeCommits_log env config onProgress total (rest : list CommitPlan) :
  forall i r, exists a,
    log (fst (executeCommits env config onProgress total i rest r))
    = (log r ++ traceOf env config onProgress total i (firstn a rest))%list.
Proof.
  intros i r.
  destruct (executeCommits_iterate env config onProgress total rest i r) as [a Ha].
  exists a. rewrite Ha. apply iterate_log.
Qed.

Lemma applied_app (l1 l2 : list Event) : applied (l1 ++ l2) = applied l1 + applied l2.
Proof. unfold applied. rewrite filter_app, length_app. lia. Qed.

Lemma applied_push (b : option string) (ok : bool) : applied [EvPush b ok] = 0.
Proof. reflexivity. Qed.

(** When the loop ends, however it ends, [generatedCommits] has grown by
    the number of successful commits among the calls it made. *)
Lemma executeCommits_counts env config onProgress total (rest : list CommitPlan) i r :
  generatedCommits (gen (fst (executeCommits env config onProgress total i rest r)))
  - generatedCommits (gen r)
  = applied (log (fst (executeCommits env config onProgress total i rest r)))
    - applied (log r).
Proof.
  destruct (executeCommits_iterate env config onProgress total rest i r) as [a ->].
  rewrite iterate_gen, iterate_log, applied_app, traceOf_applied. lia.
Qed.

(** ** Where the calls of a run stand *)

Lemma split_middle {A} (P : A -> bool) (pre T tail l1 l2 : list A) (x : A) :
  forallb (fun y => negb (P y)) pre = true ->
  forallb (fun y => negb (P y)) tail = true ->
  P x = true ->
  (pre ++ T ++ tail)%list = (l1 ++ x :: l2)%list ->
  exists t1 t2, T = (t1 ++ x :: t2)%list /\ l1 = (pre ++ t1)%list /\ l2 = (t2 ++ tail)%list.
Proof.
  intros Hpre Htail Hx. revert l1.
  induction pre as [|a pre IH]; intros l1 Heq.
  - cbn [app] in Heq. clear Hpre. revert l1 Heq.
    induction T as [|a T IHT]; intros l1 Heq.
    + cbn [app] in Heq. exfalso.
      rewrite forallb_forall in Htail.
      assert (Hin : In x tail) by (rewrite Heq; apply in_elt).
      specialize (Htail x Hin). rewrite Hx in Htail. discriminate.
    + destruct l1 as [|b l1]; cbn [app] in Heq; injection Heq as -> Heq.
      * exists [], T. repeat split. symmetry. exact Heq.
      * destruct (IHT l1 Heq) as (t1 & t2 & -> & -> & ->).
        exists (b :: t1), t2. repeat split.
  - cbn [forallb] in Hpre. apply andb_true_iff in Hpre. destruct Hpre as [Ha Hpre].
    destruct l1 as [|b l1]; cbn [app] in Heq; injection Heq as -> Heq.
    + rewrite Hx in Ha. discriminate.
    + destruct (IH Hpre l1 Heq) as (t1 & t2 & -> & -> & ->).
      exists t1, t2. repeat split.
Qed.

Lemma attempted_failed (l : list Event) :
  Z.of_nat (attempted l) = applied l + Z.of_nat (List.length (filter isFailedCommit l)).
Proof.
  unfold attempted, applied.
  induction l as [|ev l IH]; [reflexivity|].
  destruct ev as [|m d f c [|]|n ok|b ok|cur tot msg]; cbn [filter isCommitCall isCommitted
    isFailedCommit negb List.length]; lia.
Qed.

Section Reports.

Variable env : Env.
Variable config : Config.
Variable total : Z.

Lemma trace_commit_then_progress (entries : list CommitPlan) :
  forall i l1 m d f c ok l2,
    traceOf env config true total i entries = (l1 ++ EvCreateCommit m d f c ok :: l2)%list ->
    exists msg l3,
      l2 = EvProgress (Z.of_nat (i + attempted l1) + 1) total msg :: l3.
Proof.
  induction entries as [|c0 entries IH]; intros i l1 m d f c ok l2; cbn [traceOf].
  - destruct l1; discriminate.
  - destruct (stepEvents_shape env config true total i c0) as (msg0 & ->). cbn [app].
    destruct l1 as [|a [|b l1]]; cbn [app].
    + intros [= _ _ _ _ _ <-]. exists msg0. eexists.
      rewrite Nat.add_0_r. reflexivity.
    + intros H. inversion H.
    + intros [= <- <- Hrest].
      destruct (IH (S i) l1 m d f c ok l2 Hrest) as (msg & l3 & ->).
      exists msg, l3. do 2 f_equal. unfold attempted. cbn [filter isCommitCall List.length].
      lia.
Qed.

Lemma trace_progress_after_commit (entries : list CommitPlan) :
  forall i l1 cur tot msg l2,
    traceOf env config true total i entries = (l1 ++ EvProgress cur tot msg :: l2)%list ->
    tot = total /\ cur = Z.of_nat (i + attempted l1)
    /\ exists l0 m d f c ok, l1 = (l0 ++ [EvCreateCommit m d f c ok])%list.
Proof.
  induction entries as [|c0 entries IH]; intros i l1 cur tot msg l2; cbn [traceOf].
  - destruct l1; discriminate.
  - destruct (stepEvents_shape env config true total i c0) as (msg0 & ->). cbn [app].
    destruct l1 as [|a [|b l1]]; cbn [app].
    + intros H. inversion H.
    + intros [= <- <- <- _ _]. split; [reflexivity|]. split.
      * unfold attempted. cbn [filter isCommitCall List.length]. lia.
      * exists []. do 5 eexists. reflexivity.
    + intros [= <- <- Hrest].
      destruct (IH (S i) l1 cur tot msg l2 Hrest) as (-> & -> & l0 & m & d & f & c & ok & ->).
      split; [reflexivity|]. split.
      * unfold attempted. cbn [filter isCommitCall List.length]. lia.
      * eexists (_ :: _ :: l0). do 5 eexists. reflexivity.
Qed.

End Reports.

(** The log of a run: [validateRepo], the calls of the first entries of
    the plan, and at most a push. *)
Lemma generate_log_shape env config onProgress g plan :
  repoUsable env config ->
  generatePlan env config = Ok plan ->
  exists k tail,
    snd (fst (generate env config onProgress g))
    = ([EvValidateRepo]
         ++ traceOf env config onProgress (Z.of_nat (List.length plan)) 0 (firstn k plan)
         ++ tail)%list
    /\ forallb (fun ev => negb (isLoopCall ev)) tail = true.
Proof.
  intros Hrepo Hplan.
  destruct plan as [|c plan'] eqn:Eplan.
  { unfold generate. unfold repoUsable in Hrepo. rewrite Hrepo, Hplan.
    exists 0%nat, []. split; reflexivity. }
  rewrite <- Eplan in *.
  assert (Hne : plan <> []) by (rewrite Eplan; discriminate).
  rewrite (generate_loop _ _ _ _ _ Hrepo Hplan Hne).
  destruct (executeCommits_log env config onProgress (Z.of_nat (List.length plan)) plan 0
              (loopStart env)) as [k Hk].
  destruct (executeCommits _ _ _ _ _ _ _) as [r [e|]]; cbn [fst snd log] in *.
  - exists k, []. rewrite Hk, app_nil_r. split; reflexivity.
  - destruct (autoPush config && (generatedCommits (gen r) >? 0));
      [destruct (GitService.push (pushAnswer env))|]; cbn [fst snd log]; rewrite Hk.
    + exists k, [EvPush (branch config) true]. rewrite <- app_assoc. split; reflexivity.
    + exists k, [EvPush (branch config) false]. rewrite <- app_assoc. split; reflexivity.
    + exists k, []. rewrite app_nil_r. split; reflexivity.
Qed.

(** C7, amended.  With a progress callback, every [createCommit], failed
    or not, is followed at once by one call of the callback, and the
    callback is called nowhere else.  Its first argument is the position
    of the entry in the plan, counted from 1, which is the number of
    entries attempted so far, and its second argument the number of
    planned entries.  The first argument is the applied count exactly
    when no entry has failed so far. *)
Theorem progress_reports_position env config g plan :
  repoUsable env config ->
  generatePlan env config = Ok plan ->
  let log' := snd (fst (generate env config true g)) in
  let total := Z.of_nat (List.length plan) in
  (forall l1 m d f c ok l2,
      log' = (l1 ++ EvCreateCommit m d f c ok :: l2)%list ->
      exists msg l3, l2 = EvProgress (Z.of_nat (attempted l1) + 1) total msg :: l3)
  /\ (forall l1 cur tot msg l2,
        log' = (l1 ++ EvProgress cur tot msg :: l2)%list ->
        tot = total
        /\ cur = Z.of_nat (attempted l1)
        /\ (exists l0 m d f c ok, l1 = (l0 ++ [EvCreateCommit m d f c ok])%list)
        /\ (cur = applied l1 <-> filter isFailedCommit l1 = []))
  /\ progressCalls log'
     = map (fun i => (Z.of_nat i + 1, total)) (seq 0 (attempted log')).
Proof.
  intros Hrepo Hplan log' total.
  destruct (generate_log_shape env config true g plan Hrepo Hplan) as (k & tail & Hlog & Htail).
  fold log' total in Hlog.
  split; [|split].
  - intros l1 m d f c ok l2 Heq. rewrite Hlog in Heq.
    destruct (split_middle isLoopCall [EvValidateRepo] _ tail l1 l2
                (EvCreateCommit m d f c ok) eq_refl Htail eq_refl Heq)
      as (t1 & t2 & Ht & -> & ->).
    destruct (trace_commit_then_progress _ _ _ _ _ _ _ _ _ _ _ _ Ht) as (msg & l3 & ->).
    exists msg, (l3 ++ tail)%list. rewrite attempted_app. reflexivity.
  - intros l1 cur tot msg l2 Heq. rewrite Hlog in Heq.
    destruct (split_middle isLoopCall [EvValidateRepo] _ tail l1 l2
                (EvProgress cur tot msg) eq_refl Htail eq_refl Heq)
      as (t1 & t2 & Ht & -> & ->).
    destruct (trace_progress_after_commit _ _ _ _ _ _ _ _ _ _ Ht)
      as (-> & -> & l0 & m & d & f & c & ok & ->).
    assert (Hcur : Z.of_nat (0 + attempted (l0 ++ [EvCreateCommit m d f c ok]))
                   = Z.of_nat (attempted ([EvValidateRepo] ++ l0
                                            ++ [EvCreateCommit m d f c ok])))
      by (rewrite (attempted_app [EvValidateRepo]); reflexivity).
    split; [reflexivity|]. split; [exact Hcur|]. split.
    + exists ([EvValidateRepo] ++ l0)%list. do 5 eexists. rewrite <- app_assoc. reflexivity.
    + rewrite Hcur, attempted_failed. split.
      * intros H. apply length_zero_iff. apply Nat.eqb_eq. lia.
      * intros ->. cbn. lia.
  - rewrite Hlog, !progressCalls_app, !attempted_app, traceOf_progress, traceOf_attempted.
    assert (Hnone : progressCalls tail = [] /\ attempted tail = 0%nat).
    { clear - Htail. induction tail as [|ev tail IH]; [split; reflexivity|].
      cbn [forallb] in Htail. apply andb_true_iff in Htail. destruct Htail as [Hev Htail].
      destruct (IH Htail) as [IH1 IH2].
      destruct ev; try discriminate; split; cbn; assumption. }
    destruct Hnone as [-> ->]. cbn [progressCalls flat_map app attempted filter isCommitCall
                                    List.length]. rewrite app_nil_r, Nat.add_0_r.
    reflexivity.
Qed.

(** C5, amended.  On an empty plan [generate] returns at once, whatever
    the object held before: it has made no commit, the applied count is
    0, [success] is true and [errors] holds exactly the note.  On a
    non-empty plan it returns a result when no [cancel()] arrives, and in
    every result it returns [success] is true if and only if [errors] is
    empty. *)
Theorem generate_success_iff env config onProgress g plan :
  repoUsable env config ->
  generatePlan env config = Ok plan ->
  match plan with
  | [] =>
      exists g',
        generate env config onProgress g
        = (g', [EvValidateRepo],
           Ok {| success := true;
                 totalCommits := 0;
                 res_startDate := startDate config;
                 res_endDate := endDate config;
                 duration := endTime env - startTime env;
                 errors := [NO_COMMITS_NOTE] |})
        /\ getGeneratedCommitsCount g' = 0
  | _ :: _ =>
      (quiet env ->
       exists g' log' res, generate env config onProgress g = (g', log', Ok res))
      /\ (forall g' log' res,
            generate env config onProgress g = (g', log', Ok res) ->
            (success res = true <-> errors res = []))
  end.
Proof.
  intros Hrepo Hplan. destruct plan as [|c plan'] eqn:Eplan.
  - unfold generate. unfold repoUsable in Hrepo. rewrite Hrepo, Hplan.
    eexists. split; [reflexivity|].
    unfold await. destruct (cancelDuring env 0); reflexivity.
  - rewrite <- Eplan in *.
    assert (Hne : plan <> []) by (rewrite Eplan; discriminate).
    rewrite (generate_loop _ _ _ _ _ Hrepo Hplan Hne).
    split.
    + intros Hquiet.
      replace (executeCommits env config onProgress (Z.of_nat (List.length plan)) 0 plan
                 (loopStart env))
        with (executeCommits env config onProgress (Z.of_nat (List.length plan)) 0
                (plan ++ []) (loopStart env))
        by (rewrite app_nil_r; reflexivity).
      rewrite executeCommits_prefix.
      * cbn [executeCommits]. do 3 eexists. reflexivity.
      * intros _. unfold loopStart. rewrite Hquiet. reflexivity.
      * intros j _ _. apply Hquiet.
    + intros g' log' res.
      destruct (executeCommits _ _ _ _ _ _ _) as [r [e|]]; [discriminate|].
      intros [= <- <- <-]. cbn [success errors]. apply length_zero_iff.
Qed.

Lemma existsb_seq_S (f : nat -> bool) (len : nat) : forall i,
  existsb f (seq i (S len)) = f i || existsb (fun j => f (S j)) (seq i len).
Proof.
  induction len as [|len IH]; intros i; [reflexivity|].
  change (seq i (S (S len))) with (i :: seq (S i) (S len)).
  cbn [existsb]. rewrite IH. cbn [seq existsb].
  destruct (f i), (f (S i)); reflexivity.
Qed.

(** When the loop ends, however it ends, the flag is set exactly when a
    [cancel()] arrived before the loop or during one of the commits it
    made. *)
Lemma executeCommits_flag env config onProgress total (rest : list CommitPlan) i r :
  let r' := fst (executeCommits env config onProgress total i rest r) in
  cancelled (gen r')
  = cancelled (gen r)
    || existsb (fun j => cancelDuring env (S j))
               (seq i (attempted (log r') - attempted (log r))).
Proof.
  cbv zeta.
  destruct (executeCommits_iterate env config onProgress total rest i r) as [a ->].
  rewrite iterate_cancelled, iterate_log, attempted_app, traceOf_attempted.
  replace (attempted (log r) + List.length (firstn a rest) - attempted (log r))%nat
    with (List.length (firstn a rest)) by lia.
  reflexivity.
Qed.

(** The first entry of the plan is attempted when no [cancel()] arrives
    during [validateRepo]. *)
Lemma executeCommits_first env config onProgress total (c : CommitPlan)
    (rest : list CommitPlan) r :
  cancelled (gen r) = false ->
  (attempted (log r) + 1
   <= attempted (log (fst (executeCommits env config onProgress total 0 (c :: rest) r))))%nat.
Proof.
  intros Hclear. cbn [executeCommits]. rewrite Hclear.
  destruct (executeCommits_log env config onProgress total rest 1
              (executeCommit env config onProgress total 0 c r)) as [a ->].
  assert (Hstep : attempted (stepEvents env config onProgress total 0 c) = 1%nat).
  { destruct (stepEvents_shape env config onProgress total 0 c) as (msg & ->).
    destruct onProgress; reflexivity. }
  rewrite executeCommit_log, !attempted_app, Hstep. lia.
Qed.

(** C10.  [generate] starts by clearing [cancelled] and
    [generatedCommits]: a [cancel()] made before the call changes nothing
    of the run, and the run is the one of a fresh object whatever the
    fields held before.  When the call ends, however it ends,
    [generatedCommits] is the number of commits that succeeded in this
    run, and [cancelled] is set exactly when a [cancel()] arrived during
    this run, while [validateRepo] or one of its commits was awaited.
    The loop starts with the flag cleared: after a [cancel()] made before
    the call, the first entry of the plan is attempted all the same
    unless a [cancel()] arrives during [validateRepo], and when none
    arrives during the run every entry is attempted and the run returns
    a result. *)
Theorem generate_resets_state env config onProgress g :
  let run := generate env config onProgress (cancel g) in
  run = generate env config onProgress g
  /\ run = generate env config onProgress initial
  /\ getGeneratedCommitsCount (fst (fst run)) = applied (snd (fst run))
  /\ isCancelled (fst (fst run))
     = existsb (cancelDuring env) (seq 0 (S (attempted (snd (fst run)))))
  /\ (forall plan,
        repoUsable env config -> generatePlan env config = Ok plan -> plan <> [] ->
        cancelDuring env 0 = false ->
        (1 <= attempted (snd (fst run)))%nat)
  /\ (forall plan,
        repoUsable env config -> generatePlan env config = Ok plan -> quiet env ->
        attempted (snd (fst run)) = List.length plan
        /\ isCancelled (fst (fst run)) = false
        /\ exists res, snd run = Ok res).
Proof.
  cbv zeta.
  split; [reflexivity|]. split; [reflexivity|].
  assert (Hstart : generatedCommits (await (cancelDuring env 0) initial) = 0
                   /\ cancelled (await (cancelDuring env 0) initial) = cancelDuring env 0)
    by (unfold await; destruct (cancelDuring env 0); split; reflexivity).
  destruct Hstart as [Hcount0 Hflag0].
  split; [|split; [|split]].
  - unfold generate, getGeneratedCommitsCount.
    destruct (GitService.validateRepo _ _ _); [|exact Hcount0].
    destruct (generatePlan env config) as [[|c plan]|]; [exact Hcount0| |exact Hcount0].
    pose proof (executeCommits_counts env config onProgress
                  (Z.of_nat (List.length (c :: plan))) (c :: plan) 0
                  {| gen := await (cancelDuring env 0) initial; errs := [];
                     log := [EvValidateRepo] |}) as Hcount.
    cbn [gen log] in Hcount. rewrite Hcount0 in Hcount.
    change (applied [EvValidateRepo]) with 0 in Hcount.
    destruct (executeCommits _ _ _ _ _ _ _) as [r [e|]]; cbn [fst snd] in *; [lia|].
    destruct (autoPush config && (generatedCommits (gen r) >? 0));
      [destruct (GitService.push (pushAnswer env))|]; cbn [fst snd gen log];
      rewrite ?applied_app, ?applied_push; lia.
  - unfold generate, isCancelled.
    assert (Hnone : cancelled (await (cancelDuring env 0) initial)
                    = existsb (cancelDuring env) (seq 0 (S (attempted [EvValidateRepo]))))
      by (rewrite Hflag0; cbn; rewrite orb_false_r; reflexivity).
    destruct (GitService.validateRepo _ _ _); [|exact Hnone].
    destruct (generatePlan env config) as [[|c plan]|]; [exact Hnone| |exact Hnone].
    pose proof (executeCommits_flag env config onProgress
                  (Z.of_nat (List.length (c :: plan))) (c :: plan) 0
                  {| gen := await (cancelDuring env 0) initial; errs := [];
                     log := [EvValidateRepo] |}) as Hflag.
    cbv zeta in Hflag. cbn [gen log] in Hflag. rewrite Hflag0 in Hflag.
    change (attempted [EvValidateRepo]) with 0%nat in Hflag.
    rewrite Nat.sub_0_r in Hflag.
    destruct (executeCommits _ _ _ _ _ _ _) as [r [e|]]; cbn [fst snd] in *.
    + rewrite existsb_seq_S. exact Hflag.
    + assert (Hr : cancelled (gen r)
                   = existsb (cancelDuring env) (seq 0 (S (attempted (log r)))))
        by (rewrite existsb_seq_S; exact Hflag).
      destruct (autoPush config && (generatedCommits (gen r) >? 0));
        [destruct (GitService.push (pushAnswer env))|]; cbn [fst snd gen log];
        rewrite ?attempted_app; cbn [attempted filter isCommitCall List.length];
        rewrite ?Nat.add_0_r; exact Hr.
  - intros plan Hrepo Hplan Hne Hquiet0.
    rewrite (generate_loop _ _ _ _ _ Hrepo Hplan Hne).
    destruct plan as [|c plan']; [contradiction|].
    pose proof (executeCommits_first env config onProgress
                  (Z.of_nat (List.length (c :: plan'))) c plan' (loopStart env)) as Hfirst.
    unfold loopStart in Hfirst at 1. cbn [gen] in Hfirst. rewrite Hflag0 in Hfirst.
    specialize (Hfirst Hquiet0). cbn [loopStart log] in Hfirst.
    change (attempted [EvValidateRepo]) with 0%nat in Hfirst.
    destruct (executeCommits _ _ _ _ _ _ _) as [r [e|]]; cbn [fst snd] in *; [exact Hfirst|].
    destruct (autoPush config && (generatedCommits (gen r) >? 0));
      [destruct (GitService.push (pushAnswer env))|]; cbn [fst snd gen log];
      rewrite ?attempted_app; lia.
  - intros plan Hrepo Hplan Hquiet.
    destruct plan as [|c plan'] eqn:Eplan.
    { unfold generate. unfold repoUsable in Hrepo. rewrite Hrepo, Hplan.
      cbn [fst snd]. unfold isCancelled, await. rewrite Hquiet.
      split; [reflexivity|]. split; [reflexivity|]. eexists. reflexivity. }
    rewrite <- Eplan in *.
    assert (Hne : plan <> []) by (rewrite Eplan; discriminate).
    rewrite (generate_loop _ _ _ _ _ Hrepo Hplan Hne).
    set (total := Z.of_nat (List.length plan)).
    replace (executeCommits env config onProgress total 0 plan (loopStart env))
      with (executeCommits env config onProgress total 0 (plan ++ []) (loopStart env))
      by (rewrite app_nil_r; reflexivity).
    rewrite executeCommits_prefix.
    + cbn [executeCommits].
      set (r1 := iterate env config onProgress total 0 plan (loopStart env)).
      assert (Hlog : attempted (log r1) = List.length plan).
      { unfold r1. rewrite iterate_log, attempted_app, traceOf_attempted. reflexivity. }
      assert (Hflag : cancelled (gen r1) = false).
      { unfold r1. rewrite iterate_cancelled. unfold loopStart. cbn [gen].
        rewrite Hflag0, Hquiet. cbn [orb].
        apply not_true_iff_false. intros Hex. apply existsb_exists in Hex.
        destruct Hex as (j & _ & Hj). rewrite Hquiet in Hj. discriminate. }
      destruct (autoPush config && (generatedCommits (gen r1) >? 0));
        [destruct (GitService.push (pushAnswer env))|]; cbn [fst snd gen log];
        unfold isCancelled; rewrite ?attempted_app, Hlog, Hflag;
        (split; [cbn; lia|]); (split; [reflexivity|]); eexists; reflexivity.
    + intros _. unfold loopStart. rewrite Hquiet. reflexivity.
    + intros j _ _. apply Hquiet.
Qed.

(** C3, amended.  For every count [c <= 0], [GitService.rollback] throws
    [INVALID_CONFIG] and issues no reset; [CommitGenerator.rollback]
    issues no reset either, returns without an error and leaves the
    object as it was. *)
Theorem rollback_nonpositive (git : string + unit) (c : Z) (g : State) :
  c <= 0 ->
  (exists e, GitService.rollback git c = ([], Throw e) /\ code e = INVALID_CONFIG)
  /\ CommitGenerator.rollback git (Some c) g = (g, [], Ok tt).
Proof.
  intros Hc. split.
  - unfold GitService.rollback. destruct (Z.leb_spec c 0); [|lia].
    eexists. split; reflexivity.
  - unfold CommitGenerator.rollback. destruct (Z.gtb_spec c 0); [lia|reflexivity].
Qed.

(** ** Concrete runs *)

Example parse_2024_01_01 :
  option_map getDay (parseISO "2024-01-01") = Some 1.
Proof. reflexivity. Qed.

Example parse_2024_02_30 : parseISO "2024-02-30" = None.
Proof. reflexivity. Qed.

Example format_example :
  option_map (fun d => format (setMinutes (setHours d 14) 30) P_yyyy_MM_dd_HH_mm_ss)
    (parseISO "2024-06-15") = Some "2024-06-15 14:30:00".
Proof. vm_compute. reflexivity. Qed.

Example formatCommitMessage_index :
  formatCommitMessage "commit #{{index}}" 1718461845000 41 = "commit #42".
Proof. vm_compute. reflexivity. Qed.

Example weekdays_only :
  getDateStats "2024-01-01" "2024-01-07" [0; 6]
  = Ok {| totalDays := 7; weekdays := 5; weekends := 2; activeDays := 5 |}.
Proof. vm_compute. reflexivity. Qed.

(** Three commits on one day, the first drawn latest and the other two at
    the same millisecond: the sort moves the first to the end and keeps
    the two others in the order of their [index]. *)
Example oneDay_order :
  match fst (generateCommitPlan Demo.lateRandom Demo.oneDayConfig 0%nat) with
  | Ok plan => map (fun e => (index e, time e)) plan
  | Throw _ => []
  end = [(1, "13:30:30"); (2, "13:30:30"); (0, "18:00:59")].
Proof. vm_compute. reflexivity. Qed.

Ltac unit_q := split; [unfold Qle; cbn; lia | unfold Qlt; cbn; lia].

Lemma halfRandom_unit : unit_source Demo.halfRandom.
Proof. intros n. unit_q. Qed.

Lemma lateRandom_unit : unit_source Demo.lateRandom.
Proof.
  intros n. unfold Demo.lateRandom.
  do 5 (destruct n as [|n]; [unit_q|]). unit_q.
Qed.

Lemma weekConfig_valid : valid_config Demo.weekConfig.
Proof. split; [reflexivity | vm_compute; discriminate]. Qed.

Lemma generateCommitPlan_sorted_witness :
  exists plan, fst (generateCommitPlan Demo.lateRandom Demo.oneDayConfig 0%nat) = Ok plan
               /\ StronglySorted plan_before plan.
Proof.
  apply (generateCommitPlan_sorted Demo.lateRandom Demo.oneDayConfig 0%nat).
  reflexivity.
Defined.

Lemma newYork_steady_in_winter : steadyOver NewYork.zone Demo.weekConfig.
Proof.
  exists NewYork.standard. eexists. eexists.
  split; [vm_compute; reflexivity|]. split; [vm_compute; reflexivity|].
  assert (Hspring : NewYork.springDay * MS_PER_DAY = 1710028800000) by reflexivity.
  split.
  - intros l Hl. cbn [offsetOfLocal NewYork.zone].
    destruct (Z.ltb_spec l (NewYork.springDay * MS_PER_DAY + 3 * MS_PER_HOUR)) as [_|Hge];
      [reflexivity|].
    unfold MS_PER_DAY, MS_PER_HOUR in *. lia.
  - intros d Hd. cbn [offsetAt NewYork.zone].
    destruct (Z.ltb_spec d (NewYork.springDay * MS_PER_DAY + 7 * MS_PER_HOUR)) as [_|Hge];
      [reflexivity|].
    unfold NewYork.standard, MS_PER_DAY, MS_PER_HOUR in *. lia.
Qed.

Lemma plan_entries_within_witness :
  exists plan, fst (Zoned.generateCommitPlan NewYork.zone Demo.lateRandom Demo.weekConfig 0%nat)
               = Ok plan
    /\ Forall (fun e => day_in_range Demo.weekConfig (onLocalClock NewYork.zone e)
                        /\ weekday_allowed Demo.weekConfig (onLocalClock NewYork.zone e)
                        /\ minute_in_window Demo.weekConfig (onLocalClock NewYork.zone e)) plan.
Proof.
  apply (plan_entries_within NewYork.zone Demo.lateRandom Demo.weekConfig 0%nat).
  - exact newYork_steady_in_winter.
  - exact lateRandom_unit.
  - exact weekConfig_valid.
Defined.

(** Where the clocks are turned forward within the range, an entry can
    leave the time range by an hour: on 2024-03-10 in New York the hour
    from 02:00 to 03:00 does not exist, and the commit wanted at 02:30:30
    is planned at 03:30:30. *)
Example plan_across_transition :
  valid_config NewYork.springConfig
  /\ unit_source Demo.halfRandom
  /\ fst (Zoned.generateCommitPlan NewYork.zone Demo.halfRandom NewYork.springConfig 0%nat)
     = Ok NewYork.springPlan
  /\ map (fun e => Zoned.format NewYork.zone (date e) P_yyyy_MM_dd_HH_mm_ss)
         NewYork.springPlan
     = ["2024-03-10 03:30:30"]
  /\ ~ Forall (fun e => minute_in_window NewYork.springConfig (onLocalClock NewYork.zone e))
              NewYork.springPlan.
Proof.
  split; [split; [reflexivity | vm_compute; discriminate]|].
  split; [exact halfRandom_unit|].
  split; [vm_compute; reflexivity|].
  split; [vm_compute; reflexivity|].
  intros H. inversion H as [|e l [_ Hlate] _]; subst.
  vm_compute in Hlate. discriminate Hlate.
Qed.

(** C4 as stated fails: Monday's commit of [Demo.latePlan] is made at
    18:00:59.999, past the end 18:00 of the range. *)
Lemma plan_time_of_day_counterexample :
  valid_config Demo.weekConfig
  /\ unit_source Demo.lateRandom
  /\ fst (generateCommitPlan Demo.lateRandom Demo.weekConfig 0%nat) = Ok Demo.latePlan
  /\ ~ Forall (fun e => day_in_range Demo.weekConfig e
                        /\ weekday_allowed Demo.weekConfig e
                        /\ time_in_window Demo.weekConfig e) Demo.latePlan.
Proof.
  split; [exact weekConfig_valid|].
  split; [exact lateRandom_unit|].
  split; [vm_compute; reflexivity|].
  intros H. inversion H as [|e l [_ [_ [_ Hlate]]] _]; subst.
  vm_compute in Hlate. apply Hlate. reflexivity.
Qed.

Lemma plan_length_fixed_count_witness :
  exists plan, fst (generateCommitPlan Demo.halfRandom Demo.tenDaysConfig 0%nat) = Ok plan
               /\ Z.of_nat (List.length plan) = calendarDays 1704067200000 1704844800000 * 2.
Proof.
  apply (plan_length_fixed_count Demo.halfRandom Demo.tenDaysConfig 0%nat 2
           1704067200000 1704844800000);
    try reflexivity; try lia.
  intros n. unit_q.
Defined.

Example tenDays_twenty : calendarDays 1704067200000 1704844800000 * 2 = 20.
Proof. reflexivity. Qed.

Lemma estimate_ordered_witness :
  exists est, Floating.estimateCommitCount Demo.sparseConfig = Ok est
              /\ est_min est <= est_expected est <= est_max est.
Proof. apply (estimate_ordered Demo.sparseConfig). reflexivity. Defined.

(** With one day in ten skipped, of ten days, the products are rounded:
    [1 - 0.1] is [0.9] and [10 * 0.9] is [9], where the exact product is
    a little less. *)
Example estimate_sparse :
  (Binary64.round (1 # 10) == Demo.tenth)%Q
  /\ Floating.estimateCommitCount Demo.sparseConfig
     = Ok {| est_min := 9; est_max := 27; est_expected := 18 |}
  /\ estimateCommitCount Demo.sparseConfig
     = Ok {| est_min := 8; est_max := 26; est_expected := 17 |}.
Proof. split; [|split]; vm_compute; reflexivity. Qed.

Example rounded_estimate_tenDays :
  Floating.estimateCommitCount Demo.tenDaysConfig
  = Ok {| est_min := 20; est_max := 20; est_expected := 20 |}.
Proof. vm_compute. reflexivity. Qed.

Example estimate_tenDays :
  estimateCommitCount Demo.tenDaysConfig
  = Ok {| est_min := 20; est_max := 20; est_expected := 20 |}.
Proof. vm_compute. reflexivity. Qed.

Lemma generate_cancelled_witness :
  let calls :=
    traceOf Demo.interruptedEnv Demo.weekConfig true
      (Z.of_nat (List.length Demo.weekPlan)) 0 (firstn 3 Demo.weekPlan) in
  exists g' e,
    generate Demo.interruptedEnv Demo.weekConfig true Demo.usedState
    = (g', EvValidateRepo :: calls, Throw e)
    /\ code e = USER_CANCELLED
    /\ getGeneratedCommitsCount g' = successes Demo.interruptedEnv 0 3
    /\ applied calls = successes Demo.interruptedEnv 0 3
    /\ attempted calls = 3%nat
    /\ filter isReset calls = []
    /\ filter isPush calls = [].
Proof.
  apply (generate_cancelled Demo.interruptedEnv Demo.weekConfig true Demo.usedState
           Demo.weekPlan 3).
  - reflexivity.
  - vm_compute. reflexivity.
  - cbn. lia.
  - intros b Hb. destruct b as [|[|[|b]]]; [reflexivity | reflexivity | reflexivity | lia].
  - reflexivity.
Defined.

(** The interrupted run: two of the three commits made before the check
    succeeded, and the object says 2. *)
Example interrupted_run :
  let '(g', _, res) := generate Demo.interruptedEnv Demo.weekConfig true Demo.usedState in
  (getGeneratedCommitsCount g', res)
  = (2, Throw (mkError "Operation cancelled after 2 commits" USER_CANCELLED)).
Proof. vm_compute. reflexivity. Qed.

(** A [cancel()] that arrives during the last commit meets no check: the
    run returns its result, with the flag set. *)
Example cancel_during_last_commit :
  let '(g', _, res) := generate Demo.lateCancelEnv Demo.weekConfig true initial in
  (g', match res with Ok r => Some (success r, totalCommits r) | Throw _ => None end)
  = ({| cancelled := true; generatedCommits := 5 |}, Some (true, 5)).
Proof. vm_compute. reflexivity. Qed.

Lemma rollback_nonpositive_witness :
  (exists e, GitService.rollback (inr tt) (-3) = ([], Throw e) /\ code e = INVALID_CONFIG)
  /\ CommitGenerator.rollback (inr tt) (Some (-3)) Demo.usedState
     = (Demo.usedState, [], Ok tt).
Proof. apply (rollback_nonpositive (inr tt) (-3) Demo.usedState). lia. Defined.

(** C3 as stated fails for [CommitGenerator.rollback]: with the counts 0
    and -3 it returns normally, it does not throw [INVALID_CONFIG]. *)
Lemma engine_rollback_counterexample :
  ~ (exists e, snd (CommitGenerator.rollback (inr tt) (Some 0) Demo.usedState) = Throw e
               /\ code e = INVALID_CONFIG)
  /\ ~ (exists e, snd (CommitGenerator.rollback (inr tt) (Some (-3)) Demo.usedState) = Throw e
                  /\ code e = INVALID_CONFIG).
Proof. split; intros (e & H & _); discriminate H. Qed.

Example rollback_without_count :
  CommitGenerator.rollback (inr tt) None Demo.usedState
  = ({| cancelled := true; generatedCommits := 0 |}, [EvReset 7 true], Ok tt).
Proof. reflexivity. Qed.

Lemma generate_success_iff_witness :
  (exists g',
     generate Demo.calmEnv Demo.skipAllConfig true Demo.usedState
     = (g', [EvValidateRepo],
        Ok {| success := true;
              totalCommits := 0;
              res_startDate := startDate Demo.skipAllConfig;
              res_endDate := endDate Demo.skipAllConfig;
              duration := endTime Demo.calmEnv - startTime Demo.calmEnv;
              errors := [NO_COMMITS_NOTE] |})
     /\ getGeneratedCommitsCount g' = 0)
  /\ (exists g' log' res,
        generate Demo.flakyEnv Demo.weekConfig true initial = (g', log', Ok res))
  /\ (forall g' log' res,
        generate Demo.flakyEnv Demo.weekConfig true initial = (g', log', Ok res) ->
        (success res = true <-> errors res = [])).
Proof.
  split.
  - apply (generate_success_iff Demo.calmEnv Demo.skipAllConfig true Demo.usedState []).
    + reflexivity.
    + vm_compute. reflexivity.
  - destruct (generate_success_iff Demo.flakyEnv Demo.weekConfig true initial Demo.weekPlan)
      as [Hreturns Hiff].
    + reflexivity.
    + vm_compute. reflexivity.
    + split; [apply Hreturns; intros j; reflexivity | exact Hiff].
Defined.

(** C5 as stated fails on an empty plan: [success] is true and [errors]
    is not empty, it holds the note. *)
Lemma empty_plan_counterexample :
  generate Demo.calmEnv Demo.skipAllConfig true initial
  = (initial, [EvValidateRepo], Ok Demo.emptyResult)
  /\ ~ (success Demo.emptyResult = true <-> errors Demo.emptyResult = []).
Proof.
  split; [vm_compute; reflexivity|].
  intros [H _]. specialize (H eq_refl). discriminate H.
Qed.

Lemma generate_continues_after_failure_witness :
  exists g' log' res pushErrors,
    generate Demo.flakyEnv Demo.weekConfig true initial = (g', log', Ok res)
    /\ attempted log' = List.length Demo.weekPlan
    /\ getGeneratedCommitsCount g' = successes Demo.flakyEnv 0 (List.length Demo.weekPlan)
    /\ totalCommits res = successes Demo.flakyEnv 0 (List.length Demo.weekPlan)
    /\ errors res = (failures Demo.flakyEnv 0 (List.length Demo.weekPlan) ++ pushErrors)%list
    /\ (autoPush Demo.weekConfig = false -> pushErrors = []).
Proof.
  apply (generate_continues_after_failure Demo.flakyEnv Demo.weekConfig true initial
           Demo.weekPlan).
  - reflexivity.
  - vm_compute. reflexivity.
  - discriminate.
  - intros j. reflexivity.
Defined.

Example flaky_run :
  let '(g', log', res) := generate Demo.flakyEnv Demo.weekConfig true initial in
  (getGeneratedCommitsCount g', attempted log', progressCalls log',
   match res with Ok r => errors r | Throw _ => [] end)
  = (4, 5%nat, [(1, 5); (2, 5); (3, 5); (4, 5); (5, 5)],
     ["Failed to create commit 1: Failed to create commit: Error: index.lock exists"]).
Proof. vm_compute. reflexivity. Qed.

Lemma progress_reports_position_witness :
  let log' := snd (fst (generate Demo.flakyEnv Demo.weekConfig true initial)) in
  let total := Z.of_nat (List.length Demo.weekPlan) in
  (forall l1 m d f c ok l2,
      log' = (l1 ++ EvCreateCommit m d f c ok :: l2)%list ->
      exists msg l3, l2 = EvProgress (Z.of_nat (attempted l1) + 1) total msg :: l3)
  /\ (forall l1 cur tot msg l2,
        log' = (l1 ++ EvProgress cur tot msg :: l2)%list ->
        tot = total
        /\ cur = Z.of_nat (attempted l1)
        /\ (exists l0 m d f c ok, l1 = (l0 ++ [EvCreateCommit m d f c ok])%list)
        /\ (cur = applied l1 <-> filter isFailedCommit l1 = []))
  /\ progressCalls log'
     = map (fun i => (Z.of_nat i + 1, total)) (seq 0 (attempted log')).
Proof.
  apply (progress_reports_position Demo.flakyEnv Demo.weekConfig initial Demo.weekPlan).
  - reflexivity.
  - vm_compute. reflexivity.
Defined.

(** C7 as stated fails after a failed entry: the second commit succeeds
    and the callback receives 2, while one commit has been applied. *)
Lemma progress_after_failure_counterexample :
  reportsApplied 0 false (snd (fst (generate Demo.flakyEnv Demo.weekConfig true initial)))
  = false.
Proof. vm_compute. reflexivity. Qed.

Example progress_without_failure :
  reportsApplied 0 false (snd (fst (generate Demo.calmEnv Demo.weekConfig true initial)))
  = true.
Proof. vm_compute. reflexivity. Qed.

Example generate_after_cancel :
  generate Demo.calmEnv Demo.weekConfig false Demo.usedState
  = generate Demo.calmEnv Demo.weekConfig false initial
  /\ fst (fst (generate Demo.calmEnv Demo.weekConfig false Demo.usedState))
     = {| cancelled := false; generatedCommits := 5 |}.
Proof. split; [reflexivity | vm_compute; reflexivity]. Qed.

Example generate_from_cancelled_object :
  let run := generate Demo.calmEnv Demo.weekConfig false (cancel Demo.usedState) in
  isCancelled (cancel Demo.usedState) = true
  /\ getGeneratedCommitsCount (cancel Demo.usedState) = 7
  /\ attempted (snd (fst run)) = 5%nat
  /\ fst (fst run) = {| cancelled := false; generatedCommits := 5 |}.
Proof. vm_compute. repeat split. Qed.

Lemma generate_resets_state_witness :
  let run := generate Demo.calmEnv Demo.weekConfig false (cancel Demo.usedState) in
  attempted (snd (fst run)) = List.length Demo.weekPlan
  /\ isCancelled (fst (fst run)) = false
  /\ exists res, snd run = Ok res.
Proof.
  apply (generate_resets_state Demo.calmEnv Demo.weekConfig false Demo.usedState).
  - reflexivity.
  - vm_compute. reflexivity.
  - intros j. reflexivity.
Defined.

(** * Further properties of the program *)

(** ** Date ranges and the days of a plan *)

Lemma validateDateRange_cases (startDate endDate : string) :
  match validateDateRange startDate endDate with
  | Ok _ => Validator.isValidDateRange startDate endDate = true
  | Throw e => Validator.isValidDateRange startDate endDate = false
               /\ code e = INVALID_DATE_RANGE
  end.
Proof.
  unfold validateDateRange, Validator.isValidDateRange, Validator.isValidDateFormat, isAfter.
  destruct (parseISO startDate) as [s|]; cbn; [|split; reflexivity].
  destruct (parseISO endDate) as [t|]; cbn; [|split; reflexivity].
  destruct (Z.ltb_spec t s), (Z.leb_spec s t); try lia; try (split; reflexivity); reflexivity.
Qed.

(** X1.  On date strings of the shape the schema admits,
    [DateCalculator.validateDateRange] returns exactly when
    [Validator.isValidDateRange] answers true, and every error it throws
    has the code [INVALID_DATE_RANGE]. *)
Theorem validateDateRange_agrees (startDate endDate : string) :
  ConfigSchema.dateShape startDate = true ->
  ConfigSchema.dateShape endDate = true ->
  (validateDateRange startDate endDate = Ok tt
   <-> Validator.isValidDateRange startDate endDate = true)
  /\ (forall e, validateDateRange startDate endDate = Throw e ->
                code e = INVALID_DATE_RANGE).
Proof.
  intros _ _. pose proof (validateDateRange_cases startDate endDate) as H.
  destruct (validateDateRange startDate endDate) as [[]|e0].
  - split; [split; [intros _; exact H | reflexivity] | discriminate].
  - destruct H as [Hfalse Hcode]. split.
    + split; [discriminate | congruence].
    + intros e [= <-]. exact Hcode.
Qed.

Lemma validateDateRange_agrees_witness :
  (validateDateRange "2024-02-30" "2024-03-01" = Ok tt
   <-> Validator.isValidDateRange "2024-02-30" "2024-03-01" = true)
  /\ (forall e, validateDateRange "2024-02-30" "2024-03-01" = Throw e ->
                code e = INVALID_DATE_RANGE).
Proof.
  apply (validateDateRange_agrees "2024-02-30" "2024-03-01"); reflexivity.
Defined.


Lemma eachDayOfInterval_iff (s t day : Date) :
  In day (eachDayOfInterval s t)
  <-> exists dn, day = dn * MS_PER_DAY /\ dayNumber s <= dn <= dayNumber t.
Proof.
  unfold eachDayOfInterval. rewrite in_map_iff. split.
  - intros (i & <- & Hi). apply in_seq in Hi.
    exists (dayNumber s + Z.of_nat i). split; [reflexivity | lia].
  - intros (dn & -> & Hdn). exists (Z.to_nat (dn - dayNumber s)). split.
    + f_equal. lia.
    + apply in_seq. lia.
Qed.

Lemma eachDayOfInterval_ascending (s t : Date) :
  StronglySorted Z.lt (eachDayOfInterval s t).
Proof.
  unfold eachDayOfInterval.
  generalize (Z.to_nat (dayNumber t - dayNumber s + 1)) as len.
  generalize 0%nat as i.
  intros i len. revert i. induction len as [|len IH]; intros i; cbn [seq map].
  - constructor.
  - constructor; [apply IH|].
    apply Forall_forall. intros d Hd. apply in_map_iff in Hd.
    destruct Hd as (j & <- & Hj). apply in_seq in Hj.
    unfold MS_PER_DAY. lia.
Qed.

Lemma StronglySorted_filter {A} (R : A -> A -> Prop) (f : A -> bool) (l : list A) :
  StronglySorted R l -> StronglySorted R (filter f l).
Proof.
  induction 1 as [|x l Hs IH Hx]; cbn; [constructor|].
  destruct (f x); [|exact IH].
  constructor; [exact IH|].
  apply Forall_forall. intros y Hy. apply filter_In in Hy.
  rewrite Forall_forall in Hx. apply Hx. tauto.
Qed.

(** X2.  For a start date not after the end date, [getDaysInRange]
    returns the midnights of the calendar days from the first to the
    last, both included, whose weekday is not in [skipDays]: each of them
    once, in ascending order, and nothing else. *)
Theorem getDaysInRange_days (sd ed : string) (skip : list Z) (s t : Date) :
  parseISO sd = Some s -> parseISO ed = Some t -> s <= t ->
  exists days, getDaysInRange sd ed skip = Ok days
    /\ StronglySorted Z.lt days
    /\ (forall day, In day days <-> activeDay s t skip day).
Proof.
  intros Hs Ht Hle. unfold getDaysInRange, validateDateRange, isAfter.
  rewrite Hs, Ht. destruct (Z.ltb_spec t s); [lia|].
  eexists. split; [reflexivity|]. split.
  - apply StronglySorted_filter, eachDayOfInterval_ascending.
  - intros day. rewrite filter_In, eachDayOfInterval_iff, negb_true_iff. unfold activeDay.
    split.
    + intros [(dn & -> & Hdn) Hskip]. exists dn. repeat split; try lia.
      intros Hin.
      assert (existsb (Z.eqb (getDay (dn * MS_PER_DAY))) skip = true)
        by (apply existsb_exists; eexists; split; [exact Hin | apply Z.eqb_refl]).
      congruence.
    + intros (dn & -> & Hdn & Hskip). split; [exists dn; split; [reflexivity|lia]|].
      destruct (existsb _ skip) eqn:E; [|reflexivity].
      apply existsb_exists in E. destruct E as (x & Hx & Heq).
      apply Z.eqb_eq in Heq. subst x. contradiction.
Qed.

Lemma getDaysInRange_days_witness :
  exists days, getDaysInRange "2024-01-01" "2024-01-07" [0; 6] = Ok days
    /\ StronglySorted Z.lt days
    /\ (forall day, In day days
                    <-> activeDay (19723 * MS_PER_DAY) (19729 * MS_PER_DAY) [0; 6] day).
Proof.
  apply (getDaysInRange_days "2024-01-01" "2024-01-07" [0; 6]
           (19723 * MS_PER_DAY) (19729 * MS_PER_DAY)).
  - vm_compute. reflexivity.
  - vm_compute. reflexivity.
  - vm_compute. discriminate.
Defined.


Lemma getDay_range (d : Date) : 0 <= getDay d <= 6.
Proof. unfold getDay. pose proof (Z.mod_pos_bound (dayNumber d + 4) 7). lia. Qed.

Lemma filter_length_le {A} (f : A -> bool) (l : list A) :
  (List.length (filter f l) <= List.length l)%nat.
Proof. induction l as [|x l IH]; cbn; [lia|]. destruct (f x); cbn; lia. Qed.

Lemma filter_split_length {A} (f : A -> bool) (l : list A) :
  (List.length (filter f l) + List.length (filter (fun x => negb (f x)) l))%nat
  = List.length l.
Proof. induction l as [|x l IH]; cbn; [reflexivity|]. destruct (f x); cbn; lia. Qed.

(** X3.  [getDateStats] counts the calendar days of the range;
    weekdays and weekend days add up to that total, the active days are
    at most the total, they are all the days when no weekday is skipped,
    and the weekdays when Sunday and Saturday are. *)
Theorem getDateStats_counts (sd ed : string) (skip : list Z) (s t : Date) :
  parseISO sd = Some s -> parseISO ed = Some t -> s <= t ->
  exists stats, getDateStats sd ed skip = Ok stats
    /\ totalDays stats = calendarDays s t
    /\ weekdays stats + weekends stats = totalDays stats
    /\ 0 <= weekends stats <= totalDays stats
    /\ 0 <= activeDays stats <= totalDays stats
    /\ (skip = [] -> activeDays stats = totalDays stats)
    /\ (skip = [0; 6] -> activeDays stats = weekdays stats).
Proof.
  intros Hs Ht Hle. unfold getDateStats.
  rewrite !(getDaysInRange_ok _ _ _ s t Hs Ht Hle).
  eexists. split; [reflexivity|]. cbn [totalDays weekdays weekends activeDays].
  cbn [existsb negb].
  rewrite (forallb_filter_id (fun _ => true)) by (apply forallb_forall; reflexivity).
  rewrite eachDayOfInterval_length.
  assert (Hdn : dayNumber s <= dayNumber t).
  { unfold dayNumber. apply Z.div_le_mono; [unfold MS_PER_DAY|]; lia. }
  set (all := eachDayOfInterval s t).
  assert (Hall : List.length all = Z.to_nat (dayNumber t - dayNumber s + 1))
    by apply eachDayOfInterval_length.
  pose proof (filter_length_le (fun day => (getDay day =? 0) || (getDay day =? 6)) all).
  pose proof (filter_length_le (fun day => negb (existsb (Z.eqb (getDay day)) skip)) all).
  unfold calendarDays. repeat split; try lia.
  - intros ->. cbn [existsb negb].
    rewrite (forallb_filter_id (fun _ => true)) by (apply forallb_forall; reflexivity).
    lia.
  - intros ->.
    pose proof (filter_split_length (fun day => (getDay day =? 0) || (getDay day =? 6)) all)
      as Hsplit.
    rewrite (filter_ext (fun day => negb (existsb (Z.eqb (getDay day)) [0; 6]))
               (fun day => negb ((getDay day =? 0) || (getDay day =? 6)))).
    + lia.
    + intros day. cbn [existsb]. rewrite orb_false_r. reflexivity.
Qed.

Lemma getDateStats_counts_witness :
  exists stats, getDateStats "2024-01-01" "2024-01-07" [0; 6] = Ok stats
    /\ totalDays stats = calendarDays (19723 * MS_PER_DAY) (19729 * MS_PER_DAY)
    /\ weekdays stats + weekends stats = totalDays stats
    /\ 0 <= weekends stats <= totalDays stats
    /\ 0 <= activeDays stats <= totalDays stats
    /\ ([0; 6] = [] -> activeDays stats = totalDays stats)
    /\ ([0; 6] = [0; 6] -> activeDays stats = weekdays stats).
Proof.
  apply (getDateStats_counts "2024-01-01" "2024-01-07" [0; 6]
           (19723 * MS_PER_DAY) (19729 * MS_PER_DAY)).
  - vm_compute. reflexivity.
  - vm_compute. reflexivity.
  - vm_compute. discriminate.
Defined.


Lemma commitCount_range (random : nat -> Q) (min max : Z) (n : nat) :
  unit_source random -> min <= max ->
  min <= fst (getRandomCommitCount random min max n) <= max.
Proof.
  intros Hrandom Hle. unfold getRandomCommitCount, Math_random, bind, ret. cbn [fst].
  pose proof (floor_scaled_bounds (random n) (max - min + 1) (Hrandom n) ltac:(lia)).
  lia.
Qed.

(** X4.  For [min <= max] and a value of [Math.random()] in [0, 1),
    [getRandomCommitCount] returns an integer from [min] to [max], [min]
    itself when the two are equal, and it calls [Math.random()] once. *)
Theorem getRandomCommitCount_between (random : nat -> Q) (min max : Z) (n : nat) :
  unit_source random -> min <= max ->
  min <= fst (getRandomCommitCount random min max n) <= max
  /\ (min = max -> fst (getRandomCommitCount random min max n) = min)
  /\ snd (getRandomCommitCount random min max n) = S n.
Proof.
  intros Hrandom Hle.
  pose proof (floor_scaled_bounds (random n) (max - min + 1) (Hrandom n) ltac:(lia)) as Hf.
  unfold getRandomCommitCount, Math_random, bind, ret. cbn [fst snd].
  split; [lia|]. split; [|reflexivity].
  intros ->. replace (max - max + 1) with 1 in * by lia. lia.
Qed.

Lemma getRandomCommitCount_between_witness :
  1 <= fst (getRandomCommitCount Demo.halfRandom 1 5 0%nat) <= 5
  /\ (1 = 5 -> fst (getRandomCommitCount Demo.halfRandom 1 5 0%nat) = 1)
  /\ snd (getRandomCommitCount Demo.halfRandom 1 5 0%nat) = 1%nat.
Proof.
  apply (getRandomCommitCount_between Demo.halfRandom 1 5 0%nat).
  - exact halfRandom_unit.
  - vm_compute. discriminate.
Defined.


(** X5.  For two valid times of day with the start not after the end,
    [generateRandomTime] returns a time of the clock (hours up to 23,
    minutes and seconds up to 59) whose hour and minute lie from the
    start to the end, both included. *)
Theorem generateRandomTime_within (random : nat -> Q) (startTime endTime : string) (n : nat) :
  unit_source random ->
  Validator.isValidTimeFormat startTime = true ->
  Validator.isValidTimeFormat endTime = true ->
  fst (parseTime startTime) * 60 + snd (parseTime startTime)
    <= fst (parseTime endTime) * 60 + snd (parseTime endTime) ->
  let t := fst (generateRandomTime random startTime endTime n) in
  0 <= hours t <= 23 /\ 0 <= minutes t <= 59 /\ 0 <= seconds t <= 59
  /\ fst (parseTime startTime) * 60 + snd (parseTime startTime)
     <= hours t * 60 + minutes t
     <= fst (parseTime endTime) * 60 + snd (parseTime endTime).
Proof.
  intros Hrandom Hstart Hend Hle.
  destruct (parseTime_valid _ Hstart) as (h1 & m1 & E1 & Hh1 & Hm1).
  destruct (parseTime_valid _ Hend) as (h2 & m2 & E2 & Hh2 & Hm2).
  unfold generateRandomTime, Math_random, bind, ret.
  rewrite E1, E2 in *. cbn [fst snd hours minutes seconds] in *.
  set (sm := h1 * 60 + m1) in *. set (em := h2 * 60 + m2) in *.
  pose proof (floor_scaled_bounds (random n) (em - sm + 1) (Hrandom n) ltac:(lia)) as Hrm.
  pose proof (floor_scaled_bounds (random (S n)) 60 (Hrandom _) ltac:(lia)) as Hs.
  set (rm := Qfloor (random n * inject_Z (em - sm + 1)) + sm) in *.
  assert (Hrm' : sm <= rm <= em) by (unfold rm; lia).
  rewrite (Z.rem_mod_nonneg rm 60) by lia.
  pose proof (Z.div_mod rm 60 ltac:(lia)).
  pose proof (Z.mod_pos_bound rm 60 ltac:(lia)).
  assert (0 <= rm / 60 < 24)
    by (split; [apply Z.div_pos; lia | apply Z.div_lt_upper_bound; lia]).
  lia.
Qed.

Lemma generateRandomTime_within_witness :
  let t := fst (generateRandomTime Demo.lateRandom "09:00" "18:00" 2%nat) in
  0 <= hours t <= 23 /\ 0 <= minutes t <= 59 /\ 0 <= seconds t <= 59
  /\ fst (parseTime "09:00") * 60 + snd (parseTime "09:00")
     <= hours t * 60 + minutes t
     <= fst (parseTime "18:00") * 60 + snd (parseTime "18:00").
Proof.
  apply (generateRandomTime_within Demo.lateRandom "09:00" "18:00" 2%nat).
  - exact lateRandom_unit.
  - reflexivity.
  - reflexivity.
  - vm_compute. discriminate.
Defined.


Lemma sort_insert_Permutation {A} (cmp : A -> A -> Z) (x : A) (l : list A) :
  Permutation (sort_insert cmp x l) (x :: l).
Proof.
  induction l as [|y l IH]; cbn; [reflexivity|].
  destruct (cmp x y <=? 0); [reflexivity|].
  rewrite IH. apply perm_swap.
Qed.

Lemma Array_sort_Permutation {A} (cmp : A -> A -> Z) (l : list A) :
  Permutation (Array_sort cmp l) l.
Proof.
  induction l as [|x l IH]; [reflexivity|].
  rewrite Array_sort_cons, sort_insert_Permutation, IH. reflexivity.
Qed.

Lemma planCommit_step (random : nat -> Q) (config : Config) (day : Date)
    (plan : list CommitPlan) (ci : Z) (n : nat) :
  exists e, fst (planCommit random config day (plan, ci) n) = (plan ++ [e], ci + 1)%list
            /\ index e = ci /\ rendered config e.
Proof.
  unfold planCommit, generateRandomTime, Math_random, bind, ret. cbn [fst snd].
  eexists. split; [reflexivity|]. split; [reflexivity|]. split; reflexivity.
Qed.

Lemma planCommit_counted random config day st n :
  counted st -> counted (fst (planCommit random config day st n)).
Proof.
  destruct st as [plan ci]. intros [Hmap Hci].
  destruct (planCommit_step random config day plan ci n) as (e & -> & He & _).
  unfold counted in *. cbn [fst snd] in *. subst ci.
  rewrite length_app, map_app, Hmap. cbn [List.length map].
  rewrite Nat.add_1_r, seq_S, map_app, He. cbn [map]. split; [reflexivity | lia].
Qed.

(** X6.  For every valid configuration the indices of the plan are the
    numbers 0 to length - 1, each once, and every entry carries the
    message template rendered with its own timestamp and index, and the
    time of day of its own timestamp. *)
Theorem plan_entries_numbered_and_rendered (random : nat -> Q) (config : Config) (n : nat) :
  Validator.validateConfig config = true ->
  exists plan, fst (generateCommitPlan random config n) = Ok plan
    /\ Permutation (map index plan) (map Z.of_nat (seq 0 (List.length plan)))
    /\ Forall (rendered config) plan.
Proof.
  intros Hvalid. destruct (valid_dates config Hvalid) as (s & t & Hs & Ht & Hle).
  unfold generateCommitPlan.
  rewrite (getDaysInRange_ok _ _ _ s t Hs Ht Hle).
  rewrite bind_eq. cbn [ret fst].
  eexists. split; [reflexivity|]. split.
  - rewrite Array_sort_length.
    rewrite (Permutation_map index (Array_sort_Permutation _ _)).
    match goal with |- context [planDays ?r ?c ?d ?st ?k] =>
      assert (Hc : counted (fst (planDays r c d st k)))
    end.
    { apply planDays_inv; [|split; reflexivity].
      intros day st k _. apply planCommit_counted. }
    destruct Hc as [-> _]. reflexivity.
  - apply Array_sort_Forall.
    apply (planDays_inv random config (fun st => Forall (rendered config) (fst st)));
      [|constructor].
    intros day [plan ci] k _ Hplan.
    destruct (planCommit_step random config day plan ci k) as (e & -> & _ & He).
    cbn [fst] in *. apply Forall_app. split; [exact Hplan|].
    constructor; [exact He | constructor].
Qed.

Lemma plan_entries_numbered_and_rendered_witness :
  exists plan, fst (generateCommitPlan Demo.lateRandom Demo.weekConfig 0%nat) = Ok plan
    /\ Permutation (map index plan) (map Z.of_nat (seq 0 (List.length plan)))
    /\ Forall (rendered Demo.weekConfig) plan.
Proof.
  apply (plan_entries_numbered_and_rendered Demo.lateRandom Demo.weekConfig 0%nat).
  vm_compute. reflexivity.
Defined.


Section PlanSize.

Variable random : nat -> Q.
Variable config : Config.
Hypothesis random_unit : unit_source random.
Hypothesis min_max : cpd_min (commitsPerDay config) <= cpd_max (commitsPerDay config).
Hypothesis min_nonneg : 0 <= cpd_min (commitsPerDay config).

Lemma planDays_length_le (days : list Date) : forall st n,
  (List.length (fst (fst (planDays random config days st n)))
   <= List.length (fst st)
      + List.length days * Z.to_nat (cpd_max (commitsPerDay config)))%nat.
Proof.
  induction days as [|day days IH]; intros st n; cbn [planDays].
  - cbn. lia.
  - rewrite bind_eq.
    destruct (fst (shouldSkipDay random (skipProbability config) n)).
    + specialize (IH st (snd (shouldSkipDay random (skipProbability config) n))).
      cbn [List.length]. lia.
    + rewrite !bind_eq.
      match goal with |- context [planDays random config days ?st' ?k] =>
        specialize (IH st' k)
      end.
      rewrite planDay_length in IH.
      match type of IH with context [getRandomCommitCount random ?a ?b ?k] =>
        pose proof (commitCount_range random a b k random_unit min_max) as Hc
      end.
      cbn [List.length]. lia.
Qed.

Hypothesis never_skip : (skipProbability config == 0)%Q.

Lemma planDays_length_ge (days : list Date) : forall st n,
  (List.length (fst st)
   + List.length days * Z.to_nat (cpd_min (commitsPerDay config))
   <= List.length (fst (fst (planDays random config days st n))))%nat.
Proof.
  induction days as [|day days IH]; intros st n; cbn [planDays].
  - cbn. lia.
  - rewrite bind_eq.
    assert (Hskip : fst (shouldSkipDay random (skipProbability config) n) = false).
    { unfold shouldSkipDay, Math_random, bind, ret. cbn [fst].
      apply negb_false_iff. apply Qle_bool_iff.
      rewrite never_skip. apply (random_unit n). }
    rewrite Hskip, !bind_eq.
    match goal with |- context [planDays random config days ?st' ?k] =>
      specialize (IH st' k)
    end.
    rewrite planDay_length in IH.
    match type of IH with context [getRandomCommitCount random ?a ?b ?k] =>
      pose proof (commitCount_range random a b k random_unit min_max) as Hc
    end.
    cbn [List.length]. lia.
Qed.

End PlanSize.

Lemma valid_commitsPerDay (config : Config) :
  Validator.validateConfig config = true ->
  0 <= cpd_min (commitsPerDay config) <= cpd_max (commitsPerDay config)
  /\ 1 <= cpd_max (commitsPerDay config) <= 50.
Proof.
  unfold Validator.validateConfig, Validator.isValidCommitsPerDay.
  rewrite !andb_true_iff. lia.
Qed.

(** X7.  For every valid configuration the plan has at most
    [commitsPerDay.max] entries for each active day that [getDateStats]
    counts, hence at most 50 for each day of the range. *)
Theorem plan_length_at_most (random : nat -> Q) (config : Config) (n : nat) :
  unit_source random ->
  Validator.validateConfig config = true ->
  exists plan stats,
    fst (generateCommitPlan random config n) = Ok plan
    /\ getDateStats (startDate config) (endDate config) (skipDays config) = Ok stats
    /\ Z.of_nat (List.length plan) <= activeDays stats * cpd_max (commitsPerDay config)
    /\ Z.of_nat (List.length plan) <= totalDays stats * 50.
Proof.
  intros Hrandom Hvalid.
  destruct (valid_dates config Hvalid) as (s & t & Hs & Ht & Hle).
  destruct (valid_commitsPerDay config Hvalid) as [Hcpd Hmax].
  unfold generateCommitPlan, getDateStats.
  rewrite !(getDaysInRange_ok _ _ _ s t Hs Ht Hle).
  rewrite bind_eq. cbn [ret fst].
  do 2 eexists. split; [reflexivity|]. split; [reflexivity|].
  cbn [activeDays totalDays]. rewrite Array_sort_length.
  match goal with |- context [planDays random config ?days ?st ?k] =>
    pose proof (planDays_length_le random config Hrandom ltac:(lia) days st k) as Hlen;
    pose proof (filter_length_le (fun day => negb (existsb (Z.eqb (getDay day)) [])) 
                  (eachDayOfInterval s t)) as Hall;
    pose proof (filter_length_le
                  (fun day => negb (existsb (Z.eqb (getDay day)) (skipDays config)))
                  (eachDayOfInterval s t)) as Hact
  end.
  cbn [fst List.length] in Hlen.
  cbn [existsb negb] in *.
  rewrite (forallb_filter_id (fun _ => true)) in * by (apply forallb_forall; reflexivity).
  split; [nia|nia].
Qed.

Lemma plan_length_at_most_witness :
  exists plan stats,
    fst (generateCommitPlan Demo.halfRandom Cases.variedConfig 0%nat) = Ok plan
    /\ getDateStats (startDate Cases.variedConfig) (endDate Cases.variedConfig)
         (skipDays Cases.variedConfig) = Ok stats
    /\ Z.of_nat (List.length plan)
       <= activeDays stats * cpd_max (commitsPerDay Cases.variedConfig)
    /\ Z.of_nat (List.length plan) <= totalDays stats * 50.
Proof.
  apply (plan_length_at_most Demo.halfRandom Cases.variedConfig 0%nat).
  - exact halfRandom_unit.
  - vm_compute. reflexivity.
Defined.

Lemma effective_days_exact (p : Q) (a m : Z) :
  (p == 0)%Q -> Qfloor (inject_Z a * (1 - p) * inject_Z m) = a * m.
Proof.
  intros Hp. rewrite <- (Qfloor_Z (a * m)). apply Qfloor_comp.
  rewrite Hp, inject_Z_mult. ring.
Qed.

(** X8.  With [skipProbability = 0], the number of entries of the plan
    lies between the [min] and the [max] of [estimateCommitCount],
    whatever [Math.random()] returns. *)
Theorem estimate_bounds_plan (random : nat -> Q) (config : Config) (n : nat) :
  unit_source random ->
  Validator.validateConfig config = true ->
  (skipProbability config == 0)%Q ->
  exists plan est,
    fst (generateCommitPlan random config n) = Ok plan
    /\ estimateCommitCount config = Ok est
    /\ est_min est <= Z.of_nat (List.length plan) <= est_max est.
Proof.
  intros Hrandom Hvalid Hp.
  destruct (valid_dates config Hvalid) as (s & t & Hs & Ht & Hle).
  destruct (valid_commitsPerDay config Hvalid) as [Hcpd Hmax].
  unfold generateCommitPlan, estimateCommitCount.
  rewrite !(getDaysInRange_ok _ _ _ s t Hs Ht Hle).
  rewrite bind_eq. cbn [ret fst].
  do 2 eexists. split; [reflexivity|]. split; [reflexivity|].
  cbn [est_min est_max]. rewrite Array_sort_length, !(effective_days_exact _ _ _ Hp).
  match goal with |- context [planDays random config ?days ?st ?k] =>
    pose proof (planDays_length_le random config Hrandom ltac:(lia) days st k) as Hhi;
    pose proof (planDays_length_ge random config Hrandom ltac:(lia) Hp days st k) as Hlo
  end.
  cbn [fst List.length] in Hhi, Hlo. nia.
Qed.

Lemma estimate_bounds_plan_witness :
  exists plan est,
    fst (generateCommitPlan Demo.halfRandom Cases.variedConfig 0%nat) = Ok plan
    /\ estimateCommitCount Cases.variedConfig = Ok est
    /\ est_min est <= Z.of_nat (List.length plan) <= est_max est.
Proof.
  apply (estimate_bounds_plan Demo.halfRandom Cases.variedConfig 0%nat).
  - exact halfRandom_unit.
  - vm_compute. reflexivity.
  - reflexivity.
Defined.


Lemma valid_range_dates (sd ed : string) :
  Validator.isValidDateRange sd ed = true ->
  exists s t, parseISO sd = Some s /\ parseISO ed = Some t /\ s <= t.
Proof.
  unfold Validator.isValidDateRange, Validator.isValidDateFormat.
  destruct (parseISO sd) as [s|]; [|discriminate].
  destruct (parseISO ed) as [t|]; [|discriminate].
  cbn. intros H. exists s, t. repeat split. lia.
Qed.

(** X9.  With [skipProbability = 1] every day is skipped: the plan of a
    valid date range is empty, whatever [Math.random()] returns. *)
Theorem plan_empty_when_always_skipping (random : nat -> Q) (config : Config) (n : nat) :
  unit_source random ->
  Validator.isValidDateRange (startDate config) (endDate config) = true ->
  (skipProbability config == 1)%Q ->
  fst (generateCommitPlan random config n) = Ok [].
Proof.
  intros Hrandom Hrange Hp.
  destruct (valid_range_dates _ _ Hrange) as (s & t & Hs & Ht & Hle).
  unfold generateCommitPlan.
  rewrite (getDaysInRange_ok _ _ _ s t Hs Ht Hle).
  rewrite bind_eq. cbn [ret fst].
  assert (Hnone : forall days k, fst (planDays random config days ([], 0) k) = ([], 0)).
  { induction days as [|day days IH]; intros k; cbn [planDays]; [reflexivity|].
    rewrite bind_eq.
    assert (Hskip : fst (shouldSkipDay random (skipProbability config) k) = true).
    { unfold shouldSkipDay, Math_random, bind, ret. cbn [fst].
      apply negb_true_iff. destruct (Qle_bool _ _) eqn:E; [|reflexivity].
      apply Qle_bool_iff in E. rewrite Hp in E.
      destruct (Hrandom k) as [_ Hlt]. exfalso. apply (Qlt_not_le _ _ Hlt E). }
    rewrite Hskip. apply IH. }
  rewrite Hnone. reflexivity.
Qed.

Lemma plan_empty_when_always_skipping_witness :
  fst (generateCommitPlan Demo.lateRandom Demo.skipAllConfig 0%nat) = Ok [].
Proof.
  apply (plan_empty_when_always_skipping Demo.lateRandom Demo.skipAllConfig 0%nat).
  - exact lateRandom_unit.
  - vm_compute. reflexivity.
  - reflexivity.
Defined.

(** ** Commits per day *)






Section PerDay.

Variable random : nat -> Q.
Variable config : Config.
Hypothesis random_unit : unit_source random.
Hypothesis start_valid : Validator.isValidTimeFormat (tr_start (timeRange config)) = true.
Hypothesis end_valid : Validator.isValidTimeFormat (tr_end (timeRange config)) = true.
Hypothesis window_ordered : startMinutesOf config <= endMinutesOf config.
Hypothesis min_max : cpd_min (commitsPerDay config) <= cpd_max (commitsPerDay config).
Hypothesis min_nonneg : 0 <= cpd_min (commitsPerDay config).



End PerDay.



(** ** Commit messages *)

Lemma noBrace_app (s1 s2 : string) :
  noBrace (s1 ++ s2) = noBrace s1 && noBrace s2.
Proof.
  induction s1 as [|c s1 IH]; cbn; [reflexivity|].
  rewrite IH, andb_assoc. reflexivity.
Qed.

Lemma prefix_brace_mismatch (p s : string) (c : ascii) :
  Ascii.eqb c "{" = false -> prefix (String "{" p) (String c s) = false.
Proof.
  intros Hc. cbn [prefix]. destruct (ascii_dec "{" c) as [<-|]; [|reflexivity].
  rewrite Ascii.eqb_refl in Hc. discriminate.
Qed.

(** A pattern that starts with a brace passes over text without braces. *)
Lemma replace_go_passes (p rep pre s : string) :
  noBrace pre = true ->
  Str.replace_go (String "{" p) rep 0 (pre ++ s)
  = pre ++ Str.replace_go (String "{" p) rep 0 s.
Proof.
  induction pre as [|c pre IH]; intros Hpre; [reflexivity|].
  cbn [noBrace] in Hpre. apply andb_true_iff in Hpre. destruct Hpre as [Hc Hpre].
  apply negb_true_iff in Hc.
  cbn [append Str.replace_go]. rewrite (prefix_brace_mismatch p (pre ++ s) c Hc).
  rewrite IH by exact Hpre. reflexivity.
Qed.

Lemma append_empty_r (s : string) : s ++ EmptyString = s.
Proof. induction s as [|c s IH]; cbn; [reflexivity | rewrite IH; reflexivity]. Qed.

Lemma append_assoc (a b c : string) : (a ++ b) ++ c = a ++ (b ++ c).
Proof. induction a as [|x a IH]; cbn; [reflexivity | rewrite IH; reflexivity]. Qed.

Lemma replace_all_noBrace (p rep s : string) :
  noBrace s = true -> Str.replace_all (String "{" p) rep s = s.
Proof.
  intros Hs. unfold Str.replace_all.
  rewrite <- (append_empty_r s) at 1.
  rewrite replace_go_passes by exact Hs. cbn. apply append_empty_r.
Qed.

Lemma noBrace_uint (d : Decimal.uint) : noBrace (NilEmpty.string_of_uint d) = true.
Proof. induction d; cbn; try reflexivity; exact IHd. Qed.

Lemma noBrace_of_Z (n : Z) : noBrace (Str.of_Z n) = true.
Proof.
  unfold Str.of_Z, NilZero.string_of_int, NilZero.string_of_uint.
  destruct (Z.to_int n) as [d|d]; destruct d; try reflexivity;
    cbn [NilEmpty.string_of_uint noBrace]; cbn; apply noBrace_uint.
Qed.

(** X11.  A template without an opening brace has no placeholder:
    [formatCommitMessage] returns it unchanged, whatever the date and the
    index. *)
Theorem formatCommitMessage_plain (template : string) (d : Date) (i : Z) :
  noBrace template = true ->
  formatCommitMessage template d i = template.
Proof.
  intros H. unfold formatCommitMessage.
  rewrite !(replace_all_noBrace _ _ template H). reflexivity.
Qed.

Lemma formatCommitMessage_plain_witness :
  formatCommitMessage "nightly build" (19723 * MS_PER_DAY) 4 = "nightly build".
Proof.
  apply (formatCommitMessage_plain "nightly build" (19723 * MS_PER_DAY) 4).
  reflexivity.
Defined.

Lemma replace_go_noBrace (p rep s : string) :
  noBrace s = true -> Str.replace_go (String "{" p) rep 0 s = s.
Proof. apply replace_all_noBrace. Qed.

Lemma noBrace_pad2 (n : Z) : noBrace (Str.pad2 n) = true.
Proof.
  unfold Str.pad2. destruct (n <? 10); [|apply noBrace_of_Z].
  rewrite noBrace_app, noBrace_of_Z. reflexivity.
Qed.

Lemma noBrace_pad4 (n : Z) : noBrace (Str.pad4 n) = true.
Proof.
  unfold Str.pad4.
  destruct (n <? 10); [rewrite noBrace_app, noBrace_of_Z; reflexivity|].
  destruct (n <? 100); [rewrite noBrace_app, noBrace_of_Z; reflexivity|].
  destruct (n <? 1000); [rewrite noBrace_app, noBrace_of_Z; reflexivity|].
  apply noBrace_of_Z.
Qed.

Lemma noBrace_format (d : Date) (p : Pattern) : noBrace (format d p) = true.
Proof.
  unfold format, format_date, format_time.
  destruct (civil_from_days (dayNumber d)) as [[y m] dd].
  destruct p; rewrite ?noBrace_app, ?noBrace_pad2, ?noBrace_pad4; reflexivity.
Qed.

Lemma placeholders_noBrace (d : Date) (i : Z) (name value : string) :
  In (name, value) (placeholders d i) -> noBrace value = true.
Proof.
  unfold placeholders. cbn [In].
  intros H. repeat (destruct H as [[= <- <-]|H]; [first [apply noBrace_format | apply noBrace_of_Z]|]).
  contradiction.
Qed.

Lemma prefix_empty (s : string) : prefix EmptyString s = true.
Proof. destruct s; reflexivity. Qed.

(** The chain of replacements on a template with a single placeholder:
    each step passes over [pre], meets the placeholder, and leaves
    [post] alone. *)
Ltac replace_through pre post Hpre Hpost Hdone :=
  repeat (first [ rewrite Hdone
                | rewrite (replace_go_passes _ _ pre _ Hpre); cbn;
                  rewrite ?prefix_empty;
                  rewrite (replace_go_noBrace _ _ post Hpost) ]);
  reflexivity.

Lemma date_placeholder_replaced (pre post : string) (d : Date) (i : Z) :
  noBrace pre = true -> noBrace post = true ->
  formatCommitMessage (pre ++ "{{date}}" ++ post) d i
  = pre ++ format d P_yyyy_MM_dd ++ post.
Proof.
  intros Hpre Hpost.
  assert (Hdone : forall p rep,
            Str.replace_go (String "{" p) rep 0 (pre ++ format d P_yyyy_MM_dd ++ post)
            = pre ++ format d P_yyyy_MM_dd ++ post).
  { intros. apply replace_go_noBrace.
    rewrite !noBrace_app, Hpre, Hpost, noBrace_format. reflexivity. }
  unfold formatCommitMessage, Str.replace_all.
  revert Hdone. generalize (format d P_yyyy_MM_dd). intros value Hdone.
  generalize (format d P_yyyy_MM_dd_HH_mm_ss) (format d P_HH_mm_ss) (Str.of_Z (i + 1))
             (format d P_yyyy) (format d P_MM) (format d P_dd).
  intros. replace_through pre post Hpre Hpost Hdone.
Qed.

(** X12.  In a template made of one placeholder between two texts
    without braces, [formatCommitMessage] puts the placeholder's value
    in its place and keeps the texts: the date, the date and time, the
    time, the year, the month or the day of the commit's timestamp, or
    the index counted from 1. *)
Theorem formatCommitMessage_placeholder (pre post name value : string) (d : Date) (i : Z) :
  In (name, value) (placeholders d i) ->
  noBrace pre = true -> noBrace post = true ->
  formatCommitMessage (pre ++ name ++ post) d i = pre ++ value ++ post.
Proof.
  intros Hin Hpre Hpost.
  pose proof (placeholders_noBrace d i name value Hin) as Hvalue.
  assert (Hdone : forall p rep, Str.replace_go (String "{" p) rep 0 (pre ++ value ++ post)
                                = pre ++ value ++ post).
  { intros. apply replace_go_noBrace.
    rewrite !noBrace_app, Hpre, Hpost, Hvalue. reflexivity. }
  unfold placeholders in Hin. cbn [In] in Hin.
  unfold formatCommitMessage, Str.replace_all.
  repeat (destruct Hin as [[= <- Hv]|Hin];
          [rewrite Hv; clear Hv Hvalue;
           generalize (format d P_yyyy_MM_dd) (format d P_yyyy_MM_dd_HH_mm_ss)
                      (format d P_HH_mm_ss) (Str.of_Z (i + 1)) (format d P_yyyy)
                      (format d P_MM) (format d P_dd);
           intros; replace_through pre post Hpre Hpost Hdone|]).
  contradiction.
Qed.

Lemma formatCommitMessage_placeholder_witness :
  formatCommitMessage ("auto commit: " ++ "{{date}}" ++ " (#42)") (19723 * MS_PER_DAY) 4
  = "auto commit: " ++ "2024-01-01" ++ " (#42)".
Proof.
  apply (formatCommitMessage_placeholder "auto commit: " " (#42)" "{{date}}" "2024-01-01"
           (19723 * MS_PER_DAY) 4).
  - left. vm_compute. reflexivity.
  - reflexivity.
  - reflexivity.
Defined.


(** ** The calendar: a date string and the day it denotes *)

Lemma upto_In (count : nat) : forall from z,
  from <= z < from + Z.of_nat count -> In z (upto count from).
Proof.
  induction count as [|count IH]; intros from z Hz; [lia|].
  cbn [upto]. destruct (Z.eq_dec from z) as [->|Hne]; [left; reflexivity|].
  right. apply IH. lia.
Qed.

Lemma range_checked (n : Z) (P : Z -> bool) :
  forallb P (range n) = true -> forall z, 0 <= z < n -> P z = true.
Proof.
  intros Hall z Hz. rewrite forallb_forall in Hall. apply Hall.
  apply upto_In. lia.
Qed.

(** Every year of the cycle starts and ends in itself. *)
Lemma years_all :
  forallb (fun yoe =>
             (0 <=? yearStart yoe) && (yearStart yoe + yearLast yoe <? 146097)
             && (yearOfCycle (yearStart yoe) =? yoe)
             && (yearOfCycle (yearStart yoe + yearLast yoe) =? yoe))
          (range 400) = true.
Proof. vm_compute. reflexivity. Qed.

(** Every day of every month is found again from its day of the year. *)
Lemma months_all :
  forallb (fun m0 =>
             forallb (fun d0 =>
                        negb (d0 + 1 <=? days_in_month 0 (m0 + 1))
                        || (let '(m', d') := monthDay (dayOfYear (m0 + 1) (d0 + 1)) in
                            (m' =? m0 + 1) && (d' =? d0 + 1)))
                     (range 31))
          (range 12) = true.
Proof. vm_compute. reflexivity. Qed.

Lemma years_checked (yoe : Z) :
  0 <= yoe < 400 ->
  0 <= yearStart yoe /\ yearStart yoe + yearLast yoe < 146097
  /\ yearOfCycle (yearStart yoe) = yoe
  /\ yearOfCycle (yearStart yoe + yearLast yoe) = yoe.
Proof.
  intros Hyoe.
  pose proof (range_checked _ _ years_all yoe Hyoe) as H. cbv beta in H.
  rewrite !andb_true_iff in H. lia.
Qed.

Lemma months_checked (m d : Z) :
  1 <= m <= 12 -> 1 <= d <= days_in_month 0 m ->
  monthDay (dayOfYear m d) = (m, d).
Proof.
  intros Hm Hd.
  assert (Hd31 : d <= 31).
  { unfold days_in_month in Hd.
    destruct (m =? 2); [destruct (is_leap 0); lia|]. destruct (_ || _); lia. }
  pose proof (range_checked _ _ months_all (m - 1) ltac:(lia)) as H. cbv beta in H.
  pose proof (range_checked _ _ H (d - 1) ltac:(lia)) as H'. cbv beta in H'.
  replace (m - 1 + 1) with m in H' by lia. replace (d - 1 + 1) with d in H' by lia.
  destruct (Z.leb_spec d (days_in_month 0 m)); [|lia]. cbn [negb orb] in H'.
  destruct (monthDay (dayOfYear m d)) as [m' d'].
  rewrite andb_true_iff in H'. f_equal; lia.
Qed.

Lemma cycleScaled_mono (a b : Z) :
  0 <= a <= b -> b <= 146096 -> cycleScaled a <= cycleScaled b.
Proof.
  intros Hab Hb. unfold cycleScaled.
  pose proof (Z.div_mod a 1460 ltac:(lia)). pose proof (Z.mod_pos_bound a 1460 ltac:(lia)).
  pose proof (Z.div_mod b 1460 ltac:(lia)). pose proof (Z.mod_pos_bound b 1460 ltac:(lia)).
  pose proof (Z.div_le_mono a b 36524 ltac:(lia) ltac:(lia)).
  assert (Ha : a / 146096 = 0 \/ a = 146096).
  { destruct (Z.eq_dec a 146096); [right; assumption|left].
    apply Z.div_small. lia. }
  assert (Hb' : b / 146096 = 0 \/ b = 146096).
  { destruct (Z.eq_dec b 146096); [right; assumption|left].
    apply Z.div_small. lia. }
  destruct Ha as [Ha| ->].
  - destruct Hb' as [Hb'| ->].
    + rewrite Ha, Hb'. lia.
    + rewrite Ha. change (146096 / 146096) with 1. change (146096 / 36524) with 4.
      change (146096 / 1460) with 100.
      assert (Hlt : a <= 146095).
      { destruct (Z.eq_dec a 146096) as [->|]; [discriminate Ha | lia]. }
      pose proof (Z.div_le_mono a 146095 36524 ltac:(lia) ltac:(lia)) as H36.
      change (146095 / 36524) with 3 in H36.
      pose proof (Z.div_le_mono a 146095 1460 ltac:(lia) ltac:(lia)) as H14.
      change (146095 / 1460) with 100 in H14. lia.
  - assert (b = 146096) as -> by lia. lia.
Qed.

Lemma is_leap_cycle (k x : Z) : is_leap (k * 400 + x) = is_leap x.
Proof.
  unfold is_leap.
  replace ((k * 400 + x) mod 4) with (x mod 4)
    by (replace (k * 400 + x) with (x + (k * 100) * 4) by lia;
        rewrite Z_mod_plus_full; reflexivity).
  replace ((k * 400 + x) mod 100) with (x mod 100)
    by (replace (k * 400 + x) with (x + (k * 4) * 100) by lia;
        rewrite Z_mod_plus_full; reflexivity).
  replace ((k * 400 + x) mod 400) with (x mod 400)
    by (replace (k * 400 + x) with (x + k * 400) by lia;
        rewrite Z_mod_plus_full; reflexivity).
  reflexivity.
Qed.

Lemma days_in_month_most (y m : Z) : days_in_month y m <= days_in_month 0 m.
Proof.
  unfold days_in_month. destruct (m =? 2); [|lia].
  change (is_leap 0) with true. destruct (is_leap y); lia.
Qed.

(** The day of the year stays within the year of the cycle it is in. *)
Lemma dayOfYear_bounds (y m d : Z) :
  1 <= m <= 12 -> 1 <= d <= days_in_month y m ->
  0 <= dayOfYear m d
  <= (if m <=? 2 then (if is_leap y then 365 else 364) else 364).
Proof.
  intros Hm Hd. unfold dayOfYear, days_in_month in *.
  assert (Hcase : m = 1 \/ m = 2 \/ m = 3 \/ m = 4 \/ m = 5 \/ m = 6 \/ m = 7 \/ m = 8
                  \/ m = 9 \/ m = 10 \/ m = 11 \/ m = 12) by lia.
  repeat (destruct Hcase as [Hcase|Hcase];
          [subst m; cbn [Z.eqb Pos.eqb orb Z.leb Z.compare Pos.compare Pos.compare_cont] in *;
           match goal with
           | |- context [?a / 5] =>
               let v := eval vm_compute in (a / 5) in change (a / 5) with v
           end;
           try destruct (is_leap y); lia|]).
  subst m; cbn [Z.eqb Pos.eqb orb Z.leb Z.compare Pos.compare Pos.compare_cont] in *.
  match goal with
  | |- context [?a / 5] => let v := eval vm_compute in (a / 5) in change (a / 5) with v
  end.
  lia.
Qed.

Lemma civil_from_days_cycle (z : Z) :
  civil_from_days z
  = let era := (z + 719468) / 146097 in
    let doe := z + 719468 - era * 146097 in
    let yoe := yearOfCycle doe in
    let '(m, d) := monthDay (doe - (365 * yoe + yoe / 4 - yoe / 100)) in
    ((if m <=? 2 then yoe + era * 400 + 1 else yoe + era * 400), m, d).
Proof. reflexivity. Qed.

Lemma days_from_civil_cycle (y m d : Z) :
  days_from_civil y m d
  = let y' := if m <=? 2 then y - 1 else y in
    let era := y' / 400 in
    era * 146097 + (yearStart (y' - era * 400) + dayOfYear m d) - 719468.
Proof. reflexivity. Qed.

(** The civil date of the day number of a date of the calendar is that
    date. *)
Lemma civil_round_trip (y m d : Z) :
  1 <= m <= 12 -> 1 <= d <= days_in_month y m ->
  civil_from_days (days_from_civil y m d) = (y, m, d).
Proof.
  intros Hm Hd.
  rewrite civil_from_days_cycle, days_from_civil_cycle. cbv zeta.
  set (y' := if m <=? 2 then y - 1 else y).
  set (era := y' / 400). set (yoe := y' - era * 400).
  assert (Hyoe : 0 <= yoe < 400).
  { unfold yoe, era. pose proof (Z.div_mod y' 400 ltac:(lia)).
    pose proof (Z.mod_pos_bound y' 400 ltac:(lia)). lia. }
  destruct (years_checked yoe Hyoe) as (Hlo & Hhi & Hfirst & Hlast).
  assert (Hdoy : 0 <= dayOfYear m d <= yearLast yoe).
  { pose proof (dayOfYear_bounds y m d Hm Hd) as Hb. unfold yearLast.
    replace (is_leap (yoe + 1)) with (is_leap (y' + 1))
      by (replace (y' + 1) with (era * 400 + (yoe + 1)) by (unfold yoe; lia);
          apply is_leap_cycle).
    unfold y' in *. destruct (Z.leb_spec m 2).
    - replace (y - 1 + 1) with y by lia. exact Hb.
    - destruct (is_leap (y + 1)); lia. }
  set (doe := yearStart yoe + dayOfYear m d) in *.
  assert (Hdoe : 0 <= doe < 146097) by (unfold doe; lia).
  replace (era * 146097 + doe - 719468 + 719468) with (doe + era * 146097) by lia.
  rewrite Z.div_add by lia. rewrite (Z.div_small doe 146097) by lia. cbn [Z.add].
  replace (doe + era * 146097 - era * 146097) with doe by lia.
  assert (Hyear : yearOfCycle doe = yoe).
  { unfold yearOfCycle in *.
    pose proof (cycleScaled_mono (yearStart yoe) doe ltac:(unfold doe; lia) ltac:(lia)).
    pose proof (cycleScaled_mono doe (yearStart yoe + yearLast yoe)
                  ltac:(unfold doe; lia) ltac:(lia)).
    pose proof (Z.div_le_mono _ _ 365 ltac:(lia) H).
    pose proof (Z.div_le_mono _ _ 365 ltac:(lia) H0). lia. }
  rewrite Hyear.
  replace (doe - (365 * yoe + yoe / 4 - yoe / 100)) with (dayOfYear m d)
    by (unfold doe, yearStart; lia).
  rewrite (months_checked m d Hm) by (pose proof (days_in_month_most y m); lia).
  f_equal. f_equal. unfold yoe, y'. destruct (m <=? 2); lia.
Qed.

Lemma pad2_all :
  forallb (fun n => (Str.pad2 n =? twoDigits n)%string) (range 100) = true.
Proof. vm_compute. reflexivity. Qed.

Lemma pad4_all :
  forallb (fun n => (Str.pad4 n =? fourDigits n)%string) (range 10000) = true.
Proof. vm_compute. reflexivity. Qed.

Lemma pad2_checked (n : Z) : 0 <= n < 100 -> Str.pad2 n = twoDigits n.
Proof.
  intros Hn. apply String.eqb_eq. apply (range_checked _ _ pad2_all n Hn).
Qed.

Lemma pad4_checked (n : Z) : 0 <= n < 10000 -> Str.pad4 n = fourDigits n.
Proof.
  intros Hn. apply String.eqb_eq. apply (range_checked _ _ pad4_all n Hn).
Qed.

Lemma digit_char (c : ascii) (v : Z) :
  Str.digit c = Some v -> c = digitChar v /\ 0 <= v <= 9.
Proof.
  unfold Str.digit, digitChar. destruct (_ && _) eqn:E; [|discriminate].
  intros [= <-]. apply andb_true_iff in E. split; [|lia].
  replace (Z.to_nat (48 + (Z.of_nat (nat_of_ascii c) - 48))) with (nat_of_ascii c) by lia.
  symmetry. apply ascii_nat_embedding.
Qed.

Lemma digits_twoDigits (a b : ascii) (n : Z) :
  Str.digits (String a (String b EmptyString)) = Some n ->
  0 <= n < 100 /\ twoDigits n = String a (String b EmptyString).
Proof.
  unfold Str.digits. cbn [Str.digits_from].
  destruct (Str.digit a) as [va|] eqn:Ea; [|discriminate].
  destruct (Str.digit b) as [vb|] eqn:Eb; [|discriminate].
  intros [= Hn].
  destruct (digit_char a va Ea) as [-> Ha]. destruct (digit_char b vb Eb) as [-> Hb].
  assert (n = vb + va * 10) as -> by lia.
  split; [lia|]. unfold twoDigits.
  rewrite Z.div_add, Z_mod_plus_full by lia.
  rewrite Z.div_small, Z.mod_small by lia. reflexivity.
Qed.

Lemma digits_fourDigits (a b c d : ascii) (n : Z) :
  Str.digits (String a (String b (String c (String d EmptyString)))) = Some n ->
  0 <= n < 10000
  /\ fourDigits n = String a (String b (String c (String d EmptyString))).
Proof.
  unfold Str.digits. cbn [Str.digits_from].
  destruct (Str.digit a) as [va|] eqn:Ea; [|discriminate].
  destruct (Str.digit b) as [vb|] eqn:Eb; [|discriminate].
  destruct (Str.digit c) as [vc|] eqn:Ec; [|discriminate].
  destruct (Str.digit d) as [vd|] eqn:Ed; [|discriminate].
  intros [= Hn].
  destruct (digit_char a va Ea) as [-> Ha]. destruct (digit_char b vb Eb) as [-> Hb].
  destruct (digit_char c vc Ec) as [-> Hc]. destruct (digit_char d vd Ed) as [-> Hd].
  split; [lia|]. unfold fourDigits, twoDigits.
  assert (H1 : n / 1000 = va).
  { replace n with (vb * 100 + vc * 10 + vd + va * 1000) by lia.
    rewrite Z.div_add, Z.div_small by lia. reflexivity. }
  assert (H2 : n / 100 mod 10 = vb).
  { replace n with (vc * 10 + vd + (va * 10 + vb) * 100) by lia.
    rewrite Z.div_add, Z.div_small by lia. cbn [Z.add].
    replace (va * 10 + vb) with (vb + va * 10) by lia.
    rewrite Z_mod_plus_full, Z.mod_small by lia. reflexivity. }
  assert (H3 : n mod 100 = vc * 10 + vd).
  { replace n with (vc * 10 + vd + (va * 10 + vb) * 100) by lia.
    rewrite Z_mod_plus_full, Z.mod_small by lia. reflexivity. }
  rewrite H1, H2, H3.
  replace (vc * 10 + vd) with (vd + vc * 10) by lia.
  rewrite Z.div_add, Z_mod_plus_full by lia.
  rewrite Z.div_small, Z.mod_small by lia. reflexivity.
Qed.

(** A date string that [parseISO] accepts is what [format] prints for
    every instant of its day. *)
Lemma format_parseISO (s : string) (d t : Date) :
  parseISO s = Some d -> 0 < getFullYear d -> 0 <= t < MS_PER_DAY ->
  format (d + t) P_yyyy_MM_dd = s.
Proof.
  unfold parseISO, parse_ymd. intros Hparse Hyear Ht.
  destruct s as [|y1 [|y2 [|y3 [|y4 [|c1 [|m1 [|m2 [|c2 [|d1 [|d2 [|]]]]]]]]]]];
    try discriminate.
  destruct (Ascii.eqb_spec c1 "-") as [->|]; [|discriminate].
  destruct (Ascii.eqb_spec c2 "-") as [->|]; [|discriminate]. cbn [andb] in Hparse.
  destruct (Str.digits (String y1 _)) as [y|] eqn:Ey; [|discriminate].
  destruct (Str.digits (String m1 _)) as [m|] eqn:Em; [|discriminate].
  destruct (Str.digits (String d1 _)) as [dd|] eqn:Ed; [|discriminate].
  destruct (_ && _) eqn:Hvalid; [|discriminate]. injection Hparse as <-.
  rewrite !andb_true_iff in Hvalid.
  assert (Hpositive : 0 < y).
  { unfold getFullYear, dayNumber in Hyear.
    rewrite Z.div_mul in Hyear by (unfold MS_PER_DAY; lia).
    rewrite (civil_round_trip y m dd) in Hyear by lia. exact Hyear. }
  destruct (digits_fourDigits _ _ _ _ _ Ey) as [Hy Hys].
  destruct (digits_twoDigits _ _ _ Em) as [Hm Hms].
  destruct (digits_twoDigits _ _ _ Ed) as [Hd Hds].
  assert (Hday : dayNumber (days_from_civil y m dd * MS_PER_DAY + t)
                 = days_from_civil y m dd).
  { unfold dayNumber. rewrite Z.add_comm, Z.div_add by (unfold MS_PER_DAY; lia).
    rewrite Z.div_small by lia. reflexivity. }
  unfold format, format_date. rewrite Hday.
  rewrite (civil_round_trip y m dd) by lia.
  replace (eraYear y) with y by (unfold eraYear; destruct (Z.gtb_spec y 0); lia).
  rewrite (pad4_checked y Hy), (pad2_checked m Hm), (pad2_checked dd Hd).
  rewrite Hys, Hms, Hds. reflexivity.
Qed.

(** X13.  The date written in a message is the date that was read: for
    a date string of a year from 0001 on and a commit made at any instant
    of the day that [parseISO] gives for it, [{{date}}] is replaced by
    that very string, and the printed date parses back to the same day.
    (The year 0000 is printed as the year 0001 of the era before.) *)
Theorem date_placeholder_round_trip (pre post s : string) (d x : Date) (i : Z) :
  parseISO s = Some d ->
  0 < getFullYear d ->
  dayNumber x = dayNumber d ->
  noBrace pre = true -> noBrace post = true ->
  formatCommitMessage (pre ++ "{{date}}" ++ post) x i = pre ++ s ++ post
  /\ parseISO (format x P_yyyy_MM_dd) = Some d.
Proof.
  intros Hparse Hyear Hday Hpre Hpost.
  assert (Hformat : format x P_yyyy_MM_dd = s).
  { rewrite <- (format_parseISO s d 0 Hparse Hyear) by (unfold MS_PER_DAY; lia).
    unfold format, format_date. rewrite Z.add_0_r, Hday. reflexivity. }
  split; [|rewrite Hformat; exact Hparse].
  rewrite <- Hformat. apply date_placeholder_replaced; [exact Hpre | exact Hpost].
Qed.

Lemma date_placeholder_round_trip_witness :
  formatCommitMessage ("auto commit: " ++ "{{date}}" ++ EmptyString) (19782 * MS_PER_DAY + 34200000) 0
  = "auto commit: " ++ "2024-02-29" ++ EmptyString
  /\ parseISO (format (19782 * MS_PER_DAY + 34200000) P_yyyy_MM_dd)
     = Some (19782 * MS_PER_DAY).
Proof.
  apply (date_placeholder_round_trip "auto commit: " EmptyString "2024-02-29"
           (19782 * MS_PER_DAY) (19782 * MS_PER_DAY + 34200000) 0).
  - vm_compute. reflexivity.
  - vm_compute. reflexivity.
  - vm_compute. reflexivity.
  - reflexivity.
  - reflexivity.
Defined.

(** The year 0000 does not come back: [yyyy] prints the year of the era,
    and [parseISO] reads that as the year 1. *)
Example year_zero_printed_as_one :
  parseISO "0000-06-15" = Some (-719362 * MS_PER_DAY)
  /\ format (-719362 * MS_PER_DAY) P_yyyy_MM_dd = "0001-06-15"
  /\ parseISO "0001-06-15" = Some (-718997 * MS_PER_DAY).
Proof. vm_compute. repeat split. Qed.

(** ** The engine *)

Lemma generate_counts_applied env config onProgress g :
  generatedCommits (fst (fst (generate env config onProgress g)))
  = applied (snd (fst (generate env config onProgress g))).
Proof.
  unfold generate.
  assert (Hstart : generatedCommits (await (cancelDuring env 0) initial) = 0)
    by (unfold await; destruct (cancelDuring env 0); reflexivity).
  destruct (GitService.validateRepo _ _ _); [|exact Hstart].
  destruct (generatePlan env config) as [[|c plan]|]; [exact Hstart| |exact Hstart].
  pose proof (executeCommits_counts env config onProgress
                (Z.of_nat (List.length (c :: plan))) (c :: plan) 0
                {| gen := await (cancelDuring env 0) initial; errs := [];
                   log := [EvValidateRepo] |}) as Hcount.
  cbn [gen log] in Hcount. rewrite Hstart in Hcount.
  change (applied [EvValidateRepo]) with 0 in Hcount.
  destruct (executeCommits _ _ _ _ _ _ _) as [r [e|]]; cbn [fst snd] in *; [lia|].
  destruct (autoPush config && (generatedCommits (gen r) >? 0));
    [destruct (GitService.push (pushAnswer env))|]; cbn [fst snd gen log];
    rewrite ?applied_app, ?applied_push; lia.
Qed.

Lemma applied_nonneg (l : list Event) : 0 <= applied l.
Proof. unfold applied. lia. Qed.

(** X14.  [rollback()] without a count, called after [generate] has
    ended in whatever way, issues one reset of exactly the commits that
    succeeded in the run, and none when there were none; when the reset
    succeeds the counter is back to 0 and a second [rollback()] does
    nothing; when it fails the error is [GIT_OPERATION_FAILED] and the
    counter is kept. *)
Theorem rollback_after_generate env config onProgress g (git git' : string + unit) :
  let '(g', log', _) := generate env config onProgress g in
  let '(g'', resets, res) := CommitGenerator.rollback git None g' in
  resets = (if applied log' >? 0
            then [EvReset (applied log') (succeeded git)]
            else [])
  /\ (applied log' = 0 -> g'' = g' /\ res = Ok tt)
  /\ (res = Ok tt ->
        generatedCommits g'' = 0
        /\ CommitGenerator.rollback git' None g'' = (g'', [], Ok tt))
  /\ (forall e, res = Throw e -> code e = GIT_OPERATION_FAILED /\ g'' = g').
Proof.
  pose proof (generate_counts_applied env config onProgress g) as Hcount.
  destruct (generate env config onProgress g) as [[g' log'] result]. cbn [fst snd] in Hcount.
  pose proof (applied_nonneg log') as Hnn.
  unfold CommitGenerator.rollback, GitService.rollback. rewrite Hcount.
  destruct (Z.gtb_spec (applied log') 0) as [Hpos|Hzero].
  - destruct (Z.leb_spec (applied log') 0); [lia|].
    destruct git as [err|[]]; cbn.
    + split; [reflexivity|]. split; [lia|]. split; [discriminate|].
      intros e [= <-]. split; reflexivity.
    + split; [reflexivity|]. split; [lia|]. split; [|discriminate].
      intros _. split; reflexivity.
  - split; [reflexivity|]. split; [intros _; split; reflexivity|]. split; [|discriminate].
    intros _. rewrite Hcount. assert (applied log' = 0) as -> by lia.
    split; reflexivity.
Qed.


Lemma executeCommits_throws env config onProgress total (rest : list CommitPlan) :
  forall i r r' e,
    executeCommits env config onProgress total i rest r = (r', Some e) ->
    code e = USER_CANCELLED /\ cancelled (gen r') = true.
Proof.
  induction rest as [|c rest IH]; intros i r r' e; cbn [executeCommits].
  - discriminate.
  - destruct (cancelled (gen r)) eqn:Hc.
    + intros [= <- <-]. split; [reflexivity | exact Hc].
    + apply IH.
Qed.

(** X15.  [generate] throws in three cases only: the error of
    [validateRepo], before anything else is done; the error of the date
    range check, of code [INVALID_DATE_RANGE], before any commit; or
    [USER_CANCELLED] after a [cancel()], and then nothing has been
    pushed.  A failed commit or a failed push never makes it throw. *)
Theorem generate_throws_only env config onProgress g g' log' e :
  generate env config onProgress g = (g', log', Throw e) ->
  (GitService.validateRepo (repoPath config) (repoStatus env) true = Throw e
   /\ log' = [EvValidateRepo] /\ generatedCommits g' = 0)
  \/ (validateDateRange (startDate config) (endDate config) = Throw e
      /\ code e = INVALID_DATE_RANGE
      /\ log' = [EvValidateRepo] /\ generatedCommits g' = 0)
  \/ (code e = USER_CANCELLED /\ cancelled g' = true /\ filter isPush log' = []).
Proof.
  unfold generate.
  assert (Hstart : generatedCommits (await (cancelDuring env 0) initial) = 0)
    by (unfold await; destruct (cancelDuring env 0); reflexivity).
  destruct (GitService.validateRepo _ _ _) as [[]|e0].
  2:{ intros [= <- <- <-]. left. repeat split. exact Hstart. }
  unfold generatePlan, generateCommitPlan, getDaysInRange.
  destruct (validateDateRange (startDate config) (endDate config)) as [[]|e0] eqn:Hrange.
  2:{ cbn [ret fst]. intros [= <- <- <-]. right. left. repeat split; [|exact Hstart].
      unfold validateDateRange in Hrange.
      destruct (parseISO (startDate config)); [|injection Hrange as <-; reflexivity].
      destruct (parseISO (endDate config)); [|injection Hrange as <-; reflexivity].
      destruct (isAfter _ _); [injection Hrange as <-; reflexivity | discriminate]. }
  match goal with |- context [fst ?m] => destruct (fst m) as [[|c plan]|e0] eqn:Hplan end.
  - discriminate.
  - destruct (executeCommits _ _ _ _ _ _ _) as [r [e1|]] eqn:Hloop; [|discriminate].
    intros [= <- <- <-]. right. right.
    destruct (executeCommits_throws _ _ _ _ _ _ _ _ _ Hloop) as [Hcode Hc].
    repeat split; try assumption.
    match type of Hloop with
    | executeCommits ?e ?c ?o ?t ?i ?rest ?r0 = _ =>
        destruct (executeCommits_log e c o t rest i r0) as [a Ha];
        rewrite Hloop in Ha; cbn [fst log] in Ha; rewrite Ha, filter_app;
        destruct (traceOf_no_reset_no_push e c o t (firstn a rest) i) as [_ ->]
    end.
    reflexivity.
  - exfalso. destruct (parseISO (startDate config)), (parseISO (endDate config));
      cbn in Hplan; try discriminate;
      rewrite bind_eq in Hplan; cbn in Hplan; discriminate.
Qed.

Lemma generate_throws_only_witness :
  (GitService.validateRepo (repoPath Demo.weekConfig) (repoStatus Demo.interruptedEnv) true
   = Throw Cases.interruptedError
   /\ snd (fst Cases.interruptedRun) = [EvValidateRepo]
   /\ generatedCommits (fst (fst Cases.interruptedRun)) = 0)
  \/ (validateDateRange (startDate Demo.weekConfig) (endDate Demo.weekConfig)
      = Throw Cases.interruptedError
      /\ code Cases.interruptedError = INVALID_DATE_RANGE
      /\ snd (fst Cases.interruptedRun) = [EvValidateRepo]
      /\ generatedCommits (fst (fst Cases.interruptedRun)) = 0)
  \/ (code Cases.interruptedError = USER_CANCELLED
      /\ cancelled (fst (fst Cases.interruptedRun)) = true
      /\ filter isPush (snd (fst Cases.interruptedRun)) = []).
Proof.
  apply (generate_throws_only Demo.interruptedEnv Demo.weekConfig true initial).
  vm_compute. reflexivity.
Defined.


Lemma executeCommits_none env config onProgress total (rest : list CommitPlan) :
  forall i r r',
    executeCommits env config onProgress total i rest r = (r', None) ->
    r' = iterate env config onProgress total i rest r.
Proof.
  induction rest as [|c rest IH]; intros i r r'; cbn [executeCommits iterate].
  - intros [= <-]. reflexivity.
  - destruct (cancelled (gen r)); [discriminate|]. apply IH.
Qed.

Lemma successes_failures env (len : nat) : forall i,
  successes env i len + Z.of_nat (List.length (failures env i len)) = Z.of_nat len.
Proof.
  unfold successes, failures, succeeds, GitService.createCommit.
  induction len as [|len IH]; intros i; [reflexivity|].
  cbn [seq filter flat_map]. specialize (IH (S i)).
  destruct (commitAnswer env i); cbn [List.length app]; rewrite ?length_app; cbn [List.length];
    lia.
Qed.

Lemma successes_nonneg env i len : 0 <= successes env i len.
Proof. unfold successes. lia. Qed.

Lemma generate_returns env config onProgress g g' log' res plan :
  generate env config onProgress g = (g', log', Ok res) ->
  generatePlan env config = Ok plan ->
  plan <> [] ->
  exists pushEvents pushErrors,
    log' = (EvValidateRepo
              :: traceOf env config onProgress (Z.of_nat (List.length plan)) 0 plan
              ++ pushEvents)%list
    /\ generatedCommits g' = successes env 0 (List.length plan)
    /\ totalCommits res = successes env 0 (List.length plan)
    /\ errors res = (failures env 0 (List.length plan) ++ pushErrors)%list
    /\ success res = (List.length (errors res) =? 0)%nat
    /\ ((pushEvents = [] /\ pushErrors = []
         /\ autoPush config && (totalCommits res >? 0) = false)
        \/ (autoPush config && (totalCommits res >? 0) = true
            /\ pushEvents = [EvPush (branch config) (succeeded (pushAnswer env))]
            /\ (List.length pushErrors
                = if succeeded (pushAnswer env) then 0 else 1)%nat)).
Proof.
  unfold generate. cbn [cancelled generatedCommits]. intros Hgen Hplan Hne.
  assert (Hstart : generatedCommits (await (cancelDuring env 0) initial) = 0)
    by (unfold await; destruct (cancelDuring env 0); reflexivity).
  destruct (GitService.validateRepo _ _ _); [|discriminate].
  rewrite Hplan in Hgen. destruct plan as [|c plan]; [contradiction|].
  set (total := Z.of_nat (List.length (c :: plan))) in *.
  set (len := List.length (c :: plan)) in *.
  destruct (executeCommits _ _ _ _ _ _ _) as [r [e|]] eqn:Hloop; [discriminate|].
  apply executeCommits_none in Hloop. 
  assert (Hg : generatedCommits (gen r) = successes env 0 len).
  { rewrite Hloop, iterate_gen. cbn [gen]. fold initial. rewrite Hstart. fold len. lia. }
  assert (He : errs r = failures env 0 len).
  { rewrite Hloop, iterate_errs. reflexivity. }
  assert (Hl : log r = EvValidateRepo :: traceOf env config onProgress total 0 (c :: plan)).
  { rewrite Hloop, iterate_log. reflexivity. }
  destruct (autoPush config && (generatedCommits (gen r) >? 0)) eqn:Hpush;
    [destruct (pushAnswer env) as [err|[]] eqn:Hanswer; cbn [GitService.push] in Hgen|];
    injection Hgen as <- <- <-; cbn [gen errs log totalCommits errors success].
  - exists [EvPush (branch config) false], ["Failed to push: " ++ "Failed to push to remote: " ++ err].
    rewrite Hl, He, Hg in *. repeat split; try reflexivity.
    right. rewrite Hpush. repeat split.
  - exists [EvPush (branch config) true], [].
    rewrite Hl, He, Hg in *. rewrite !app_nil_r. repeat split; try reflexivity.
    right. rewrite Hpush. repeat split.
  - exists [], []. rewrite Hl, He, Hg in *. rewrite !app_nil_r. repeat split; try reflexivity.
    left. rewrite Hpush. repeat split.
Qed.

Lemma filter_isPush_trace env config onProgress total i entries :
  filter isPush (traceOf env config onProgress total i entries) = [].
Proof. apply traceOf_no_reset_no_push. Qed.

(** X16.  When [generate] returns a result, [createCommit] has been
    called for every entry of the plan; [totalCommits] is the number of
    commits that succeeded, the same as [getGeneratedCommitsCount], and at
    most the length of the plan; [success] implies that every entry was
    committed; and on a non-empty plan [errors] has one line for each
    entry that was not, and at most one more, for the push. *)
Theorem generate_result_covers_plan env config onProgress g g' log' res plan :
  generate env config onProgress g = (g', log', Ok res) ->
  generatePlan env config = Ok plan ->
  attempted log' = List.length plan
  /\ totalCommits res = applied log'
  /\ getGeneratedCommitsCount g' = totalCommits res
  /\ 0 <= totalCommits res <= Z.of_nat (List.length plan)
  /\ (success res = true -> totalCommits res = Z.of_nat (List.length plan))
  /\ (plan <> [] ->
      Z.of_nat (List.length plan) - totalCommits res
      <= Z.of_nat (List.length (errors res))
      <= Z.of_nat (List.length plan) - totalCommits res + 1).
Proof.
  intros Hgen Hplan.
  destruct plan as [|c plan'] eqn:Eplan.
  { unfold generate in Hgen. destruct (GitService.validateRepo _ _ _); [|discriminate].
    rewrite Hplan in Hgen. injection Hgen as <- <- <-.
    unfold await. destruct (cancelDuring env 0); cbn; repeat split; try lia; congruence. }
  rewrite <- Eplan in *.
  assert (Hne : plan <> []) by (rewrite Eplan; discriminate).
  destruct (generate_returns _ _ _ _ _ _ _ _ Hgen Hplan Hne)
    as (pushEvents & pushErrors & -> & Hg & Ht & He & Hs & Hpush).
  pose proof (successes_failures env (List.length plan) 0) as Hsum.
  pose proof (successes_nonneg env 0 (List.length plan)) as Hnn.
  assert (Hpe : attempted pushEvents = 0%nat /\ applied pushEvents = 0
                /\ (List.length pushErrors <= 1)%nat).
  { destruct Hpush as [(-> & -> & _)|(_ & -> & Hlen)].
    - repeat split; cbn; lia.
    - repeat split; try reflexivity. destruct (succeeded _); lia. }
  destruct Hpe as (Hpa & Hpp & Hpl).
  change (EvValidateRepo :: ?l) with ([EvValidateRepo] ++ l)%list.
  rewrite !attempted_app, !applied_app, traceOf_attempted, traceOf_applied, Hpa, Hpp.
  change (attempted [EvValidateRepo]) with 0%nat.
  change (applied [EvValidateRepo]) with 0.
  unfold getGeneratedCommitsCount. rewrite Hg, Ht, He, length_app.
  repeat split; try lia.
  - intros Hsuccess. rewrite Hs, He in Hsuccess.
    apply Nat.eqb_eq in Hsuccess. rewrite length_app in Hsuccess. lia.
Qed.

Lemma generate_result_covers_plan_witness :
  attempted (snd (fst Demo.flakyRun)) = List.length Demo.weekPlan
  /\ totalCommits Demo.flakyResult = applied (snd (fst Demo.flakyRun))
  /\ getGeneratedCommitsCount (fst (fst Demo.flakyRun)) = totalCommits Demo.flakyResult
  /\ 0 <= totalCommits Demo.flakyResult <= Z.of_nat (List.length Demo.weekPlan)
  /\ (success Demo.flakyResult = true ->
      totalCommits Demo.flakyResult = Z.of_nat (List.length Demo.weekPlan))
  /\ (Demo.weekPlan <> [] ->
      Z.of_nat (List.length Demo.weekPlan) - totalCommits Demo.flakyResult
      <= Z.of_nat (List.length (errors Demo.flakyResult))
      <= Z.of_nat (List.length Demo.weekPlan) - totalCommits Demo.flakyResult + 1).
Proof.
  apply (generate_result_covers_plan Demo.flakyEnv Demo.weekConfig true initial).
  - vm_compute. reflexivity.
  - vm_compute. reflexivity.
Defined.

(** X17.  When [generate] returns a result it has pushed once, to
    [config.branch], if [autoPush] is set and at least one commit
    succeeded, and not at all otherwise; a push that fails makes
    [success] false and leaves [totalCommits] at the number of commits
    made. *)
Theorem generate_push_policy env config onProgress g g' log' res :
  generate env config onProgress g = (g', log', Ok res) ->
  filter isPush log'
  = (if autoPush config && (totalCommits res >? 0)
     then [EvPush (branch config) (succeeded (pushAnswer env))]
     else [])
  /\ totalCommits res = applied log'
  /\ (autoPush config && (totalCommits res >? 0) = true ->
      succeeded (pushAnswer env) = false -> success res = false).
Proof.
  intros Hgen.
  pose proof (generate_counts_applied env config onProgress g) as Hcount.
  destruct (generatePlan env config) as [plan|e] eqn:Hplan.
  2:{ unfold generate in Hgen. destruct (GitService.validateRepo _ _ _); [|discriminate].
      rewrite Hplan in Hgen. discriminate. }
  destruct plan as [|c plan'] eqn:Eplan.
  { unfold generate in Hgen. destruct (GitService.validateRepo _ _ _); [|discriminate].
    rewrite Hplan in Hgen. injection Hgen as <- <- <-.
    cbn [totalCommits]. rewrite andb_false_r. repeat split. discriminate. }
  rewrite <- Eplan in *.
  assert (Hne : plan <> []) by (rewrite Eplan; discriminate).
  destruct (generate_returns _ _ _ _ _ _ _ _ Hgen Hplan Hne)
    as (pushEvents & pushErrors & Hlog & Hg & Ht & He & Hs & Hpush).
  rewrite Hgen in Hcount. cbn [fst snd] in Hcount.
  split; [|split].
  - rewrite Hlog. change (EvValidateRepo :: ?l) with ([EvValidateRepo] ++ l)%list.
    rewrite !filter_app, filter_isPush_trace.
    destruct Hpush as [(-> & _ & ->)|(-> & -> & _)]; reflexivity.
  - rewrite <- Hcount, Hg, Ht. reflexivity.
  - intros Hon Hfail. destruct Hpush as [(_ & _ & Hoff)|(_ & _ & Hlen)]; [congruence|].
    rewrite Hfail in Hlen. rewrite Hs, He, length_app, Hlen.
    apply Nat.eqb_neq. lia.
Qed.

Lemma generate_push_policy_witness :
  filter isPush (snd (fst Cases.offlineRun))
  = (if autoPush Cases.pushConfig && (totalCommits Cases.offlineResult >? 0)
     then [EvPush (branch Cases.pushConfig) (succeeded (pushAnswer Cases.offlineEnv))]
     else [])
  /\ totalCommits Cases.offlineResult = applied (snd (fst Cases.offlineRun))
  /\ (autoPush Cases.pushConfig && (totalCommits Cases.offlineResult >? 0) = true ->
      succeeded (pushAnswer Cases.offlineEnv) = false ->
      success Cases.offlineResult = false).
Proof.
  apply (generate_push_policy Cases.offlineEnv Cases.pushConfig true initial
           (fst (fst Cases.offlineRun))).
  vm_compute. reflexivity.
Defined.

Lemma commitDates_app (l1 l2 : list Event) :
  commitDates (l1 ++ l2) = (commitDates l1 ++ commitDates l2)%list.
Proof. unfold commitDates. apply flat_map_app. Qed.

Lemma commitDates_trace env config onProgress total (entries : list CommitPlan) : forall i,
  commitDates (traceOf env config onProgress total i entries) = map date entries.
Proof.
  induction entries as [|c entries IH]; intros i; cbn [traceOf map]; [reflexivity|].
  destruct (stepEvents_shape env config onProgress total i c) as (msg & ->).
  rewrite commitDates_app, IH. destruct onProgress; reflexivity.
Qed.

Lemma sorted_dates (plan : list CommitPlan) :
  StronglySorted plan_before plan -> StronglySorted Z.le (map date plan).
Proof.
  induction 1 as [|e plan Hs IH He]; cbn [map]; constructor; [exact IH|].
  apply Forall_map. eapply Forall_impl; [|exact He].
  unfold plan_before, getTime. intros; lia.
Qed.

Lemma StronglySorted_firstn {A} (R : A -> A -> Prop) (l : list A) :
  StronglySorted R l -> forall a, StronglySorted R (firstn a l).
Proof.
  induction 1 as [|x l Hs IH Hx]; intros [|a]; cbn [firstn]; try constructor.
  - apply IH.
  - apply Forall_forall. intros y Hy. rewrite Forall_forall in Hx. apply Hx.
    rewrite <- (firstn_skipn a l). apply in_or_app. left. exact Hy.
Qed.

Lemma plan_sorted (random : nat -> Q) (config : Config) (n : nat) (plan : list CommitPlan) :
  fst (generateCommitPlan random config n) = Ok plan -> StronglySorted plan_before plan.
Proof.
  unfold generateCommitPlan.
  destruct (getDaysInRange _ _ _) as [days|e]; [|discriminate].
  rewrite bind_eq. cbn [ret fst]. intros [= <-].
  apply Array_sort_sorted. apply planDays_numbered.
Qed.

(** X18.  In every run of [generate], however it ends, the commits are
    created in the order of their timestamps: the dates passed to
    [createCommit] never decrease from one call to the next. *)
Theorem commits_created_in_order env config onProgress g :
  StronglySorted Z.le (commitDates (snd (fst (generate env config onProgress g)))).
Proof.
  unfold generate.
  destruct (GitService.validateRepo _ _ _); [|constructor].
  destruct (generatePlan env config) as [[|c plan]|] eqn:Hplan; try constructor.
  pose proof (plan_sorted _ _ _ _ Hplan) as Hsorted.
  match goal with |- context [executeCommits ?e ?c ?o ?t ?i ?rest ?r0] =>
    destruct (executeCommits_log e c o t rest i r0) as [k Ha];
    destruct (executeCommits e c o t i rest r0) as [r [err|]]
  end; cbn [fst snd log] in *.
  - rewrite Ha, commitDates_app, commitDates_trace. cbn [commitDates flat_map app].
    apply sorted_dates, StronglySorted_firstn, Hsorted.
  - assert (Hr : StronglySorted Z.le (commitDates (log r))).
    { rewrite Ha, commitDates_app, commitDates_trace. cbn [commitDates flat_map app].
      apply sorted_dates, StronglySorted_firstn, Hsorted. }
    destruct (autoPush config && (generatedCommits (gen r) >? 0));
      [destruct (GitService.push (pushAnswer env))|]; cbn [log];
      rewrite ?commitDates_app; cbn [commitDates flat_map]; rewrite ?app_nil_r; exact Hr.
Qed.


Lemma commitCalls_app (l1 l2 : list Event) :
  commitCalls (l1 ++ l2) = (commitCalls l1 ++ commitCalls l2)%list.
Proof. unfold commitCalls. apply flat_map_app. Qed.

Lemma commitCalls_trace env config onProgress total (entries : list CommitPlan) : forall i,
  commitCalls (traceOf env config onProgress total i entries) = map (payload config) entries.
Proof.
  induction entries as [|c entries IH]; intros i; cbn [traceOf map]; [reflexivity|].
  destruct (stepEvents_shape env config onProgress total i c) as (msg & ->).
  rewrite commitCalls_app, IH. destruct onProgress; reflexivity.
Qed.

(** X19.  The commits of a run follow the plan: the [createCommit]
    calls are those of the first entries of the plan, in the order of the
    plan, each with the entry's message and timestamp, on
    [config.targetFile], with the content [generateFileContent] builds
    for the entry; and when [generate] returns a result, they are those
    of the whole plan. *)
Theorem commits_follow_plan env config onProgress g plan :
  generatePlan env config = Ok plan ->
  exists k,
    commitCalls (snd (fst (generate env config onProgress g)))
    = map (payload config) (firstn k plan)
    /\ (forall res, snd (generate env config onProgress g) = Ok res ->
                    firstn k plan = plan).
Proof.
  intros Hplan. unfold generate. rewrite Hplan.
  destruct (GitService.validateRepo _ _ _);
    [|exists 0%nat; split; [reflexivity | discriminate]].
  destruct plan as [|c plan'] eqn:Eplan;
    [exists 0%nat; split; reflexivity|].
  rewrite <- Eplan. clear Hplan.
  match goal with |- context [executeCommits ?e ?c ?o ?t ?i ?rest ?r0] =>
    destruct (executeCommits e c o t i rest r0) as [r [err|]] eqn:Hloop
  end.
  - match type of Hloop with
    | executeCommits ?e ?c ?o ?t ?i ?rest ?r0 = _ =>
        destruct (executeCommits_log e c o t rest i r0) as [k Ha]
    end.
    rewrite Hloop in Ha. cbn [fst snd log] in *.
    exists k. split; [|discriminate].
    rewrite Ha, commitCalls_app, commitCalls_trace. reflexivity.
  - apply executeCommits_none in Hloop.
    assert (Hr : commitCalls (log r) = map (payload config) plan).
    { rewrite Hloop, iterate_log, commitCalls_app, commitCalls_trace. reflexivity. }
    exists (List.length plan). rewrite firstn_all. split; [|reflexivity].
    destruct (autoPush config && (generatedCommits (gen r) >? 0));
      [destruct (GitService.push (pushAnswer env))|]; cbn [fst snd log];
      rewrite ?commitCalls_app, Hr; cbn [commitCalls flat_map]; rewrite ?app_nil_r;
      reflexivity.
Qed.

Lemma commits_follow_plan_witness :
  exists k,
    commitCalls (snd (fst (generate Demo.interruptedEnv Demo.weekConfig true initial)))
    = map (payload Demo.weekConfig) (firstn k Demo.weekPlan)
    /\ (forall res,
          snd (generate Demo.interruptedEnv Demo.weekConfig true initial) = Ok res ->
          firstn k Demo.weekPlan = Demo.weekPlan).
Proof.
  apply (commits_follow_plan Demo.interruptedEnv Demo.weekConfig true initial Demo.weekPlan).
  vm_compute. reflexivity.
Defined.

(** ** The validator, the schema and the pre-flight checks *)

Lemma digits_two (a b : ascii) (n : Z) :
  Str.digits (String a (String b EmptyString)) = Some n ->
  ConfigSchema.isDigit a = true /\ ConfigSchema.isDigit b = true.
Proof.
  unfold Str.digits, ConfigSchema.isDigit. cbn [Str.digits_from].
  destruct (Str.digit a); [|discriminate].
  destruct (Str.digit b); [|discriminate]. split; reflexivity.
Qed.

Lemma digits_four (a b c d : ascii) (n : Z) :
  Str.digits (String a (String b (String c (String d EmptyString)))) = Some n ->
  ConfigSchema.isDigit a = true /\ ConfigSchema.isDigit b = true
  /\ ConfigSchema.isDigit c = true /\ ConfigSchema.isDigit d = true.
Proof.
  unfold Str.digits, ConfigSchema.isDigit. cbn [Str.digits_from].
  destruct (Str.digit a); [|discriminate].
  destruct (Str.digit b); [|discriminate].
  destruct (Str.digit c); [|discriminate].
  destruct (Str.digit d); [|discriminate]. repeat split; reflexivity.
Qed.

Lemma parseISO_shape (s : string) (d : Date) :
  parseISO s = Some d -> ConfigSchema.dateShape s = true.
Proof.
  unfold parseISO, parse_ymd, ConfigSchema.dateShape.
  destruct s as [|y1 [|y2 [|y3 [|y4 [|c1 [|m1 [|m2 [|c2 [|d1 [|d2 [|]]]]]]]]]]];
    try discriminate.
  destruct (Ascii.eqb c1 "-") eqn:E1; [|discriminate].
  destruct (Ascii.eqb c2 "-") eqn:E2; [|discriminate]. cbn [andb].
  destruct (Str.digits (String y1 _)) as [y|] eqn:Ey; [|discriminate].
  destruct (Str.digits (String m1 _)) as [m|] eqn:Em; [|discriminate].
  destruct (Str.digits (String d1 _)) as [dd|] eqn:Ed; [|discriminate].
  intros _.
  destruct (digits_four _ _ _ _ _ Ey) as (-> & -> & -> & ->).
  destruct (digits_two _ _ _ Em) as (-> & ->).
  destruct (digits_two _ _ _ Ed) as (-> & ->). reflexivity.
Qed.

Lemma validTime_shape (s : string) :
  Validator.isValidTimeFormat s = true -> ConfigSchema.timeShape s = true.
Proof.
  unfold Validator.isValidTimeFormat, ConfigSchema.timeShape, ConfigSchema.isDigit.
  destruct s as [|h1 [|h2 [|c [|m1 [|m2 [|]]]]]]; try discriminate.
  destruct (Str.digit h1); [|discriminate].
  destruct (Str.digit h2); [|discriminate].
  destruct (Str.digit m1); [|discriminate].
  destruct (Str.digit m2); [|discriminate].
  rewrite !andb_true_iff. intros [[Hc _] _]. repeat split; try reflexivity. exact Hc.
Qed.

(** X20.  The validator is at least as strict as the schema: a
    configuration that [Validator.validateConfig] finds valid passes
    [ConfigSchema]. *)
Theorem validator_implies_schema (config : Config) :
  Validator.validateConfig config = true -> ConfigSchema.accepts config = true.
Proof.
  unfold Validator.validateConfig, ConfigSchema.accepts.
  rewrite !andb_true_iff.
  intros [[[[[[[Hs He] _] Hcpd] Hts] Hte] Hp] Hdays].
  unfold Validator.isValidDateFormat in Hs, He.
  destruct (parseISO (startDate config)) as [s|] eqn:Es; [|discriminate].
  destruct (parseISO (endDate config)) as [t|] eqn:Et; [|discriminate].
  unfold Validator.isValidCommitsPerDay in Hcpd. rewrite !andb_true_iff in Hcpd.
  unfold Validator.isValidProbability in Hp. rewrite andb_true_iff in Hp.
  rewrite (parseISO_shape _ _ Es), (parseISO_shape _ _ Et).
  rewrite (validTime_shape _ Hts), (validTime_shape _ Hte).
  destruct Hp as [-> ->].
  repeat split; try lia.
  unfold Validator.isValidSkipDays in Hdays.
  rewrite forallb_forall in *. intros day Hday. specialize (Hdays day Hday).
  rewrite andb_true_iff in *. lia.
Qed.

Lemma validator_implies_schema_witness : ConfigSchema.accepts Demo.weekConfig = true.
Proof. apply (validator_implies_schema Demo.weekConfig). vm_compute. reflexivity. Defined.


Lemma push_length (l : list string) (m : string) :
  List.length (ValidatorReport.push l m) = S (List.length l).
Proof. unfold ValidatorReport.push. rewrite length_app. cbn. lia. Qed.

Lemma empty_date_invalid : Validator.isValidDateFormat EmptyString = false.
Proof. reflexivity. Qed.

Lemma In_push (l : list string) (m x : string) :
  In x (ValidatorReport.push l m) <-> In x l \/ x = m.
Proof.
  unfold ValidatorReport.push. rewrite in_app_iff. cbn. intuition congruence.
Qed.


Lemma step_when (l : list string) (b : bool) (m : string) :
  (if b then ValidatorReport.push l m else l) = (l ++ when b m)%list.
Proof. destruct b; cbn; [reflexivity | rewrite app_nil_r; reflexivity]. Qed.

Lemma step_required (l x : list string) (b : bool) (m : string) :
  (if b then ValidatorReport.push l m else (l ++ x)%list)
  = (l ++ (if b then [m] else x))%list.
Proof. destruct b; reflexivity. Qed.

Lemma validateConfig_errors (config : Config) :
  ValidatorReport.v_errors (ValidatorReport.validateConfig config)
  = ((if (startDate config =? EmptyString)%string then ["Start date is required"]
      else when (negb (Validator.isValidDateFormat (startDate config)))
                ("Invalid start date format: " ++ Str.quoted (startDate config)
                   ++ ". Use YYYY-MM-DD format."))
     ++ (if (endDate config =? EmptyString)%string then ["End date is required"]
         else when (negb (Validator.isValidDateFormat (endDate config)))
                   ("Invalid end date format: " ++ Str.quoted (endDate config)
                      ++ ". Use YYYY-MM-DD format."))
     ++ when (negb (startDate config =? EmptyString)%string && negb (endDate config =? EmptyString)%string
              && negb (Validator.isValidDateRange (startDate config) (endDate config)))
             "Start date must be before or equal to end date"
     ++ when (negb (Validator.isValidCommitsPerDay (cpd_min (commitsPerDay config))
                                                   (cpd_max (commitsPerDay config))))
             "Commits per day must be integers between 0-50, and min must be <= max"
     ++ when (negb (Validator.isValidTimeFormat (tr_start (timeRange config))))
             ("Invalid start time format: " ++ Str.quoted (tr_start (timeRange config))
                ++ ". Use HH:MM format.")
     ++ when (negb (Validator.isValidTimeFormat (tr_end (timeRange config))))
             ("Invalid end time format: " ++ Str.quoted (tr_end (timeRange config))
                ++ ". Use HH:MM format.")
     ++ when (negb (Validator.isValidProbability (skipProbability config)))
             "Skip probability must be a number between 0 and 1"
     ++ when (negb (Validator.isValidSkipDays (skipDays config)))
             "Skip days must be integers between 0 (Sunday) and 6 (Saturday)")%list.
Proof.
  unfold ValidatorReport.validateConfig. cbv zeta. cbn [ValidatorReport.v_errors].
  rewrite !step_when, !step_required. cbn [app]. rewrite <- !app_assoc. reflexivity.
Qed.

Lemma when_nil (b : bool) (m : string) : when b m = [] <-> b = false.
Proof. destruct b; cbn; split; congruence. Qed.

Lemma when_length (b : bool) (m : string) : (List.length (when b m) <= 1)%nat.
Proof. destruct b; cbn; lia. Qed.

Lemma required_nil (e b : bool) (m m' : string) :
  (if e then [m] else when b m') = [] <-> e = false /\ b = false.
Proof. destruct e, b; cbn; split; intuition congruence. Qed.

Lemma required_length (e b : bool) (m m' : string) :
  (List.length (if e then [m] else when b m') <= 1)%nat.
Proof. destruct e, b; cbn; lia. Qed.

Lemma validDate_nonempty (s : string) :
  Validator.isValidDateFormat s = true -> (s =? EmptyString)%string = false.
Proof.
  intros H. destruct (String.eqb_spec s EmptyString) as [->|]; [|reflexivity].
  rewrite empty_date_invalid in H. discriminate.
Qed.

Lemma app_nil_iff {A} (l1 l2 : list A) : (l1 ++ l2)%list = [] <-> l1 = [] /\ l2 = [].
Proof. destruct l1; cbn; split; intuition congruence. Qed.

(** X21.  [validateConfig] reports [valid] exactly when every check
    passes; it reports at most eight errors, one for each check; and for
    two dates that are present and not a valid range, the range error is
    among them. *)
Theorem validateConfig_report (config : Config) :
  (ValidatorReport.valid (ValidatorReport.validateConfig config) = true
   <-> Validator.validateConfig config = true)
  /\ (List.length (ValidatorReport.v_errors (ValidatorReport.validateConfig config)) <= 8)%nat
  /\ (startDate config <> EmptyString -> endDate config <> EmptyString ->
      Validator.isValidDateRange (startDate config) (endDate config) = false ->
      In "Start date must be before or equal to end date"
         (ValidatorReport.v_errors (ValidatorReport.validateConfig config))).
Proof.
  assert (Hvalid : ValidatorReport.valid (ValidatorReport.validateConfig config)
                   = (List.length (ValidatorReport.v_errors
                                     (ValidatorReport.validateConfig config)) =? 0)%nat)
    by reflexivity.
  rewrite Hvalid, length_zero_iff, validateConfig_errors. clear Hvalid.
  split; [|split].
  - rewrite !app_nil_iff, !when_nil, !required_nil, !negb_false_iff.
    unfold Validator.validateConfig. rewrite !andb_true_iff, !andb_false_iff,
      !negb_false_iff.
    split.
    + intros ((Es & Hs) & (Ee & He) & Hr & Hc & Hts & Hte & Hp & Hd).
      rewrite Es, Ee in Hr. cbn in Hr. intuition congruence.
    + intros [[[[[[[Hs He] Hr] Hc] Hts] Hte] Hp] Hd].
      pose proof (validDate_nonempty _ Hs). pose proof (validDate_nonempty _ He).
      intuition.
  - rewrite !length_app.
    repeat match goal with
           | |- context [List.length (when ?b ?m)] =>
               let H := fresh in
               pose proof (when_length b m) as H;
               generalize dependent (List.length (when b m)); intros
           | |- context [List.length (if ?e then [?m] else when ?b ?m')] =>
               let H := fresh in
               pose proof (required_length e b m m') as H;
               generalize dependent (List.length (if e then [m] else when b m')); intros
           end.
    lia.
  - intros Hs He Hr.
    apply String.eqb_neq in Hs, He. rewrite Hs, He, Hr. cbn [negb andb when].
    rewrite !in_app_iff. right. right. left. left. reflexivity.
Qed.


Lemma validateConfig_report_valid (config : Config) :
  (List.length (ValidatorReport.v_errors (ValidatorReport.validateConfig config)) =? 0)%nat
  = true ->
  Validator.validateConfig config = true.
Proof.
  rewrite length_zero_iff, validateConfig_errors.
  rewrite !app_nil_iff, !when_nil, !required_nil, !negb_false_iff.
  unfold Validator.validateConfig. rewrite !andb_true_iff, !andb_false_iff, !negb_false_iff.
  intros ((Es & Hs) & (Ee & He) & Hr & Hc & Hts & Hte & Hp & Hd).
  rewrite Es, Ee in Hr. cbn in Hr. intuition congruence.
Qed.

Lemma generateCommitPlan_total (random : nat -> Q) (config : Config) (n : nat) :
  Validator.validateConfig config = true ->
  exists plan, fst (generateCommitPlan random config n) = Ok plan.
Proof.
  intros Hvalid. destruct (valid_dates config Hvalid) as (s & t & Hs & Ht & Hle).
  unfold generateCommitPlan. rewrite (getDaysInRange_ok _ _ _ s t Hs Ht Hle).
  rewrite bind_eq. cbn [ret fst]. eexists. reflexivity.
Qed.


(** X22.  When the pre-flight checks pass, on the repository that
    [generate] then finds, the configuration is valid, [validateRepo]
    lets the run start, a plan exists, and [generate] can only throw
    [USER_CANCELLED]. *)
Theorem preflight_passed_then_generate (env : CommitGenerator.Env) (config : Config)
    (isGitRepo : bool) (now : Date) (report : ValidatorReport.Preflight) :
  ValidatorReport.preflightChecks isGitRepo (CommitGenerator.repoStatus env) now
    (repoPath config) config = Ok report ->
  ValidatorReport.passed report = true ->
  (forall status, CommitGenerator.repoStatus env = Ok status -> isRepo status = isGitRepo) ->
  ValidatorReport.p_errors report = []
  /\ Validator.validateConfig config = true
  /\ repoUsable env config
  /\ (exists plan, generatePlan env config = Ok plan)
  /\ (forall onProgress g g' log' e,
        generate env config onProgress g = (g', log', Throw e) ->
        code e = USER_CANCELLED).
Proof.
  unfold ValidatorReport.preflightChecks. intros Hpre Hpassed Hsame.
  destruct isGitRepo; cbn [negb] in Hpre;
    [|injection Hpre as <-; discriminate Hpassed].
  destruct (CommitGenerator.repoStatus env) as [status|e0] eqn:Hstatus; [|discriminate].
  injection Hpre as <-. cbn [ValidatorReport.passed ValidatorReport.p_errors] in *.
  assert (Hvalid : Validator.validateConfig config = true).
  { apply validateConfig_report_valid. exact Hpassed. }
  assert (Husable : repoUsable env config).
  { unfold repoUsable, GitService.validateRepo. rewrite Hstatus, (Hsame status eq_refl).
    reflexivity. }
  destruct (generateCommitPlan_total (CommitGenerator.random env) config 0%nat Hvalid)
    as [plan Hplan].
  split; [apply length_zero_iff; exact Hpassed|].
  split; [exact Hvalid|]. split; [exact Husable|]. split; [exists plan; exact Hplan|].
  intros onProgress g g' log' e Hgen.
  destruct plan as [|c plan'] eqn:Eplan.
  { unfold generate in Hgen. unfold repoUsable in Husable.
    rewrite Husable in Hgen. unfold generatePlan in *. rewrite Hplan in Hgen. discriminate. }
  rewrite <- Eplan in *.
  assert (Hne : plan <> []) by (rewrite Eplan; discriminate).
  rewrite (generate_loop _ _ _ _ _ Husable Hplan Hne) in Hgen.
  destruct (executeCommits _ _ _ _ _ _ _) as [r [e1|]] eqn:Hloop; [|discriminate].
  injection Hgen as _ _ <-.
  apply (executeCommits_throws _ _ _ _ _ _ _ _ _ Hloop).
Qed.

Lemma preflight_passed_then_generate_witness :
  ValidatorReport.p_errors Cases.weekPreflight = []
  /\ Validator.validateConfig Demo.weekConfig = true
  /\ repoUsable Demo.calmEnv Demo.weekConfig
  /\ (exists plan, generatePlan Demo.calmEnv Demo.weekConfig = Ok plan)
  /\ (forall onProgress g g' log' e,
        generate Demo.calmEnv Demo.weekConfig onProgress g = (g', log', Throw e) ->
        code e = USER_CANCELLED).
Proof.
  apply (preflight_passed_then_generate Demo.calmEnv Demo.weekConfig true Cases.now).
  - vm_compute. reflexivity.
  - reflexivity.
  - intros status [= <-]. reflexivity.
Defined.


(** ** The commands *)




Lemma skipn_nth_error {A} (l : list A) : forall (i : nat) (x : A),
  nth_error l i = Some x -> skipn i l = x :: skipn (S i) l.
Proof.
  induction l as [|y l IH]; intros [|i] x; cbn [nth_error]; try discriminate.
  - intros [= ->]. reflexivity.
  - intros H. apply (IH i x H).
Qed.

Lemma showRange_numbered (plan : list CommitPlan) (count : nat) : forall from,
  (from + count <= List.length plan)%nat ->
  GenerateCommand.showRange plan from count
  = Some (numbered_lines from (firstn count (skipn from plan))).
Proof.
  induction count as [|count IH]; intros from Hle; cbn [GenerateCommand.showRange].
  - reflexivity.
  - destruct (nth_error plan from) as [commit|] eqn:Hnth.
    + rewrite IH by lia. rewrite (skipn_nth_error plan from commit Hnth). reflexivity.
    + apply nth_error_None in Hnth. lia.
Qed.

Lemma numbered_lines_app (l1 l2 : list CommitPlan) : forall from,
  numbered_lines from (l1 ++ l2)
  = (numbered_lines from l1 ++ numbered_lines (from + List.length l1) l2)%list.
Proof.
  induction l1 as [|c l1 IH]; intros from; cbn [app numbered_lines List.length].
  - rewrite Nat.add_0_r. reflexivity.
  - rewrite IH. do 2 f_equal. f_equal. lia.
Qed.

(** X24.  The listing of a dry run never reads past the plan.  For a
    plan of at most fifteen commits it shows every commit, in order,
    numbered from 1; for a longer plan it shows the first ten, the
    number of commits left out, which is the length less fifteen, and
    the last five under their own numbers. *)
Theorem dryRun_listing (plan : list CommitPlan) :
  let len := List.length plan in
  exists lines, GenerateCommand.dryRun plan = Some lines
    /\ ((len <= 15)%nat -> lines = numbered_lines 0 plan)
    /\ ((15 < len)%nat ->
        lines = (numbered_lines 0 (firstn 10 plan)
                 ++ GenerateCommand.More (Z.of_nat len - 15)
                 :: numbered_lines (len - 5) (skipn (len - 5) plan))%list).
Proof.
  intros len. unfold GenerateCommand.dryRun. fold len.
  rewrite (showRange_numbered plan (Nat.min 10 len) 0) by (unfold len; lia).
  cbn [skipn].
  destruct (Nat.ltb_spec 15 len) as [Hlong|Hshort].
  - rewrite (showRange_numbered plan (len - (len - 5)) (len - 5)) by (unfold len; lia).
    eexists. split; [reflexivity|]. split; [lia|]. intros _.
    replace (Nat.min 10 len) with 10%nat by lia.
    rewrite (firstn_all2 (n := (len - (len - 5))%nat))
      by (rewrite length_skipn; unfold len; lia).
    reflexivity.
  - destruct (Nat.ltb_spec (Nat.min 10 len) len) as [Hmore|Hall].
    + rewrite (showRange_numbered plan (len - Nat.min 10 len) (Nat.min 10 len))
        by (unfold len; lia).
      eexists. split; [reflexivity|]. split; [|lia]. intros _.
      rewrite (firstn_all2 (n := (len - Nat.min 10 len)%nat))
        by (rewrite length_skipn; unfold len; lia).
      rewrite <- (firstn_skipn (Nat.min 10 len) plan) at 3.
      rewrite numbered_lines_app, length_firstn. cbn [Nat.add].
      replace (Nat.min (Nat.min 10 len) (List.length plan)) with (Nat.min 10 len)
        by (unfold len; lia).
      reflexivity.
    + eexists. split; [reflexivity|]. split; [|lia]. intros _.
      rewrite firstn_all2 by (unfold len in *; lia). reflexivity.
Qed.
